(** * classroom-backend: the route handlers of [src/routes] over a relational store

    The development embeds the Express route handlers of [users.ts] (which
    also carries the subjects router) and [classes.ts].  JavaScript numbers
    are IEEE binary64 values ([spec_float] at precision 53), strings are
    UTF-8 byte sequences, the query builder is a small set of list
    combinators, and a handler is a function from the request and the store
    to the response it sends. *)

From Stdlib Require Import ZArith String Ascii List Bool Lia.
From Stdlib Require Import Floats.SpecFloat.
From stdpp Require Import base list strings gmap sorting.
From stdpp Require Import pretty.

Local Open Scope string_scope.
Local Open Scope Z_scope.

(** ** JavaScript numbers and the built-ins the handlers call *)

Module Js.

Definition number : Type := spec_float.

Definition prec : Z := 53.
Definition emax : Z := 1024.

Definition NaN : number := S754_nan.
Definition Infinity : number := S754_infinity false.

(** The number that an integer literal or an integer count denotes. *)
Definition of_Z (z : Z) : number := binary_normalize prec emax z 0 false.

Definition sub (a b : number) : number := SFsub prec emax a b.
Definition mul (a b : number) : number := SFmul prec emax a b.
Definition div (a b : number) : number := SFdiv prec emax a b.

(** [a <= b], [a < b] and [a >= b] of JavaScript: false whenever an
    operand is NaN. *)
Definition leb (a b : number) : bool := SFleb a b.
Definition ltb (a b : number) : bool := SFltb a b.
Definition geb (a b : number) : bool := SFleb b a.

Definition isNaN (a : number) : bool :=
  match a with S754_nan => true | _ => false end.

(** [Number.isFinite] *)
Definition isFinite (a : number) : bool :=
  match a with
  | S754_zero _ | S754_finite _ _ _ => true
  | S754_infinity _ | S754_nan => false
  end.

(** Truthiness of a number: [if (x)] fails on 0, -0 and NaN. *)
Definition truthy (a : number) : bool :=
  match a with
  | S754_zero _ | S754_nan => false
  | _ => true
  end.

(** The integer a number denotes, when it denotes one. *)
Definition to_Z (a : number) : option Z :=
  match a with
  | S754_zero _ => Some 0
  | S754_finite s m e =>
      if 0 <=? e then Some (cond_Zopp s (Z.pos m * 2 ^ e))
      else if Z.pos m mod 2 ^ (- e) =? 0
           then Some (cond_Zopp s (Z.pos m / 2 ^ (- e)))
           else None
  | _ => None
  end.

(** [Number.isInteger] *)
Definition isInteger (a : number) : bool :=
  match to_Z a with Some _ => true | None => false end.

(** [Math.max(a, b)]: NaN when either argument is NaN, and +0 above -0. *)
Definition Math_max (a b : number) : number :=
  match SFcompare a b with
  | None => NaN
  | Some Lt => b
  | Some Gt => a
  | Some Eq => match a with S754_zero true => b | _ => a end
  end.

(** [Math.ceil(a)] *)
Definition Math_ceil (a : number) : number :=
  match a with
  | S754_finite s m e =>
      if 0 <=? e then a
      else
        let d := 2 ^ (- e) in
        let n := if s then - (Z.pos m / d) else (Z.pos m + d - 1) / d in
        binary_normalize prec emax n 0 s
  | _ => a
  end.

(** *** StringToNumber *)

Definition code (c : ascii) : Z := Z.of_nat (nat_of_ascii c).

(** One WhiteSpace or LineTerminator code point at the head of a UTF-8
    byte sequence; the result is what follows it. *)
Definition stripWhiteSpace (l : list Z) : option (list Z) :=
  match l with
  | 9 :: r | 10 :: r | 11 :: r | 12 :: r | 13 :: r | 32 :: r => Some r
  | 194 :: 160 :: r => Some r
  | 225 :: 154 :: 128 :: r => Some r
  | 226 :: 128 :: b :: r =>
      if ((128 <=? b) && (b <=? 138)) || (b =? 168) || (b =? 169) || (b =? 175)
      then Some r else None
  | 226 :: 129 :: 159 :: r => Some r
  | 227 :: 128 :: 128 :: r => Some r
  | 239 :: 187 :: 191 :: r => Some r
  | _ => None
  end.

(** The same for the last code point of a sequence given in reverse. *)
Definition stripWhiteSpaceRev (l : list Z) : option (list Z) :=
  match l with
  | 9 :: r | 10 :: r | 11 :: r | 12 :: r | 13 :: r | 32 :: r => Some r
  | 160 :: 194 :: r => Some r
  | 128 :: 154 :: 225 :: r => Some r
  | b :: 128 :: 226 :: r =>
      if ((128 <=? b) && (b <=? 138)) || (b =? 168) || (b =? 169) || (b =? 175)
      then Some r else None
  | 159 :: 129 :: 226 :: r => Some r
  | 128 :: 128 :: 227 :: r => Some r
  | 191 :: 187 :: 239 :: r => Some r
  | _ => None
  end.

Fixpoint trimStartFuel (fuel : nat) (l : list Z) : list Z :=
  match fuel with
  | O => l
  | S fuel' =>
      match stripWhiteSpace l with
      | Some r => trimStartFuel fuel' r
      | None => l
      end
  end.

Fixpoint trimEndFuel (fuel : nat) (l : list Z) : list Z :=
  match fuel with
  | O => l
  | S fuel' =>
      match stripWhiteSpaceRev l with
      | Some r => trimEndFuel fuel' r
      | None => l
      end
  end.

(** [trim]: every strip removes at least one byte, so the length of the
    sequence is fuel enough. *)
Definition trim (l : list Z) : list Z :=
  let l1 := trimStartFuel (length l) l in
  rev (trimEndFuel (length l1) (rev l1)).

Definition digitValue (radix : Z) (c : Z) : option Z :=
  let v :=
    if (48 <=? c) && (c <=? 57) then Some (c - 48)
    else if (97 <=? c) && (c <=? 122) then Some (c - 87)
    else if (65 <=? c) && (c <=? 90) then Some (c - 55)
    else None in
  match v with
  | Some d => if d <? radix then Some d else None
  | None => None
  end.

(** The longest prefix of digits of the radix, as the integer it spells
    and the number of digits read, with the rest of the input. *)
Fixpoint readDigits (radix : Z) (acc : Z) (n : Z) (l : list Z) : Z * Z * list Z :=
  match l with
  | c :: r =>
      match digitValue radix c with
      | Some d => readDigits radix (acc * radix + d) (n + 1) r
      | None => (acc, n, l)
      end
  | [] => (acc, n, l)
  end.

(** The binary64 value nearest to [m * 10 ^ e10], ties to even. *)
Definition ofDecimal (s : bool) (m : Z) (e10 : Z) : number :=
  match m with
  | Z.pos p =>
      if 0 <=? e10
      then binary_normalize prec emax (cond_Zopp s (m * 10 ^ e10)) 0 s
      else SFdiv prec emax (S754_finite s p 0)
                           (S754_finite false (Z.to_pos (10 ^ (- e10))) 0)
  | _ => S754_zero s
  end.

(** NonDecimalIntegerLiteral: [0x], [0o] or [0b] and at least one digit. *)
Definition readPrefixed (l : list Z) : option number :=
  let go radix r :=
    let '(v, n, rest) := readDigits radix 0 0 r in
    match rest with
    | [] => if 0 <? n then Some (of_Z v) else Some NaN
    | _ => Some NaN
    end in
  match l with
  | 48 :: 120 :: r | 48 :: 88 :: r => go 16 r
  | 48 :: 111 :: r | 48 :: 79 :: r => go 8 r
  | 48 :: 98 :: r | 48 :: 66 :: r => go 2 r
  | _ => None
  end.

(** ExponentPart, or nothing, up to the end of the input. *)
Definition readExponent (l : list Z) : option Z :=
  match l with
  | [] => Some 0
  | 101 :: r | 69 :: r =>
      let '(sg, r1) :=
        match r with
        | 43 :: r' => (false, r')
        | 45 :: r' => (true, r')
        | _ => (false, r)
        end in
      let '(v, n, rest) := readDigits 10 0 0 r1 in
      match rest with
      | [] => if 0 <? n then Some (cond_Zopp sg v) else None
      | _ => None
      end
  | _ => None
  end.

(** StrUnsignedDecimalLiteral with the sign already read. *)
Definition readUnsigned (s : bool) (l : list Z) : number :=
  if decide (l = map code (list_ascii_of_string "Infinity"))
  then S754_infinity s
  else
    let '(ip, ni, r1) := readDigits 10 0 0 l in
    let '(fp, nf, r2) :=
      match r1 with
      | 46 :: r => readDigits 10 ip 0 r
      | _ => (ip, 0, r1)
      end in
    if (ni + nf =? 0) then NaN
    else
      match readExponent r2 with
      | Some ex => ofDecimal s fp (ex - nf)
      | None => NaN
      end.

(** [Number(s)] and unary plus on a string. *)
Definition Number (s : string) : number :=
  let l := trim (map code (list_ascii_of_string s)) in
  match l with
  | [] => S754_zero false
  | _ =>
      match readPrefixed l with
      | Some v => v
      | None =>
          match l with
          | 43 :: r => readUnsigned false r
          | 45 :: r => readUnsigned true r
          | _ => readUnsigned false l
          end
      end
  end.

(** *** Number.prototype.toString(36) and String.prototype.substring *)

(** The language leaves the digits of [x.toString(36)] to the engine.  The
    definitions follow the conversion of V8, the engine of Node.js
    ([DoubleToRadixCString]), statement by statement; it computes in
    binary64 throughout, so every product, sum and difference below is a
    rounded one. *)

Definition digitChars : list ascii :=
  list_ascii_of_string "0123456789abcdefghijklmnopqrstuvwxyz".

Definition digitChar (d : Z) : ascii := nth (Z.to_nat d) digitChars "0"%char.

Definition add (a b : number) : number := SFadd prec emax a b.

(** [std::floor(a)] *)
Definition floor (a : number) : number :=
  match a with
  | S754_finite s m e =>
      if 0 <=? e then a
      else
        let d := 2 ^ (- e) in
        let n := if s then - ((Z.pos m + d - 1) / d) else Z.pos m / d in
        binary_normalize prec emax n 0 s
  | _ => a
  end.

(** [static_cast<int>(a)]: the integer part of a finite value. *)
Definition toInt (a : number) : Z :=
  match a with
  | S754_finite s m e =>
      cond_Zopp s (if 0 <=? e then Z.pos m * 2 ^ e else Z.pos m / 2 ^ (- e))
  | _ => 0
  end.

(** [std::fmod(a, 36)] of a value that is not negative; the remainder is
    exact. *)
Definition fmod36 (a : number) : number :=
  match a with
  | S754_finite false m e =>
      if 0 <=? e then of_Z ((Z.pos m * 2 ^ e) mod 36)
      else binary_normalize prec emax (Z.pos m mod (36 * 2 ^ (- e))) e false
  | _ => a
  end.

(** [Double(a).Exponent()]: the exponent of the 53-bit significand. *)
Definition exponent (a : number) : Z :=
  match a with
  | S754_finite _ _ e => e
  | _ => -1074
  end.

(** [Double(a).NextDouble()] *)
Definition nextDouble (a : number) : number := SFsucc prec emax a.

(** The constants 0.5 and [Double(0.0).NextDouble()], the least positive
    value. *)
Definition half : number := S754_finite false 4503599627370496 (-53).
Definition minValue : number := S754_finite false 1 (-1074).

(** The back trace after the last written digit is rounded up: digits that
    overflow are dropped, and the carry reaches the integer part when
    none is left.  [written] holds the digits in reverse. *)
Fixpoint roundUp (written : list Z) : list Z * bool :=
  match written with
  | [] => ([], true)
  | d :: ds => if d + 1 <? 36 then ((d + 1) :: ds, false) else roundUp ds
  end.

(** The loop that writes the fraction digits:
    [do { fraction *= 36; delta *= 36; digit = (int)fraction;
          fraction -= digit; (round and stop, or go on) }
     while (fraction >= delta)].
    The result is the digits in reverse and whether a carry went into the
    integer part. *)
Fixpoint fractionDigits (fuel : nat) (fraction delta : number) (written : list Z)
  : list Z * bool :=
  match fuel with
  | O => (written, false)
  | S fuel' =>
      let fraction1 := mul fraction (of_Z 36) in
      let delta1 := mul delta (of_Z 36) in
      let digit := toInt fraction1 in
      let written1 := digit :: written in
      let fraction2 := sub fraction1 (of_Z digit) in
      if (ltb half fraction2 || (SFeqb fraction2 half && Z.odd digit))
         && ltb (of_Z 1) (add fraction2 delta1)
      then roundUp written1
      else if leb delta1 fraction2
           then fractionDigits fuel' fraction2 delta1 written1
           else (written1, false)
  end.

(** [while (Double(integer).Exponent() > 0) { integer /= 36; (write 0) }]:
    the digits that the 53 bits do not reach are zeros. *)
Fixpoint leadingZeros (fuel : nat) (integer : number) (zeros : list Z)
  : number * list Z :=
  match fuel with
  | O => (integer, zeros)
  | S fuel' =>
      if 0 <? exponent integer
      then leadingZeros fuel' (div integer (of_Z 36)) (0 :: zeros)
      else (integer, zeros)
  end.

(** [do { remainder = fmod(integer, 36); (write (int)remainder);
          integer = (integer - remainder) / 36; } while (integer > 0)];
    the digits come out most significant first. *)
Fixpoint integerDigits (fuel : nat) (integer : number) (acc : list Z) : list Z :=
  match fuel with
  | O => acc
  | S fuel' =>
      let remainder := fmod36 integer in
      let acc1 := toInt remainder :: acc in
      let integer1 := div (sub integer remainder) (of_Z 36) in
      if ltb (of_Z 0) integer1 then integerDigits fuel' integer1 acc1 else acc1
  end.

(** The room of the engine's buffer on either side of the point; the
    loops are given as many rounds.  The loop of the fraction ends within
    215 of them, whatever the number ([fractionDigits_ends]). *)
Definition bufferSize : nat := 1100.

(** [x.toString(36)] *)
Definition toString36 (x : number) : string :=
  match x with
  | S754_nan => "NaN"
  | S754_infinity s => if s then "-Infinity" else "Infinity"
  | S754_zero _ => "0"
  | S754_finite s _ _ =>
      let value := SFabs x in
      let integer := floor value in
      let fraction := sub value integer in
      let delta0 := mul half (sub (nextDouble value) value) in
      let delta := if ltb minValue delta0 then delta0 else minValue in
      let '(written, carry) :=
        if leb delta fraction
        then fractionDigits bufferSize fraction delta []
        else ([], false) in
      let integer1 := if carry then add integer (of_Z 1) else integer in
      let '(integer2, zeros) := leadingZeros bufferSize integer1 [] in
      let digits := integerDigits bufferSize integer2 zeros in
      let sign := if s then "-" else EmptyString in
      let intStr := string_of_list_ascii (map digitChar digits) in
      let fracStr :=
        match rev written with
        | [] => EmptyString
        | ds => String "."%char (string_of_list_ascii (map digitChar ds))
        end in
      (sign ++ intStr ++ fracStr)%string
  end.

(** [s.substring(start, end_)] for [start <= end_]. *)
Definition substring (start end_ : nat) (s : string) : string :=
  String.substring start (end_ - start) s.

End Js.

(** ** Values that reach a handler from the request *)

Module Req.

(** A value of [req.query] as the query-string parser leaves it. *)
#[warnings="-register-all"]
Inductive qvalue :=
| QString (s : string)
| QArray (l : list qvalue)
| QObject (fields : list (string * qvalue)).

(** ToString: an array joins the strings of its elements with commas. *)
Fixpoint ToString (v : qvalue) : string :=
  match v with
  | QString s => s
  | QArray l => String.concat "," (map ToString l)
  | QObject _ => "[object Object]"
  end.

(** [+v] for a destructured query value with a numeric default, as in
    [const { page = 1 } = req.query; ... +page]. *)
Definition unaryPlus (v : option qvalue) (dflt : Z) : Js.number :=
  match v with
  | None => Js.of_Z dflt
  | Some q => Js.Number (ToString q)
  end.

(** Truthiness of a query value: only undefined and the empty string fail
    [if (v)]. *)
Definition truthy (v : option qvalue) : bool :=
  match v with
  | None | Some (QString EmptyString) => false
  | Some _ => true
  end.

(** A JSON value of the request body. *)
#[warnings="-register-all"]
Inductive json :=
| JNull
| JBool (b : bool)
| JNumber (n : Js.number)
| JString (s : string)
| JArray (l : list json)
| JObject (fields : list (string * json)).

End Req.

(** ** The tables *)

(** [departments] and [subjects] follow the schema file.  Time stamps are
    integers, and a nullable column is an option. *)

Record Department := {
  dept_id : Z;
  dept_code : string;
  dept_name : string;
  dept_description : option string;
  dept_createdAt : Z;
  dept_updatedAt : Z
}.

Record Subject := {
  subj_id : Z;
  subj_departmentId : Z;
  subj_code : string;
  subj_name : string;
  subj_description : option string;
  subj_createdAt : Z;
  subj_updatedAt : Z
}.

(** Modelled from the spec: the [user] table, whose schema file is not
    among the sources.  The columns are the ones the routes select; the id
    is text, as [eq(user.id, req.params.id)] compares it with a string, and
    the role is the stored string the routes compare with "teacher" and
    "student". *)
Record User := {
  user_id : string;
  user_name : string;
  user_email : string;
  user_emailVerified : bool;
  user_image : option string;
  user_role : string;
  user_imageCldPubId : option string;
  user_createdAt : Z;
  user_updatedAt : Z
}.

(** Modelled from the spec: the [classes] table, whose schema file is not
    among the sources.  The columns are the ones POST /classes writes and
    the listings read; a class belongs to one subject and one teacher. *)
Record Class := {
  class_id : Z;
  class_subjectId : Z;
  class_teacherId : string;
  class_inviteCode : string;
  class_name : string;
  class_bannerCldPubId : option string;
  class_bannerUrl : option string;
  class_capacity : Z;
  class_description : option string;
  class_schedules : list string;
  class_status : string;
  class_createdAt : Z;
  class_updatedAt : Z
}.

(** Modelled from the spec: the [enrollments] table, whose schema file is
    not among the sources: the join rows between a student and a class. *)
Record Enrollment := {
  enr_studentId : string;
  enr_classId : Z
}.

(** The store behind [db]: the rows of the five tables. *)
Record Db := {
  user : list User;
  departments : list Department;
  subjects : list Subject;
  classes : list Class;
  enrollments : list Enrollment
}.

#[export] Instance Department_eq_dec : EqDecision Department.
Proof. solve_decision. Defined.
#[export] Instance Subject_eq_dec : EqDecision Subject.
Proof. solve_decision. Defined.
#[export] Instance User_eq_dec : EqDecision User.
Proof. solve_decision. Defined.

(** ** Outcomes of an awaited call *)

(** What a [try] block can catch here: a rejected query, or the [Error]
    constructor that [throw Error] throws. *)
Inductive thrown := QueryError | ErrorConstructor.

Inductive Result (A : Type) :=
| Ok (a : A)
| Throw (e : thrown).
Arguments Ok {A} a.
Arguments Throw {A} e.

#[export] Instance Result_ret : MRet Result := λ A a, Ok a.
#[export] Instance Result_bind : MBind Result :=
  λ A B f m, match m with Ok a => f a | Throw e => Throw e end.

(** ** The query builder *)

Module Orm.

Section Combinators.
Context {A B : Type}.

(** Modelled from the spec: the query builder of [db], which the routes
    import from [../db/index.js].  A query is the list of rows it selects:
    left joins, a WHERE filter that a NULL never passes, [count],
    [count(distinct ...)], GROUP BY over every selected column, ORDER BY
    descending, and the LIMIT and OFFSET window.

    [.leftJoin(table, on)]: a row without a partner keeps NULL columns. *)
Definition leftJoin (on : A → B → bool)
    (rows : list A) (table : list B) : list (A * option B) :=
  a ← rows;
  match filter (λ b, on a b) table with
  | [] => [(a, None)]
  | bs => (λ b, (a, Some b)) <$> bs
  end.

(** [.where(cond)] *)
Definition where_ (cond : A → bool) (rows : list A) : list A :=
  filter (λ a, cond a) rows.

(** The row count of [count] over every row. *)
Definition count (rows : list A) : nat := length rows.

(** [count(distinct key)] *)
Definition countDistinct `{EqDecision B} (key : A → B) (rows : list A) : nat :=
  length (remove_dups (key <$> rows)).

(** [.select(cols)...groupBy(cols)] with every selected column in the
    grouping: one row per distinct selection. *)
Definition groupBy `{EqDecision B} (select : A → B) (rows : list A) : list B :=
  remove_dups (select <$> rows).

(** [x] may stand before [y] under [desc(col)]. *)
Definition descending (col : A → Z) : relation A := λ x y, col y ≤ col x.

#[export] Instance descending_dec (col : A → Z) : RelDecision (descending col).
Proof. intros x y. unfold descending. apply _. Defined.

(** [.orderBy(desc(col))]; the order among rows with equal keys is the one
    the sort leaves, which the store does not promise: what is stated of
    the rows of one query holds for any such order, and what compares the
    rows of two queries is stated for keys that differ. *)
Definition orderByDesc (col : A → Z) (rows : list A) : list A :=
  merge_sort (descending col) rows.
End Combinators.

(** A number bound to the parameter of a LIMIT or OFFSET clause: the
    statement is rejected unless it is an integer a bigint holds. *)
Definition bigintParam (n : Js.number) : Result nat :=
  match Js.to_Z n with
  | Some z => if (0 <=? z) && (z <? 2 ^ 63) then Ok (Z.to_nat z) else Throw QueryError
  | None => Throw QueryError
  end.

(** A number bound to a parameter compared with an integer column. *)
Definition integerParam (n : Js.number) : Result Z :=
  match Js.to_Z n with
  | Some z =>
      if (- 2 ^ 31 <=? z) && (z <? 2 ^ 31) then Ok z else Throw QueryError
  | None => Throw QueryError
  end.

(** [.limit(limit).offset(offset)]: the builder writes the LIMIT clause
    for a number that is [>= 0] and the OFFSET clause for a truthy
    offset, and the store skips before it takes. *)
Definition limitOffset {A} (limit offset : Js.number) (rows : list A)
  : Result (list A) :=
  skipped ← (if Js.truthy offset
             then k ← Orm.bigintParam offset; Ok (drop k rows)
             else Ok rows);
  if Js.geb limit (Js.of_Z 0)
  then n ← Orm.bigintParam limit; Ok (take n skipped)
  else Ok skipped.

End Orm.

(** ** Responses *)

Record Pagination := {
  page : Js.number;
  limit : Js.number;
  total : Js.number;
  totalPages : Js.number
}.

Inductive Body (A : Type) :=
| ErrorBody (error : string)
| DataBody (data : A)
| ListBody (data : list A) (pagination : Pagination).
Arguments ErrorBody {A} error.
Arguments DataBody {A} data.
Arguments ListBody {A} data pagination.

Record Response (A : Type) := { status : Z; body : Body A }.
Arguments status {A} r.
Arguments body {A} r.

(** [res.status(code).json(b)] *)
Definition res_json {A} (code : Z) (b : Body A) : Response A :=
  {| status := code; body := b |}.

(** [try { ... } catch (error) { res.status(500).json({ error: msg }) }] *)
Definition tryCatch {A} (block : Result (Response A)) (msg : string) : Response A :=
  match block with
  | Ok r => r
  | Throw _ => res_json 500 (ErrorBody msg)
  end.

(** [countResult[0]?.count ?? 0] *)
Definition firstCount (countResult : list nat) : Js.number :=
  match countResult with
  | c :: _ => Js.of_Z (Z.of_nat c)
  | [] => Js.of_Z 0
  end.

(** ** The routes *)

Import Req.

(** The three lines every list route runs on the destructured
    [{ page = 1, limit = 10 }]:
    [currentPage = Math.max(1, +page)], [limitPerPage = Math.max(1, +limit)]
    and [offset = (currentPage - 1) * limitPerPage]. *)
Definition currentPageOf (page : option qvalue) : Js.number :=
  Js.Math_max (Js.of_Z 1) (unaryPlus page 1).
Definition limitPerPageOf (limit : option qvalue) : Js.number :=
  Js.Math_max (Js.of_Z 1) (unaryPlus limit 10).
Definition offsetOf (currentPage limitPerPage : Js.number) : Js.number :=
  Js.mul (Js.sub currentPage (Js.of_Z 1)) limitPerPage.

(** The pagination object of the branch that answers a user who is neither
    teacher nor student. *)
Definition emptyPage : Pagination :=
  {| page := Js.of_Z 1; limit := Js.of_Z 0; total := Js.of_Z 0; totalPages := Js.of_Z 0 |}.

(** [`%${v}%`] *)
Definition contains (v : option qvalue) : string :=
  "%" ++ match v with Some q => ToString q | None => "undefined" end ++ "%".

(** [and(...conds)] and [or(c1, c2)] over boolean conditions. *)
Definition and_ {A} (conds : list (A → bool)) : A → bool :=
  λ a, forallb (λ c, c a) conds.
Definition or_ {A} (c1 c2 : A → bool) : A → bool := λ a, c1 a || c2 a.

(** [.where(whereClause)], where an undefined clause keeps every row. *)
Definition whereOpt {A} (clause : option (A → bool)) (rows : list A) : list A :=
  match clause with
  | Some c => Orm.where_ c rows
  | None => rows
  end.

(** [filterConditions.length > 0 ? and(...filterConditions) : undefined] *)
Definition whereClauseOf {A} (filterConditions : list (A → bool)) : option (A → bool) :=
  match filterConditions with
  | [] => None
  | _ => Some (and_ filterConditions)
  end.

Section Routes.

(** The store's case-insensitive pattern match [ilike(column, pattern)]. *)
Variable ilike : string → string → bool.

(** [ilike] on a column of a left-joined table: NULL matches nothing. *)
Definition ilikeNullable (col : option string) (pattern : string) : bool :=
  match col with
  | Some v => ilike v pattern
  | None => false
  end.

(** *** users.ts: the users router *)

(** GET /users *)
Definition users_get (db : Db) (query : gmap string qvalue) : Response User :=
  tryCatch (
    let search := query !! "search" in
    let role := query !! "role" in
    let page := query !! "page" in
    let limit := query !! "limit" in
    let currentPage := currentPageOf page in
    let limitPerPage := limitPerPageOf limit in
    let offset := offsetOf currentPage limitPerPage in
    let filterConditions : list (User → bool) :=
      ((if truthy search
        then [or_ (λ u, ilike (user_name u) (contains search))
                  (λ u, ilike (user_email u) (contains search))]
        else [])
       ++
       (if truthy role
        then [λ u, match role with
                   | Some (QString r) => bool_decide (user_role u = r)
                   | _ => false
                   end]
        else []))%list in
    let whereClause := whereClauseOf filterConditions in
    let countResult := [Orm.count (whereOpt whereClause (user db))] in
    let totalCount := firstCount countResult in
    usersList ←
      Orm.limitOffset limitPerPage offset
        (Orm.orderByDesc user_createdAt (whereOpt whereClause (user db)));
    Ok (res_json 200 (ListBody usersList
          {| page := currentPage;
             limit := limitPerPage;
             total := totalCount;
             totalPages := Js.Math_ceil (Js.div totalCount limitPerPage) |})))
    "Failed to fetch users".

(** GET /users/:id *)
Definition users_get_id (db : Db) (id : string) : Response User :=
  tryCatch (
    let userId := id in
    match Orm.where_ (λ u, bool_decide (user_id u = userId)) (user db) with
    | [] => Ok (res_json 404 (ErrorBody "User not found"))
    | userRecord :: _ => Ok (res_json 200 (DataBody userRecord))
    end)
    "Failed to fetch user".

(** The join chains of GET /users/:id/departments. *)
Definition departmentsOfTeacher (db : Db) (userId : string)
  : list (Department * option Subject * option Class) :=
  Orm.where_ (λ r, bool_decide (class_teacherId <$> r.2 = Some userId))
    (Orm.leftJoin (λ (r : Department * option Subject) c,
                     bool_decide (Some (class_subjectId c) = subj_id <$> r.2))
      (Orm.leftJoin (λ d s, bool_decide (subj_departmentId s = dept_id d))
         (departments db) (subjects db))
      (classes db)).

Definition departmentsOfStudent (db : Db) (userId : string)
  : list (Department * option Subject * option Class * option Enrollment) :=
  Orm.where_ (λ r, bool_decide (enr_studentId <$> r.2 = Some userId))
    (Orm.leftJoin (λ (r : Department * option Subject * option Class) e,
                     bool_decide (Some (enr_classId e) = class_id <$> r.2))
      (Orm.leftJoin (λ (r : Department * option Subject) c,
                       bool_decide (Some (class_subjectId c) = subj_id <$> r.2))
        (Orm.leftJoin (λ d s, bool_decide (subj_departmentId s = dept_id d))
           (departments db) (subjects db))
        (classes db))
      (enrollments db)).

(** GET /users/:id/departments *)
Definition users_get_id_departments (db : Db) (id : string)
    (query : gmap string qvalue) : Response Department :=
  tryCatch (
    let userId := id in
    let page := query !! "page" in
    let limit := query !! "limit" in
    match (λ u, (user_id u, user_role u)) <$>
            Orm.where_ (λ u, bool_decide (user_id u = userId)) (user db) with
    | [] => Ok (res_json 404 (ErrorBody "User not found"))
    | userRecord :: _ =>
        if bool_decide (userRecord.2 ≠ "teacher")
           && bool_decide (userRecord.2 ≠ "student")
        then Ok (res_json 200 (ListBody [] emptyPage))
        else
          let currentPage := currentPageOf page in
          let limitPerPage := limitPerPageOf limit in
          let offset := offsetOf currentPage limitPerPage in
          let countResult :=
            if bool_decide (userRecord.2 = "teacher")
            then [Orm.countDistinct (λ r, dept_id r.1.1)
                    (departmentsOfTeacher db userId)]
            else [Orm.countDistinct (λ r, dept_id r.1.1.1)
                    (departmentsOfStudent db userId)] in
          let totalCount := firstCount countResult in
          departmentsList ←
            (if bool_decide (userRecord.2 = "teacher")
             then Orm.limitOffset limitPerPage offset
                    (Orm.orderByDesc dept_createdAt
                       (Orm.groupBy (λ r, r.1.1) (departmentsOfTeacher db userId)))
             else Orm.limitOffset limitPerPage offset
                    (Orm.orderByDesc dept_createdAt
                       (Orm.groupBy (λ r, r.1.1.1) (departmentsOfStudent db userId))));
          Ok (res_json 200 (ListBody departmentsList
                {| page := currentPage;
                   limit := limitPerPage;
                   total := totalCount;
                   totalPages := Js.Math_ceil (Js.div totalCount limitPerPage) |}))
    end)
    "Failed to fetch user departments".

(** The join chains of GET /users/:id/subjects: the count query joins
    [subjects] to [classes] (and [enrollments]); the data query joins
    [departments] first. *)
Definition subjectsOfTeacherCount (db : Db) (userId : string)
  : list (Subject * option Class) :=
  Orm.where_ (λ r, bool_decide (class_teacherId <$> r.2 = Some userId))
    (Orm.leftJoin (λ s c, bool_decide (class_subjectId c = subj_id s))
       (subjects db) (classes db)).

Definition subjectsOfStudentCount (db : Db) (userId : string)
  : list (Subject * option Class * option Enrollment) :=
  Orm.where_ (λ r, bool_decide (enr_studentId <$> r.2 = Some userId))
    (Orm.leftJoin (λ (r : Subject * option Class) e,
                     bool_decide (Some (enr_classId e) = class_id <$> r.2))
      (Orm.leftJoin (λ s c, bool_decide (class_subjectId c = subj_id s))
         (subjects db) (classes db))
      (enrollments db)).

Definition subjectsOfTeacher (db : Db) (userId : string)
  : list (Subject * option Department * option Class) :=
  Orm.where_ (λ r, bool_decide (class_teacherId <$> r.2 = Some userId))
    (Orm.leftJoin (λ (r : Subject * option Department) c,
                     bool_decide (class_subjectId c = subj_id r.1))
      (Orm.leftJoin (λ s d, bool_decide (subj_departmentId s = dept_id d))
         (subjects db) (departments db))
      (classes db)).

Definition subjectsOfStudent (db : Db) (userId : string)
  : list (Subject * option Department * option Class * option Enrollment) :=
  Orm.where_ (λ r, bool_decide (enr_studentId <$> r.2 = Some userId))
    (Orm.leftJoin (λ (r : Subject * option Department * option Class) e,
                     bool_decide (Some (enr_classId e) = class_id <$> r.2))
      (Orm.leftJoin (λ (r : Subject * option Department) c,
                       bool_decide (class_subjectId c = subj_id r.1))
        (Orm.leftJoin (λ s d, bool_decide (subj_departmentId s = dept_id d))
           (subjects db) (departments db))
        (classes db))
      (enrollments db)).

(** GET /users/:id/subjects *)
Definition users_get_id_subjects (db : Db) (id : string)
    (query : gmap string qvalue) : Response (Subject * option Department) :=
  tryCatch (
    let userId := id in
    let page := query !! "page" in
    let limit := query !! "limit" in
    match (λ u, (user_id u, user_role u)) <$>
            Orm.where_ (λ u, bool_decide (user_id u = userId)) (user db) with
    | [] => Ok (res_json 404 (ErrorBody "User not found"))
    | userRecord :: _ =>
        if bool_decide (userRecord.2 ≠ "teacher")
           && bool_decide (userRecord.2 ≠ "student")
        then Ok (res_json 200 (ListBody [] emptyPage))
        else
          let currentPage := currentPageOf page in
          let limitPerPage := limitPerPageOf limit in
          let offset := offsetOf currentPage limitPerPage in
          let countResult :=
            if bool_decide (userRecord.2 = "teacher")
            then [Orm.countDistinct (λ r, subj_id r.1)
                    (subjectsOfTeacherCount db userId)]
            else [Orm.countDistinct (λ r, subj_id r.1.1)
                    (subjectsOfStudentCount db userId)] in
          let totalCount := firstCount countResult in
          subjectsList ←
            (if bool_decide (userRecord.2 = "teacher")
             then Orm.limitOffset limitPerPage offset
                    (Orm.orderByDesc (λ r, subj_createdAt r.1)
                       (Orm.groupBy (λ r, r.1) (subjectsOfTeacher db userId)))
             else Orm.limitOffset limitPerPage offset
                    (Orm.orderByDesc (λ r, subj_createdAt r.1)
                       (Orm.groupBy (λ r, r.1.1) (subjectsOfStudent db userId))));
          Ok (res_json 200 (ListBody subjectsList
                {| page := currentPage;
                   limit := limitPerPage;
                   total := totalCount;
                   totalPages := Js.Math_ceil (Js.div totalCount limitPerPage) |}))
    end)
    "Failed to fetch user subjects".

(** *** users.ts: the subjects router *)

(** What [.returning({ id })] yields for an inserted row. *)
Record Created := { created_id : Z }.

(** The object handed to [db.insert(subjects).values(...)]; a field the
    body lacks is undefined. *)
Record SubjectValues := {
  sv_departmentId : option json;
  sv_name : option json;
  sv_code : option json;
  sv_description : option json
}.

(** The awaited [db.insert(subjects).values(v).returning({ id })]: the rows
    it resolves to, or the rejection, and the store it leaves. *)
Variable insertSubject : Db → SubjectValues → Result (list Created) * Db.

(** GET /subjects *)
Definition subjects_get (db : Db) (query : gmap string qvalue)
  : Response (Subject * option Department) :=
  tryCatch (
    let search := query !! "search" in
    let department := query !! "department" in
    let page := query !! "page" in
    let limit := query !! "limit" in
    let currentPage := currentPageOf page in
    let limitPerPage := limitPerPageOf limit in
    let offset := offsetOf currentPage limitPerPage in
    let filterConditions : list (Subject * option Department → bool) :=
      ((if truthy search
        then [or_ (λ r, ilike (subj_name r.1) (contains search))
                  (λ r, ilike (subj_code r.1) (contains search))]
        else [])
       ++
       (if truthy department
        then [λ r, ilikeNullable (dept_name <$> r.2) (contains department)]
        else []))%list in
    let whereClause := whereClauseOf filterConditions in
    let joined :=
      Orm.leftJoin (λ s d, bool_decide (subj_departmentId s = dept_id d))
        (subjects db) (departments db) in
    let countResult := [Orm.count (whereOpt whereClause joined)] in
    let totalCount := firstCount countResult in
    subjectsList ←
      Orm.limitOffset limitPerPage offset
        (Orm.orderByDesc (λ r, subj_createdAt r.1) (whereOpt whereClause joined));
    Ok (res_json 200 (ListBody subjectsList
          {| page := currentPage;
             limit := limitPerPage;
             total := totalCount;
             totalPages := Js.Math_ceil (Js.div totalCount limitPerPage) |})))
    "Failed to fetch subjects".

(** The values object POST /subjects builds from the body. *)
Definition subjectValues (body : gmap string json) : SubjectValues :=
  let departmentId := body !! "departmentId" in
  let name := body !! "name" in
  let code := body !! "code" in
  let description := body !! "description" in
  {| sv_departmentId := departmentId;
     sv_name := name;
     sv_code := code;
     sv_description := description |}.

(** POST /subjects *)
Definition subjects_post (db : Db) (body : gmap string json)
  : Response Created * Db :=
  let '(inserted, db') := insertSubject db (subjectValues body) in
  (tryCatch (
     rows ← inserted;
     match rows with
     | [] => Throw ErrorConstructor
     | createdSubject :: _ => Ok (res_json 201 (DataBody createdSubject))
     end)
     "Failed to create subject",
   db').

(** GET /subjects/:id *)
Definition subjects_get_id (db : Db) (id : string)
  : Response (Subject * option Department * Js.number) :=
  tryCatch (
    let subjectId := Js.Number id in
    if negb (Js.isFinite subjectId)
    then Ok (res_json 400 (ErrorBody "Invalid subject id"))
    else
      sid ← Orm.integerParam subjectId;
      match Orm.where_ (λ r, bool_decide (subj_id r.1 = sid))
              (Orm.leftJoin (λ s d, bool_decide (subj_departmentId s = dept_id d))
                 (subjects db) (departments db)) with
      | [] => Ok (res_json 404 (ErrorBody "Subject not found"))
      | subject :: _ =>
          let classesCount :=
            [Orm.count (Orm.where_ (λ c, bool_decide (class_subjectId c = sid))
                          (classes db))] in
          Ok (res_json 200 (DataBody (subject, firstCount classesCount)))
      end)
    "Failed to fetch subject details".

(** GET /subjects/:id/classes *)
Definition subjects_get_id_classes (db : Db) (id : string)
    (query : gmap string qvalue) : Response (Class * option User) :=
  tryCatch (
    let subjectId := Js.Number id in
    let page := query !! "page" in
    let limit := query !! "limit" in
    if negb (Js.isFinite subjectId)
    then Ok (res_json 400 (ErrorBody "Invalid subject id"))
    else
      let currentPage := currentPageOf page in
      let limitPerPage := limitPerPageOf limit in
      let offset := offsetOf currentPage limitPerPage in
      sid ← Orm.integerParam subjectId;
      let countResult :=
        [Orm.count (Orm.where_ (λ c, bool_decide (class_subjectId c = sid))
                      (classes db))] in
      let totalCount := firstCount countResult in
      classesList ←
        Orm.limitOffset limitPerPage offset
          (Orm.orderByDesc (λ r, class_createdAt r.1)
             (Orm.where_ (λ r, bool_decide (class_subjectId r.1 = sid))
                (Orm.leftJoin (λ c u, bool_decide (class_teacherId c = user_id u))
                   (classes db) (user db))));
      Ok (res_json 200 (ListBody classesList
            {| page := currentPage;
               limit := limitPerPage;
               total := totalCount;
               totalPages := Js.Math_ceil (Js.div totalCount limitPerPage) |})))
    "Failed to fetch subject classes".

(** The join chains of GET /subjects/:id/users. *)
Definition teachersOfSubject (db : Db) (role : string) (subjectId : Z)
  : list (User * option Class) :=
  Orm.where_ (λ r, bool_decide (user_role r.1 = role)
                   && bool_decide (class_subjectId <$> r.2 = Some subjectId))
    (Orm.leftJoin (λ u c, bool_decide (user_id u = class_teacherId c))
       (user db) (classes db)).

Definition studentsOfSubject (db : Db) (role : string) (subjectId : Z)
  : list (User * option Enrollment * option Class) :=
  Orm.where_ (λ r, bool_decide (user_role r.1.1 = role)
                   && bool_decide (class_subjectId <$> r.2 = Some subjectId))
    (Orm.leftJoin (λ (r : User * option Enrollment) c,
                     bool_decide (enr_classId <$> r.2 = Some (class_id c)))
      (Orm.leftJoin (λ u e, bool_decide (user_id u = enr_studentId e))
         (user db) (enrollments db))
      (classes db)).

(** GET /subjects/:id/users *)
Definition subjects_get_id_users (db : Db) (id : string)
    (query : gmap string qvalue) : Response User :=
  tryCatch (
    let subjectId := Js.Number id in
    let page := query !! "page" in
    let limit := query !! "limit" in
    if negb (Js.isFinite subjectId)
    then Ok (res_json 400 (ErrorBody "Invalid subject id"))
    else
      match query !! "role" with
      | Some (QString role) =>
          if bool_decide (role ≠ "teacher") && bool_decide (role ≠ "student")
          then Ok (res_json 400 (ErrorBody "Invalid role"))
          else
            let currentPage := currentPageOf page in
            let limitPerPage := limitPerPageOf limit in
            let offset := offsetOf currentPage limitPerPage in
            sid ← Orm.integerParam subjectId;
            let countResult :=
              if bool_decide (role = "teacher")
              then [Orm.countDistinct (λ r, user_id r.1)
                      (teachersOfSubject db role sid)]
              else [Orm.countDistinct (λ r, user_id r.1.1)
                      (studentsOfSubject db role sid)] in
            let totalCount := firstCount countResult in
            usersList ←
              (if bool_decide (role = "teacher")
               then Orm.limitOffset limitPerPage offset
                      (Orm.orderByDesc user_createdAt
                         (Orm.groupBy (λ r, r.1) (teachersOfSubject db role sid)))
               else Orm.limitOffset limitPerPage offset
                      (Orm.orderByDesc user_createdAt
                         (Orm.groupBy (λ r, r.1.1) (studentsOfSubject db role sid))));
            Ok (res_json 200 (ListBody usersList
                  {| page := currentPage;
                     limit := limitPerPage;
                     total := totalCount;
                     totalPages := Js.Math_ceil (Js.div totalCount limitPerPage) |}))
      | _ => Ok (res_json 400 (ErrorBody "Invalid role"))
      end)
    "Failed to fetch subject users".

(** *** classes.ts: the classes router *)

(** The object handed to [db.insert(classes).values(...)]. *)
Record ClassValues := {
  cv_subjectId : option json;
  cv_inviteCode : string;
  cv_name : option json;
  cv_teacherId : option json;
  cv_bannerCldPubId : option json;
  cv_bannerUrl : option json;
  cv_capacity : option json;
  cv_description : option json;
  cv_schedules : list json;
  cv_status : option json
}.

(** The awaited [db.insert(classes).values(v).returning({ id })]. *)
Variable insertClass : Db → ClassValues → Result (list Created) * Db.

(** GET /classes *)
Definition classes_get (db : Db) (query : gmap string qvalue)
  : Response (Class * option Subject * option User) :=
  tryCatch (
    let search := query !! "search" in
    let subject := query !! "subject" in
    let teacher := query !! "teacher" in
    let page := query !! "page" in
    let limit := query !! "limit" in
    let currentPage := currentPageOf page in
    let limitPerPage := limitPerPageOf limit in
    let offset := offsetOf currentPage limitPerPage in
    let filterConditions : list (Class * option Subject * option User → bool) :=
      ((if truthy search
        then [or_ (λ r, ilike (class_name r.1.1) (contains search))
                  (λ r, ilike (class_inviteCode r.1.1) (contains search))]
        else [])
       ++
       (if truthy subject
        then [λ r, ilikeNullable (subj_name <$> r.1.2) (contains subject)]
        else [])
       ++
       (if truthy teacher
        then [λ r, ilikeNullable (user_name <$> r.2) (contains teacher)]
        else []))%list in
    let whereClause := whereClauseOf filterConditions in
    let joined :=
      Orm.leftJoin (λ (r : Class * option Subject) u,
                      bool_decide (class_teacherId r.1 = user_id u))
        (Orm.leftJoin (λ c s, bool_decide (class_subjectId c = subj_id s))
           (classes db) (subjects db))
        (user db) in
    let countResult := [Orm.count (whereOpt whereClause joined)] in
    let totalCount := firstCount countResult in
    classesList ←
      Orm.limitOffset limitPerPage offset
        (Orm.orderByDesc (λ r, class_createdAt r.1.1) (whereOpt whereClause joined));
    Ok (res_json 200 (ListBody classesList
          {| page := currentPage;
             limit := limitPerPage;
             total := totalCount;
             totalPages := Js.Math_ceil (Js.div totalCount limitPerPage) |})))
    "Failed to fetch classes".

(** [Math.random().toString(36).substring(2, 9)] for the value [random] that
    [Math.random()] returns. *)
Definition inviteCodeOf (random : Js.number) : string :=
  Js.substring 2 9 (Js.toString36 random).

(** The values object POST /classes builds from the body. *)
Definition classValues (body : gmap string json) (random : Js.number) : ClassValues :=
  let name := body !! "name" in
  let teacherId := body !! "teacherId" in
  let subjectId := body !! "subjectId" in
  let capacity := body !! "capacity" in
  let description := body !! "description" in
  let status := body !! "status" in
  let bannerUrl := body !! "bannerUrl" in
  let bannerCldPubId := body !! "bannerCldPubId" in
  {| cv_subjectId := subjectId;
     cv_inviteCode := inviteCodeOf random;
     cv_name := name;
     cv_teacherId := teacherId;
     cv_bannerCldPubId := bannerCldPubId;
     cv_bannerUrl := bannerUrl;
     cv_capacity := capacity;
     cv_description := description;
     cv_schedules := [];
     cv_status := status |}.

(** POST /classes *)
Definition classes_post (db : Db) (random : Js.number) (body : gmap string json)
  : Response Created * Db :=
  let '(inserted, db') := insertClass db (classValues body random) in
  (tryCatch (
     rows ← inserted;
     match rows with
     | [] => Throw ErrorConstructor
     | createdClass :: _ => Ok (res_json 201 (DataBody createdClass))
     end)
     "Failed to create class",
   db').

(** GET /classes/:id *)
Definition classes_get_id (db : Db) (id : string)
  : Response (Class * option Subject * option Department * option User) :=
  tryCatch (
    let classId := Js.Number id in
    if negb (Js.isFinite classId)
    then Ok (res_json 400 (ErrorBody "Invalid class id"))
    else
      cid ← Orm.integerParam classId;
      match Orm.where_ (λ r, bool_decide (class_id r.1.1.1 = cid))
              (Orm.leftJoin (λ (r : Class * option Subject * option Department) u,
                               bool_decide (class_teacherId r.1.1 = user_id u))
                 (Orm.leftJoin (λ (r : Class * option Subject) d,
                                  bool_decide (subj_departmentId <$> r.2 = Some (dept_id d)))
                    (Orm.leftJoin (λ c s, bool_decide (class_subjectId c = subj_id s))
                       (classes db) (subjects db))
                    (departments db))
                 (user db)) with
      | [] => Ok (res_json 404 (ErrorBody "Class not found"))
      | classDetails :: _ => Ok (res_json 200 (DataBody classDetails))
      end)
    "Failed to fetch class details".

(** The join chains of GET /classes/:id/users. *)
Definition teachersOfClass (db : Db) (role : string) (classId : Z)
  : list (User * option Class) :=
  Orm.where_ (λ r, bool_decide (user_role r.1 = role)
                   && bool_decide (class_id <$> r.2 = Some classId))
    (Orm.leftJoin (λ u c, bool_decide (user_id u = class_teacherId c))
       (user db) (classes db)).

Definition studentsOfClass (db : Db) (role : string) (classId : Z)
  : list (User * option Enrollment) :=
  Orm.where_ (λ r, bool_decide (user_role r.1 = role)
                   && bool_decide (enr_classId <$> r.2 = Some classId))
    (Orm.leftJoin (λ u e, bool_decide (user_id u = enr_studentId e))
       (user db) (enrollments db)).

(** GET /classes/:id/users *)
Definition classes_get_id_users (db : Db) (id : string)
    (query : gmap string qvalue) : Response User :=
  tryCatch (
    let classId := Js.Number id in
    let page := query !! "page" in
    let limit := query !! "limit" in
    if negb (Js.isFinite classId)
    then Ok (res_json 400 (ErrorBody "Invalid class id"))
    else
      match query !! "role" with
      | Some (QString role) =>
          if bool_decide (role ≠ "teacher") && bool_decide (role ≠ "student")
          then Ok (res_json 400 (ErrorBody "Invalid role"))
          else
            let currentPage := currentPageOf page in
            let limitPerPage := limitPerPageOf limit in
            let offset := offsetOf currentPage limitPerPage in
            cid ← Orm.integerParam classId;
            let countResult :=
              if bool_decide (role = "teacher")
              then [Orm.countDistinct (λ r, user_id r.1) (teachersOfClass db role cid)]
              else [Orm.countDistinct (λ r, user_id r.1) (studentsOfClass db role cid)] in
            let totalCount := firstCount countResult in
            usersList ←
              (if bool_decide (role = "teacher")
               then Orm.limitOffset limitPerPage offset
                      (Orm.orderByDesc user_createdAt
                         (Orm.groupBy (λ r, r.1) (teachersOfClass db role cid)))
               else Orm.limitOffset limitPerPage offset
                      (Orm.orderByDesc user_createdAt
                         (Orm.groupBy (λ r, r.1) (studentsOfClass db role cid))));
            Ok (res_json 200 (ListBody usersList
                  {| page := currentPage;
                     limit := limitPerPage;
                     total := totalCount;
                     totalPages := Js.Math_ceil (Js.div totalCount limitPerPage) |}))
      | _ => Ok (res_json 400 (ErrorBody "Invalid role"))
      end)
    "Failed to fetch class users".

End Routes.

(** ** What the listings are meant to return *)

(** The relations of the data model, read off the tables directly: who
    teaches a class, who is enrolled in it, and what a subject or a
    department has to do with a user through its classes. *)

Definition teaches (userId : string) (c : Class) : bool :=
  bool_decide (class_teacherId c = userId).








(** Users of the role who teach a class that satisfies [p], and users of the
    role who are enrolled in one. *)
Definition teachersWhere (db : Db) (role : string) (p : Class → bool) : list User :=
  filter (λ u, bool_decide (user_role u = role)
               && existsb (λ c, teaches (user_id u) c && p c) (classes db))
    (user db).


(** Users of the role with an enrollment in the class of the given id. *)
Definition studentsEnrolledIn (db : Db) (role : string) (classId : Z) : list User :=
  filter (λ u, bool_decide (user_role u = role)
               && existsb (λ e, bool_decide (enr_studentId e = user_id u)
                                && bool_decide (enr_classId e = classId))
                    (enrollments db))
    (user db).

(** The number of distinct keys among rows. *)
Definition distinct {A K} `{EqDecision K} (key : A → K) (rows : list A) : nat :=
  length (remove_dups (key <$> rows)).

(** The store with no row, and a driver whose insert resolves to no row. *)
Definition emptyDb : Db :=
  {| user := []; departments := []; subjects := []; classes := []; enrollments := [] |}.

Definition noRowSubject : Db → SubjectValues → Result (list Created) * Db :=
  λ db _, (Ok [], db).
Definition noRowClass : Db → ClassValues → Result (list Created) * Db :=
  λ db _, (Ok [], db).

(** Base-36 strings: every character is one of [0-9a-z]. *)
Definition base36 (s : string) : Prop :=
  Forall (λ c, c ∈ Js.digitChars) (list_ascii_of_string s).


(** ** What a role listing answers *)

(** The response lists the [qualifying] rows: its total is the number of
    distinct keys among them, and its data are the page window of a list
    that holds exactly these rows, none of them twice. *)
Definition listsExactly {A K} `{EqDecision K} (key : A → K) (qualifying : list A)
    (data : list A) (pag : Pagination) : Prop :=
  total pag = Js.of_Z (Z.of_nat (distinct key qualifying))
  ∧ ∃ all : list A,
      Orm.limitOffset (limit pag) (offsetOf (page pag) (limit pag)) all = Ok data
      ∧ NoDup all
      ∧ ∀ a, a ∈ all ↔ a ∈ qualifying.

(** ** What a paginated response is *)

(** The envelope of a request with these [page] and [limit] values: the
    page and the limit are the computed ones, the page count is
    [Math.ceil(total / limit)], and the data are the window that
    [.limit(limit).offset((page - 1) * limit)] cuts out of some rows. *)
Definition pagedBy {A} (rawPage rawLimit : option qvalue) (data : list A)
    (pag : Pagination) : Prop :=
  page pag = currentPageOf rawPage
  ∧ limit pag = limitPerPageOf rawLimit
  ∧ totalPages pag = Js.Math_ceil (Js.div (total pag) (limit pag))
  ∧ ∃ rows : list A,
      Orm.limitOffset (limit pag) (offsetOf (page pag) (limit pag)) rows = Ok data.

(** A response that, when it is a list with a limit of at least 1, has the
    envelope of the request. *)
Definition answersPaged {A} (r : Response A) (query : gmap string qvalue) : Prop :=
  ∀ data pag, r = res_json 200 (ListBody data pag) →
    Js.leb (Js.of_Z 1) (limit pag) = true →
    pagedBy (query !! "page") (query !! "limit") data pag.

(** A response that, when it is a list with a limit of at least 1, has
    [totalPages = Math.ceil(total / limit)] and no more items than the
    integer its limit denotes. *)
Definition wellPaged {A} (r : Response A) : Prop :=
  ∀ data pag, r = res_json 200 (ListBody data pag) →
    Js.leb (Js.of_Z 1) (limit pag) = true →
    totalPages pag = Js.Math_ceil (Js.div (total pag) (limit pag))
    ∧ ∃ z, Js.to_Z (limit pag) = Some z ∧ 1 ≤ z ∧ Z.of_nat (length data) ≤ z.

(** ** A sample store *)

(** One department with three subjects of two classes each, all taught by
    the teacher [t1]; the student [s1] is enrolled in both classes of the
    first subject; [a1] is an admin. *)

Definition sampleDepartment (i : Z) : Department :=
  {| dept_id := i; dept_code := "SCI"; dept_name := "Science";
     dept_description := None; dept_createdAt := i; dept_updatedAt := i |}.

Definition sampleSubject (i d : Z) : Subject :=
  {| subj_id := i; subj_departmentId := d; subj_code := "S"; subj_name := "Subject";
     subj_description := None; subj_createdAt := i; subj_updatedAt := i |}.

Definition sampleUser (i role : string) (t : Z) : User :=
  {| user_id := i; user_name := "name"; user_email := "mail";
     user_emailVerified := false; user_image := None; user_role := role;
     user_imageCldPubId := None; user_createdAt := t; user_updatedAt := t |}.

Definition sampleClass (i s : Z) (t : string) : Class :=
  {| class_id := i; class_subjectId := s; class_teacherId := t;
     class_inviteCode := "q18eymx"; class_name := "Class";
     class_bannerCldPubId := None; class_bannerUrl := None; class_capacity := 30;
     class_description := None; class_schedules := []; class_status := "active";
     class_createdAt := i; class_updatedAt := i |}.

Definition sampleDb : Db :=
  {| user := [sampleUser "t1" "teacher" 3; sampleUser "a1" "admin" 2;
              sampleUser "s1" "student" 1];
     departments := [sampleDepartment 1];
     subjects := [sampleSubject 1 1; sampleSubject 2 1; sampleSubject 3 1];
     classes := [sampleClass 1 1 "t1"; sampleClass 2 1 "t1"; sampleClass 3 2 "t1";
                 sampleClass 4 2 "t1"; sampleClass 5 3 "t1"; sampleClass 6 3 "t1"];
     enrollments := [ {| enr_studentId := "s1"; enr_classId := 1 |};
                      {| enr_studentId := "s1"; enr_classId := 2 |} ] |}.

(** A driver whose insert resolves to one row and leaves the store as it is. *)
Definition oneRowClass : Db → ClassValues → Result (list Created) * Db :=
  λ db _, (Ok [ {| created_id := 1 |} ], db).

(** A pattern match that accepts everything. *)
Definition anyMatch : string → string → bool := λ _ _, true.

(** The binary64 value of a positive integer below 2^53, written out. *)
Definition canon (z : Z) : Js.number :=
  S754_finite false (Z.to_pos (z * 2 ^ (53 - Zdigits2 z))) (Zdigits2 z - 53).

(** ** What the subjects listing and the nested listings are held to *)







(** ** What the listings and the parameters are further held to *)

(** The rows of a 200 list response stand newest first by [col]: no row
    stands before a row with a greater [col]. *)
Definition newestFirst {A} (col : A → Z) (r : Response A) : Prop :=
  ∀ data pag, r = res_json 200 (ListBody data pag) →
    ∀ (i j : nat) (x y : A),
      (i < j)%nat → data !! i = Some x → data !! j = Some y → col y ≤ col x.

(** The data of a response, with no rows when it carries no list. *)
Definition dataOf {A} (r : Response A) : list A :=
  match body r with ListBody data _ => data | _ => [] end.




(** A 200 list response counts in integers: its total is a row count, and
    for a total [n] and a limit [l] that are integers its page count is the
    integer [k] for which [k] pages of [l] rows hold [n] rows and [k - 1]
    pages do not. *)
Definition countsPages {A} (r : Response A) : Prop :=
  ∀ data pag, r = res_json 200 (ListBody data pag) →
    (∃ n : nat, total pag = Js.of_Z (Z.of_nat n))
    ∧ ∀ n l : Z,
        total pag = Js.of_Z n → limit pag = Js.of_Z l →
        0 ≤ n < 2 ^ 53 → 1 ≤ l < 2 ^ 53 →
        ∃ k, totalPages pag = Js.of_Z k ∧ (k - 1) * l < n ≤ k * l.

(** A 200 list response that is not cut to a page: the data have as many
    rows as the total says, and limit and page count are NaN. *)
Definition unlimited {A} (r : Response A) : Prop :=
  ∃ data pag, r = res_json 200 (ListBody data pag)
    ∧ total pag = Js.of_Z (Z.of_nat (length data))
    ∧ limit pag = Js.NaN ∧ totalPages pag = Js.NaN.

(** [route] answers [query] as it answers the query without [page], but
    for the [page] of the envelope, which is NaN. *)
Definition asFirstPage {A} (route : gmap string qvalue → Response A)
    (query : gmap string qvalue) : Prop :=
  status (route query) = status (route (delete "page" query))
  ∧ dataOf (route query) = dataOf (route (delete "page" query))
  ∧ ∀ data pag, route query = res_json 200 (ListBody data pag) →
      page pag = Js.NaN
      ∧ ∃ pag', route (delete "page" query) = res_json 200 (ListBody data pag')
          ∧ page pag' = Js.of_Z 1 ∧ limit pag' = limit pag
          ∧ total pag' = total pag ∧ totalPages pag' = totalPages pag.

(** The bytes of a string, as [Number] reads them. *)
Definition codes (s : string) : list Z := map Js.code (list_ascii_of_string s).

(** A driver whose insert is rejected and leaves the store as it is. *)
Definition rejectingSubject : Db → SubjectValues → Result (list Created) * Db :=
  λ db _, (Throw QueryError, db).

(** The envelope of a first page of ten with [n] rows in [pages] pages. *)
Definition samplePage (n pages : Z) : Pagination :=
  {| page := Js.of_Z 1; limit := Js.of_Z 10; total := Js.of_Z n;
     totalPages := Js.of_Z pages |}.

(** ** Rows of the query builder *)

Lemma elem_of_where {A} (cond : A → bool) (rows : list A) (a : A) :
  a ∈ Orm.where_ cond rows ↔ cond a = true ∧ a ∈ rows.
Proof.
  unfold Orm.where_. rewrite list_elem_of_filter, Is_true_true. reflexivity.
Qed.

Lemma where_nil {A} (cond : A → bool) (rows : list A) :
  (∀ a, a ∈ rows → cond a = false) → Orm.where_ cond rows = [].
Proof.
  intros H. destruct (Orm.where_ cond rows) as [|a l] eqn:E; [reflexivity|].
  assert (Ha : a ∈ Orm.where_ cond rows) by (rewrite E; left).
  apply elem_of_where in Ha as [Hc Hin]. rewrite (H a Hin) in Hc. discriminate.
Qed.

Lemma where_head {A} (cond : A → bool) (rows : list A) (a : A) (l : list A) :
  Orm.where_ cond rows = a :: l → cond a = true ∧ a ∈ rows.
Proof.
  intros E. apply elem_of_where. rewrite E. left.
Qed.

Lemma where_cons_of_elem {A} (cond : A → bool) (rows : list A) (a : A) :
  a ∈ rows → cond a = true → ∃ b l, Orm.where_ cond rows = b :: l.
Proof.
  intros Hin Hc. destruct (Orm.where_ cond rows) as [|b l] eqn:E; [|eauto].
  assert (Ha : a ∈ Orm.where_ cond rows) by (apply elem_of_where; auto).
  rewrite E in Ha. inversion Ha.
Qed.

Lemma elem_of_leftJoin {A B} (on : A → B → bool) (rows : list A) (table : list B)
    (a : A) (ob : option B) :
  (a, ob) ∈ Orm.leftJoin on rows table ↔
  a ∈ rows ∧ match ob with
             | Some b => b ∈ table ∧ on a b = true
             | None => ∀ b, b ∈ table → on a b = false
             end.
Proof.
  unfold Orm.leftJoin. rewrite list_elem_of_bind. split.
  - intros (a' & Hin & Ha').
    destruct (filter (λ b, on a' b) table) as [|b0 bs] eqn:E.
    + apply list_elem_of_singleton in Hin. inversion Hin; subst.
      split; [done|]. intros b Hb.
      destruct (on a' b) eqn:Eon; [|done].
      assert (Hf : b ∈ filter (λ b, on a' b) table).
      { apply list_elem_of_filter. split; [by rewrite Eon | done]. }
      rewrite E in Hf. inversion Hf.
    + apply list_elem_of_fmap in Hin as (b & Heq & Hb). inversion Heq; subst.
      split; [done|]. rewrite <- E in Hb.
      apply list_elem_of_filter in Hb as [Hon Hb]. split; [done|].
      by apply Is_true_true.
  - intros [Ha Hob]. exists a. split; [|done].
    destruct ob as [b|].
    + destruct Hob as [Hb Hon].
      assert (Hf : b ∈ filter (λ b, on a b) table).
      { apply list_elem_of_filter. split; [by apply Is_true_true | done]. }
      destruct (filter (λ b, on a b) table) as [|b0 bs] eqn:E; [inversion Hf|].
      apply list_elem_of_fmap. eauto.
    + destruct (filter (λ b, on a b) table) as [|b0 bs] eqn:E; [left|].
      assert (Hf : b0 ∈ filter (λ b, on a b) table) by (rewrite E; left).
      apply list_elem_of_filter in Hf as [Hon Hb].
      apply Is_true_true in Hon. rewrite (Hob b0 Hb) in Hon. discriminate.
Qed.

Lemma elem_of_leftJoin_l {A B} (on : A → B → bool) (rows : list A) (table : list B)
    (r : A * option B) :
  r ∈ Orm.leftJoin on rows table → r.1 ∈ rows.
Proof. destruct r as [a ob]. rewrite elem_of_leftJoin. by intros [? _]. Qed.

Lemma existsb_elem_of {A} (f : A → bool) (l : list A) :
  existsb f l = true ↔ ∃ x, x ∈ l ∧ f x = true.
Proof.
  rewrite existsb_exists. split; intros (x & Hx & Hf); exists x;
    (split; [by apply list_elem_of_In | done]).
Qed.

Lemma elem_of_filter_bool {A} (f : A → bool) (l : list A) (x : A) :
  x ∈ filter (λ a, f a) l ↔ x ∈ l ∧ f x = true.
Proof. rewrite list_elem_of_filter, Is_true_true. tauto. Qed.

Lemma leftJoin_total {A B} (on : A → B → bool) (rows : list A) (table : list B) (a : A) :
  a ∈ rows → ∃ ob, (a, ob) ∈ Orm.leftJoin on rows table.
Proof.
  intros Ha. destruct (existsb (on a) table) eqn:E.
  - apply existsb_elem_of in E as (b & Hb & Hon). exists (Some b).
    apply elem_of_leftJoin. auto.
  - exists None. apply elem_of_leftJoin. split; [done|]. intros b Hb.
    destruct (on a b) eqn:Eon; [|done].
    assert (existsb (on a) table = true) by (apply existsb_elem_of; eauto).
    congruence.
Qed.

(** What [.limit().offset()] returns is a part of the rows, in their order. *)
Lemma limitOffset_sublist {A} (lim off : Js.number) (rows data : list A) :
  Orm.limitOffset lim off rows = Ok data → data `sublist_of` rows.
Proof.
  unfold Orm.limitOffset, mbind, Result_bind. intros E.
  assert (Hs : ∀ skipped,
    (if Js.truthy off
     then match Orm.bigintParam off with
          | Ok k => Ok (drop k rows) | Throw e => Throw e end
     else Ok rows) = Ok skipped → skipped `sublist_of` rows).
  { intros skipped Hsk. destruct (Js.truthy off).
    - destruct (Orm.bigintParam off); [|discriminate].
      injection Hsk as <-. apply sublist_drop.
    - by injection Hsk as <-. }
  destruct (if Js.truthy off then _ else _) as [skipped|]; [|discriminate].
  specialize (Hs skipped eq_refl).
  destruct (Js.geb lim (Js.of_Z 0)).
  - destruct (Orm.bigintParam lim); [|discriminate]. injection E as <-.
    etrans; [apply sublist_take | exact Hs].
  - by injection E as <-.
Qed.



(** ** The join chains against the relations of the data model *)

(** Taking rows apart, and putting them together. *)
Ltac unjoin :=
  repeat match goal with
    | |- _ => progress (simpl in *)
    | H : _ ∈ Orm.where_ _ _ |- _ => apply elem_of_where in H as [? ?]
    | H : (_, _) ∈ Orm.leftJoin _ _ _ |- _ => apply elem_of_leftJoin in H as [? ?]
    | H : _ ∧ _ |- _ => destruct H as [? ?]
    | H : ∃ _, _ |- _ => destruct H as [? ?]
    | H : _ && _ = true |- _ => apply andb_true_iff in H as [? ?]
    | H : bool_decide _ = true |- _ => apply bool_decide_eq_true in H
    | H : existsb _ _ = true |- _ => apply existsb_elem_of in H as (? & ? & ?)
    | H : _ <$> ?o = Some _ |- _ => destruct o; simpl in H; [|discriminate H]
    | H : Some _ = _ <$> ?o |- _ => destruct o; simpl in H; [|discriminate H]
    | H : Some _ = Some _ |- _ => injection H as H
    end.

Ltac rejoin :=
  repeat match goal with
    | |- _ ∈ Orm.where_ _ _ => apply elem_of_where; split
    | |- (_, _) ∈ Orm.leftJoin _ _ _ => apply elem_of_leftJoin; split
    | |- _ ∧ _ => split
    | |- _ && _ = true => apply andb_true_iff; split
    | |- bool_decide _ = true => apply bool_decide_eq_true
    | |- _ => progress simpl
    | |- _ => assumption
    | |- _ => congruence
    end.


Ltac witness_exists :=
  repeat (apply existsb_elem_of; eexists; split; [eassumption|]; rejoin).








Lemma teachersOfClass_rows (db : Db) (role : string) (classId : Z) (u : User) :
  u ∈ (λ r, r.1) <$> teachersOfClass db role classId
  ↔ u ∈ teachersWhere db role (λ c, bool_decide (class_id c = classId)).
Proof.
  unfold teachersWhere. rewrite list_elem_of_fmap, elem_of_filter_bool.
  unfold teachersOfClass, teaches. split.
  - intros ([u' oc] & -> & Hr). unjoin. split; [done|]. rejoin. witness_exists.
  - intros [Hu Hex]. unjoin.
    match goal with Hc : ?c ∈ classes db |- _ => exists (u, Some c) end.
    split; [reflexivity|]. rejoin.
Qed.

Lemma studentsOfClass_rows (db : Db) (role : string) (classId : Z) (u : User) :
  u ∈ (λ r, r.1) <$> studentsOfClass db role classId
  ↔ u ∈ studentsEnrolledIn db role classId.
Proof.
  unfold studentsEnrolledIn. rewrite list_elem_of_fmap, elem_of_filter_bool.
  unfold studentsOfClass. split.
  - intros ([u' oe] & -> & Hr). unjoin. split; [done|]. rejoin. witness_exists.
  - intros [Hu Hex]. unjoin.
    match goal with He : ?e ∈ enrollments db |- _ => exists (u, Some e) end.
    split; [reflexivity|]. rejoin.
Qed.


(** ** Counting distinct keys *)

Section Distinct.
Context {K : Type} `{EqDecision K}.

Lemma remove_dups_same_length (l1 l2 : list K) :
  (∀ k, k ∈ l1 ↔ k ∈ l2) → length (remove_dups l1) = length (remove_dups l2).
Proof.
  intros H. apply Permutation_length, NoDup_Permutation; try apply NoDup_remove_dups.
  intros k. rewrite !elem_of_remove_dups. apply H.
Qed.


Lemma countDistinct_rows {A B} (proj : A → B) (key : B → K) (rows : list A) (l : list B) :
  (∀ b, b ∈ proj <$> rows ↔ b ∈ l) →
  Orm.countDistinct (λ r, key (proj r)) rows = distinct key l.
Proof.
  intros H. unfold Orm.countDistinct, distinct. apply remove_dups_same_length.
  intros k. rewrite !list_elem_of_fmap. split.
  - intros (r & -> & Hr).
    assert (Hp : proj r ∈ l) by (apply H, list_elem_of_fmap; eauto). eauto.
  - intros (b & -> & Hb). apply H, list_elem_of_fmap in Hb as (r & -> & Hr). eauto.
Qed.

End Distinct.

Lemma NoDup_fmap_inj_on {A K} (key : A → K) (l : list A) (x y : A) :
  NoDup (key <$> l) → x ∈ l → y ∈ l → key x = key y → x = y.
Proof.
  induction l as [|a l IH]; intros Hnd Hx Hy Hk; [inversion Hx|].
  simpl in Hnd. apply NoDup_cons in Hnd as [Ha Hnd].
  apply elem_of_cons in Hx as [->|Hx]; apply elem_of_cons in Hy as [->|Hy].
  - reflexivity.
  - exfalso. apply Ha. rewrite Hk. apply list_elem_of_fmap. eauto.
  - exfalso. apply Ha. rewrite <- Hk. apply list_elem_of_fmap. eauto.
  - by apply IH.
Qed.

(** The grouped, ordered rows of a data query that selects the root row. *)
Lemma grouped_rows {A B} `{EqDecision B} (proj : A → B) (col : B → Z)
    (rows : list A) (qualifying : list B) :
  (∀ b, b ∈ proj <$> rows ↔ b ∈ qualifying) →
  NoDup (Orm.orderByDesc col (Orm.groupBy proj rows))
  ∧ ∀ b, b ∈ Orm.orderByDesc col (Orm.groupBy proj rows) ↔ b ∈ qualifying.
Proof.
  intros Hrows.
  assert (Hperm : Orm.orderByDesc col (Orm.groupBy proj rows)
                  ≡ₚ remove_dups (proj <$> rows)).
  { unfold Orm.orderByDesc, Orm.groupBy. apply merge_sort_Permutation. }
  split.
  - rewrite Hperm. apply NoDup_remove_dups.
  - intros b. rewrite Hperm, elem_of_remove_dups. apply Hrows.
Qed.




(** ** Numbers: comparison with 1 *)

Lemma one_is : Js.of_Z 1 = S754_finite false 4503599627370496 (-52).
Proof. reflexivity. Qed.

Lemma compare_finite (s1 s2 : bool) (m1 m2 : positive) (e1 e2 : Z) :
  SFcompare (S754_finite s1 m1 e1) (S754_finite s2 m2 e2)
  = Some match s1, s2 with
         | true, false => Lt
         | false, true => Gt
         | false, false =>
             match e1 ?= e2 with Lt => Lt | Gt => Gt | Eq => (m1 ?= m2)%positive end
         | true, true =>
             match e1 ?= e2 with Lt => Gt | Gt => Lt | Eq => CompOpp (m1 ?= m2)%positive end
         end.
Proof. reflexivity. Qed.

(** How a number compares with 1. *)
Lemma compare_one (x : Js.number) :
  SFcompare (Js.of_Z 1) x =
  match x with
  | S754_nan => None
  | S754_infinity s => Some (if s then Gt else Lt)
  | S754_zero _ => Some Gt
  | S754_finite true _ _ => Some Gt
  | S754_finite false m e =>
      Some match -52 ?= e with
           | Lt => Lt | Gt => Gt
           | Eq => (4503599627370496 ?= m)%positive
           end
  end.
Proof.
  rewrite one_is. destruct x as [s|s| |s m e].
  - reflexivity.
  - destruct s; reflexivity.
  - reflexivity.
  - rewrite compare_finite. destruct s; reflexivity.
Qed.

Lemma compare_with_one (x : Js.number) :
  SFcompare x (Js.of_Z 1) =
  match x with
  | S754_nan => None
  | S754_infinity s => Some (if s then Lt else Gt)
  | S754_zero _ => Some Lt
  | S754_finite true _ _ => Some Lt
  | S754_finite false m e =>
      Some match e ?= -52 with
           | Lt => Lt | Gt => Gt
           | Eq => (m ?= 4503599627370496)%positive
           end
  end.
Proof.
  rewrite one_is. destruct x as [s|s| |s m e].
  - reflexivity.
  - destruct s; reflexivity.
  - reflexivity.
  - rewrite compare_finite. destruct s; reflexivity.
Qed.

Lemma max_one_cases (x : Js.number) :
  Js.isNaN x = false →
  Js.leb (Js.of_Z 1) (Js.Math_max (Js.of_Z 1) x) = true
  ∧ (Js.Math_max (Js.of_Z 1) x = x ∨ Js.Math_max (Js.of_Z 1) x = Js.of_Z 1).
Proof.
  intros Hx. unfold Js.Math_max, Js.leb, SFleb.
  destruct (SFcompare (Js.of_Z 1) x) as [[ | | ]|] eqn:E.
  - split; [reflexivity | right; reflexivity].
  - rewrite E. split; [reflexivity | left; reflexivity].
  - split; [reflexivity | right; reflexivity].
  - rewrite compare_one in E. destruct x as [s|s| |s m e].
    + discriminate E.
    + discriminate E.
    + discriminate Hx.
    + destruct s; discriminate E.
Qed.

Lemma max_one_below (x : Js.number) :
  Js.leb x (Js.of_Z 1) = true → Js.Math_max (Js.of_Z 1) x = Js.of_Z 1.
Proof.
  unfold Js.leb, SFleb, Js.Math_max. rewrite compare_with_one, compare_one.
  destruct x as [s|s| |s m e]; try discriminate; try reflexivity.
  - destruct s; [reflexivity | discriminate].
  - destruct s; [reflexivity|].
    rewrite (Z.compare_antisym e (-52)), (Pos.compare_antisym m 4503599627370496).
    destruct (Z.compare_spec e (-52)) as [He|He|He]; try discriminate;
      [|reflexivity].
    subst e.
    destruct (Pos.compare_spec m 4503599627370496) as [Hm|Hm|Hm]; try discriminate;
      [|reflexivity].
    subst m. intros _. unfold CompOpp. rewrite one_is. reflexivity.
Qed.

Lemma max_one_integer (x : Js.number) :
  Js.isInteger x = true → Js.isInteger (Js.Math_max (Js.of_Z 1) x) = true.
Proof.
  intros Hx. unfold Js.Math_max.
  destruct (SFcompare (Js.of_Z 1) x) as [[ | | ]|] eqn:E; try reflexivity; try exact Hx.
  rewrite compare_one in E. destruct x as [s|s| |s m e].
  - discriminate E.
  - discriminate E.
  - discriminate Hx.
  - destruct s; discriminate E.
Qed.

Lemma leb_one_to_Z (x : Js.number) (z : Z) :
  Js.leb (Js.of_Z 1) x = true → Js.to_Z x = Some z → 1 ≤ z.
Proof.
  unfold Js.leb, SFleb. rewrite compare_one. unfold Js.to_Z.
  destruct x as [s|s| |s m e]; try discriminate.
  destruct s; [discriminate|]. unfold cond_Zopp.
  destruct (Z.compare_spec (-52) e) as [He|He|He].
  - subst e.
    destruct (Pos.compare_spec 4503599627370496 m) as [Hm|Hm|Hm];
      try discriminate; intros _;
      (destruct (0 <=? -52) eqn:E0; [discriminate E0|]);
      (destruct (Z.pos m mod 2 ^ (- -52) =? 0); [|discriminate]);
      intros [= <-]; apply Z.div_le_lower_bound; lia.
  - intros _. destruct (0 <=? e) eqn:E0.
    + intros [= <-]. apply Z.leb_le in E0.
      assert (0 < 2 ^ e) by (apply Z.pow_pos_nonneg; lia). nia.
    + apply Z.leb_gt in E0.
      destruct (Z.pos m mod 2 ^ (- e) =? 0) eqn:Em; [|discriminate].
      intros [= <-]. apply Z.eqb_eq in Em.
      assert (Hp : 0 < 2 ^ (- e)) by (apply Z.pow_pos_nonneg; lia).
      pose proof (Z.div_mod (Z.pos m) (2 ^ (- e)) ltac:(lia)) as Hdm.
      rewrite Em in Hdm. nia.
  - discriminate.
Qed.

Lemma leb_one_geb_zero (x : Js.number) :
  Js.leb (Js.of_Z 1) x = true → Js.geb x (Js.of_Z 0) = true.
Proof.
  unfold Js.leb, Js.geb, SFleb. rewrite compare_one.
  destruct x as [s|s| |s m e]; try discriminate.
  - destruct s; [discriminate | reflexivity].
  - destruct s; [discriminate | reflexivity].
Qed.

Lemma one_le_not_zero : Js.leb (Js.of_Z 1) (Js.of_Z 0) = false.
Proof. reflexivity. Qed.


(** ** Numbers: integers below 2^53 are exact *)

Lemma digits2_pos_bound (m : positive) : Z.pos m < 2 ^ Z.pos (digits2_pos m).
Proof.
  induction m as [m IH|m IH|]; simpl digits2_pos.
  - rewrite Pos2Z.inj_succ, Z.pow_succ_r by lia. lia.
  - rewrite Pos2Z.inj_succ, Z.pow_succ_r by lia. lia.
  - reflexivity.
Qed.

(** *** Integers below 2^53 are exact *)
Lemma digits2_pos_lower (m : positive) : 2 ^ (Z.pos (digits2_pos m) - 1) ≤ Z.pos m.
Proof.
  induction m as [m IH|m IH|]; simpl digits2_pos.
  - rewrite Pos2Z.inj_succ. replace (Z.succ (Z.pos (digits2_pos m)) - 1)
      with (Z.succ (Z.pos (digits2_pos m) - 1)) by lia.
    rewrite Z.pow_succ_r by lia. lia.
  - rewrite Pos2Z.inj_succ. replace (Z.succ (Z.pos (digits2_pos m)) - 1)
      with (Z.succ (Z.pos (digits2_pos m) - 1)) by lia.
    rewrite Z.pow_succ_r by lia. lia.
  - reflexivity.
Qed.

Lemma Zdigits2_bounds (z : Z) :
  0 < z → 1 ≤ Zdigits2 z ∧ 2 ^ (Zdigits2 z - 1) ≤ z < 2 ^ Zdigits2 z.
Proof.
  destruct z as [|p|p]; try lia. intros _. simpl.
  pose proof (digits2_pos_lower p). pose proof (digits2_pos_bound p). lia.
Qed.

Lemma Zdigits2_unique (z d : Z) :
  2 ^ (d - 1) ≤ z < 2 ^ d → 1 ≤ d → Zdigits2 z = d.
Proof.
  intros Hz Hd.
  assert (H0 : 0 < z).
  { assert (0 < 2 ^ (d - 1)) by (apply Z.pow_pos_nonneg; lia). lia. }
  destruct (Zdigits2_bounds z H0) as [H1 H2].
  destruct (Z.lt_trichotomy (Zdigits2 z) d) as [Hlt|[Heq|Hgt]]; [|exact Heq|]; exfalso.
  - assert (2 ^ Zdigits2 z ≤ 2 ^ (d - 1)) by (apply Z.pow_le_mono_r; lia). lia.
  - assert (2 ^ d ≤ 2 ^ (Zdigits2 z - 1)) by (apply Z.pow_le_mono_r; lia). lia.
Qed.

Lemma Zdigits2_shift (z k : Z) :
  0 < z → 0 ≤ k → Zdigits2 (z * 2 ^ k) = Zdigits2 z + k.
Proof.
  intros Hz Hk. destruct (Zdigits2_bounds z Hz) as [H1 [H2 H3]].
  assert (0 < 2 ^ k) by (apply Z.pow_pos_nonneg; lia).
  apply Zdigits2_unique; [|lia]. split.
  - replace (Zdigits2 z + k - 1) with (Zdigits2 z - 1 + k) by lia.
    rewrite Z.pow_add_r by lia. nia.
  - rewrite Z.pow_add_r by lia. nia.
Qed.

Lemma shr_1_even (k : Z) :
  shr_1 {| shr_m := 2 * k; shr_r := false; shr_s := false |}
  = {| shr_m := k; shr_r := false; shr_s := false |}.
Proof. destruct k; reflexivity. Qed.

Lemma iter_shr_exact (n : positive) (m : Z) :
  SpecFloat.iter_pos shr_1 n {| shr_m := m * 2 ^ Z.pos n; shr_r := false; shr_s := false |}
  = {| shr_m := m; shr_r := false; shr_s := false |}.
Proof.
  revert m. induction n as [n IH|n IH|]; intros m; cbn [SpecFloat.iter_pos].
  - replace (m * 2 ^ Z.pos n~1) with (2 * (m * 2 ^ Z.pos n * 2 ^ Z.pos n)).
    + rewrite shr_1_even, IH, IH. reflexivity.
    + assert (E : 2 ^ Z.pos n~1 = 2 * (2 ^ Z.pos n * 2 ^ Z.pos n)).
      { rewrite <- Z.pow_add_r, <- Z.pow_succ_r by lia. f_equal. lia. }
      rewrite E. ring.
  - replace (m * 2 ^ Z.pos n~0) with (m * 2 ^ Z.pos n * 2 ^ Z.pos n).
    + rewrite IH, IH. reflexivity.
    + assert (E : 2 ^ Z.pos n~0 = 2 ^ Z.pos n * 2 ^ Z.pos n).
      { rewrite <- Z.pow_add_r by lia. f_equal. lia. }
      rewrite E. ring.
  - replace (m * 2 ^ 1) with (2 * m) by lia. apply shr_1_even.
Qed.

Lemma fexp_small (d : Z) : 1 ≤ d → fexp Js.prec Js.emax d = d - 53.
Proof. intros Hd. unfold fexp, emin, Js.prec, Js.emax. lia. Qed.

Lemma round_aux_exact (s : bool) (z t M E : Z) :
  0 < z → Zdigits2 z ≤ 53 → 53 - Zdigits2 z ≤ t →
  M = z * 2 ^ t → E = - t →
  binary_round_aux Js.prec Js.emax s M E loc_Exact
  = S754_finite s (Z.to_pos (z * 2 ^ (53 - Zdigits2 z))) (Zdigits2 z - 53).
Proof.
  intros Hz Hd Ht -> ->.
  destruct (Zdigits2_bounds z Hz) as [Hd1 _].
  set (d := Zdigits2 z) in *.
  assert (Hstep : shr_fexp Js.prec Js.emax (z * 2 ^ t) (- t) loc_Exact
          = ({| shr_m := z * 2 ^ (53 - d); shr_r := false; shr_s := false |}, d - 53)).
  { unfold shr_fexp. rewrite Zdigits2_shift by lia. fold d.
    replace (d + t + - t) with d by lia. rewrite fexp_small by lia.
    unfold shr, shr_record_of_loc.
    destruct (d - 53 - - t) as [|n|n] eqn:En; try lia.
    - replace t with (53 - d) by lia. f_equal. lia.
    - replace (z * 2 ^ t) with (z * 2 ^ (53 - d) * 2 ^ Z.pos n).
      + rewrite iter_shr_exact. f_equal. lia.
      + rewrite <- Z.mul_assoc, <- Z.pow_add_r by lia. do 2 f_equal. lia. }
  unfold binary_round_aux. rewrite Hstep. simpl shr_m. simpl loc_of_shr_record.
  unfold round_nearest_even.
  assert (Hstep2 : shr_fexp Js.prec Js.emax (z * 2 ^ (53 - d)) (d - 53) loc_Exact
          = ({| shr_m := z * 2 ^ (53 - d); shr_r := false; shr_s := false |}, d - 53)).
  { unfold shr_fexp. rewrite Zdigits2_shift by lia. fold d.
    replace (d + (53 - d) + (d - 53)) with d by lia. rewrite fexp_small by lia.
    rewrite Z.sub_diag. reflexivity. }
  rewrite Hstep2. simpl shr_m.
  assert (Hpos : 0 < z * 2 ^ (53 - d)).
  { assert (0 < 2 ^ (53 - d)) by (apply Z.pow_pos_nonneg; lia). nia. }
  destruct (z * 2 ^ (53 - d)) as [|p|p] eqn:Ep; try lia.
  rewrite (proj2 (Z.leb_le (d - 53) (Js.emax - Js.prec)))
    by (unfold Js.emax, Js.prec; lia).
  reflexivity.
Qed.

Lemma Zdigits2_le (z k : Z) : 0 < z → z < 2 ^ k → 0 ≤ k → Zdigits2 z ≤ k.
Proof.
  intros Hz Hk H0. destruct (Zdigits2_bounds z Hz) as [H1 [H2 _]].
  destruct (Z_le_gt_dec (Zdigits2 z) k) as [|Hgt]; [assumption|]. exfalso.
  assert (2 ^ k ≤ 2 ^ (Zdigits2 z - 1)) by (apply Z.pow_le_mono_r; lia). lia.
Qed.

Lemma iter_xO (p k : positive) : Z.pos (Pos.iter xO p k) = Z.pos p * 2 ^ Z.pos k.
Proof.
  induction k as [|k IH] using Pos.peano_ind.
  - simpl Pos.iter. rewrite Pos2Z.inj_xO. change (2 ^ 1) with 2. ring.
  - rewrite Pos.iter_succ, Pos2Z.inj_xO, IH, Pos2Z.inj_succ, Z.pow_succ_r by lia. ring.
Qed.

Lemma shl_align_value (m : positive) (e e' : Z) :
  e' ≤ e → Z.pos (shl_align m e e').1 = Z.pos m * 2 ^ (e - e') ∧ (shl_align m e e').2 = e'.
Proof.
  intros He. unfold shl_align.
  destruct (e' - e) as [|k|k] eqn:Ek; try lia; simpl.
  - replace (e - e') with 0 by lia. split; lia.
  - rewrite iter_xO. replace (e - e') with (Z.pos k) by lia. split; reflexivity.
Qed.

Lemma shl_align_keep (m : positive) (e e' : Z) : e ≤ e' → shl_align m e e' = (m, e).
Proof.
  intros He. unfold shl_align. destruct (e' - e) as [|k|k] eqn:Ek; try lia; reflexivity.
Qed.

Lemma binary_round_exact (s : bool) (m : positive) (z t : Z) :
  0 < z → Zdigits2 z ≤ 53 → 0 ≤ t → Z.pos m = z * 2 ^ t →
  binary_round Js.prec Js.emax s m (- t)
  = S754_finite s (Z.to_pos (z * 2 ^ (53 - Zdigits2 z))) (Zdigits2 z - 53).
Proof.
  intros Hz Hd Ht Hm. destruct (Zdigits2_bounds z Hz) as [Hd1 _].
  unfold binary_round.
  change (Z.pos (digits2_pos m)) with (Zdigits2 (Z.pos m)).
  rewrite Hm, Zdigits2_shift by lia.
  replace (Zdigits2 z + t + - t) with (Zdigits2 z) by lia.
  rewrite fexp_small by lia.
  destruct (Z_le_gt_dec (- t) (Zdigits2 z - 53)) as [Hle|Hgt].
  - rewrite shl_align_keep by lia.
    apply round_aux_exact with (t := t); try lia.
  - destruct (shl_align_value m (- t) (Zdigits2 z - 53) ltac:(lia)) as [Hv He].
    destruct (shl_align m (- t) (Zdigits2 z - 53)) as [mz ez]. simpl in Hv, He.
    subst ez.
    apply round_aux_exact with (t := 53 - Zdigits2 z); try lia.
    rewrite Hv, Hm, <- Z.mul_assoc, <- Z.pow_add_r by lia. do 2 f_equal. lia.
Qed.

Lemma of_Z_canon (z : Z) : 0 < z < 2 ^ 53 → Js.of_Z z = canon z.
Proof.
  intros [Hz Hlt]. unfold Js.of_Z, binary_normalize, canon.
  destruct z as [|p|p]; try lia.
  apply (binary_round_exact false p (Z.pos p) 0); try lia.
  apply Zdigits2_le; lia.
Qed.

Lemma to_Z_canon (z : Z) : 0 < z < 2 ^ 53 → Js.to_Z (canon z) = Some z.
Proof.
  intros [Hz Hlt]. destruct (Zdigits2_bounds z Hz) as [Hd1 _].
  pose proof (Zdigits2_le z 53 Hz Hlt ltac:(lia)) as Hd.
  unfold canon, Js.to_Z.
  assert (Hp : 0 < 2 ^ (53 - Zdigits2 z)) by (apply Z.pow_pos_nonneg; lia).
  rewrite Z2Pos.id by nia.
  destruct (0 <=? Zdigits2 z - 53) eqn:E0.
  - apply Z.leb_le in E0. replace (Zdigits2 z) with 53 by lia. simpl. f_equal. lia.
  - replace (- (Zdigits2 z - 53)) with (53 - Zdigits2 z) by lia.
    rewrite Z.mod_mul, Z.div_mul by lia. reflexivity.
Qed.

Lemma to_Z_of_Z (z : Z) : 0 ≤ z < 2 ^ 53 → Js.to_Z (Js.of_Z z) = Some z.
Proof.
  intros [Hz Hlt]. destruct (Z.eq_dec z 0) as [->|Hnz]; [reflexivity|].
  rewrite of_Z_canon by lia. apply to_Z_canon. lia.
Qed.

Lemma mul_of_Z (a b : Z) :
  0 ≤ a → 0 ≤ b → a * b < 2 ^ 53 → a < 2 ^ 53 → b < 2 ^ 53 →
  Js.mul (Js.of_Z a) (Js.of_Z b) = Js.of_Z (a * b).
Proof.
  intros Ha Hb Hab Ha53 Hb53.
  destruct (Z.eq_dec a 0) as [->|Hna].
  { destruct (Z.eq_dec b 0) as [->|Hnb]; [reflexivity|].
    rewrite (of_Z_canon b) by lia. reflexivity. }
  destruct (Z.eq_dec b 0) as [->|Hnb].
  { rewrite (of_Z_canon a), Z.mul_0_r by lia. reflexivity. }
  assert (Hpos : 0 < a * b) by nia.
  rewrite (of_Z_canon a), (of_Z_canon b), (of_Z_canon (a * b)) by lia.
  destruct (Zdigits2_bounds a ltac:(lia)) as [Hda1 [Hda2 Hda3]].
  destruct (Zdigits2_bounds b ltac:(lia)) as [Hdb1 [Hdb2 Hdb3]].
  destruct (Zdigits2_bounds (a * b) Hpos) as [Hd1 [Hd2 Hd3]].
  pose proof (Zdigits2_le a 53 ltac:(lia) Ha53 ltac:(lia)) as Hda.
  pose proof (Zdigits2_le b 53 ltac:(lia) Hb53 ltac:(lia)) as Hdb.
  pose proof (Zdigits2_le (a * b) 53 Hpos Hab ltac:(lia)) as Hd.
  assert (Hlow : Zdigits2 a + Zdigits2 b - 1 ≤ Zdigits2 (a * b)).
  { destruct (Z_le_gt_dec (Zdigits2 a + Zdigits2 b - 1) (Zdigits2 (a * b)));
      [assumption | exfalso].
    assert (2 ^ Zdigits2 (a * b) ≤ 2 ^ (Zdigits2 a - 1 + (Zdigits2 b - 1)))
      by (apply Z.pow_le_mono_r; lia).
    rewrite Z.pow_add_r in * by lia. nia. }
  assert (Hpa : 0 < 2 ^ (53 - Zdigits2 a)) by (apply Z.pow_pos_nonneg; lia).
  assert (Hpb : 0 < 2 ^ (53 - Zdigits2 b)) by (apply Z.pow_pos_nonneg; lia).
  unfold Js.mul, canon at 1 2, SFmul. simpl xorb.
  apply round_aux_exact with (t := 106 - Zdigits2 a - Zdigits2 b); try lia.
  rewrite Pos2Z.inj_mul, !Z2Pos.id by nia.
  replace (106 - Zdigits2 a - Zdigits2 b)
    with ((53 - Zdigits2 a) + (53 - Zdigits2 b)) by lia.
  rewrite Z.pow_add_r by lia. ring.
Qed.

Lemma sub_one_of_Z (p : Z) :
  1 ≤ p < 2 ^ 53 → Js.sub (Js.of_Z p) (Js.of_Z 1) = Js.of_Z (p - 1).
Proof.
  intros [Hp Hlt].
  destruct (Zdigits2_bounds p ltac:(lia)) as [Hd1 _].
  pose proof (Zdigits2_le p 53 ltac:(lia) Hlt ltac:(lia)) as Hd.
  assert (Hpp : 0 < 2 ^ (53 - Zdigits2 p)) by (apply Z.pow_pos_nonneg; lia).
  rewrite (of_Z_canon p), (of_Z_canon 1) by lia.
  unfold Js.sub, canon at 1 2, SFsub.
  change (Zdigits2 1) with 1.
  set (mx := Z.to_pos (p * 2 ^ (53 - Zdigits2 p))).
  set (my := Z.to_pos (1 * 2 ^ (53 - 1))).
  replace (Z.min (Zdigits2 p - 53) (1 - 53)) with (-52) by lia.
  destruct (shl_align_value mx (Zdigits2 p - 53) (-52) ltac:(lia)) as [Hx _].
  destruct (shl_align_value my (1 - 53) (-52) ltac:(lia)) as [Hy _].
  unfold cond_Zopp. rewrite Hx, Hy. unfold mx, my. rewrite !Z2Pos.id by nia.
  replace (p * 2 ^ (53 - Zdigits2 p) * 2 ^ (Zdigits2 p - 53 - -52)
           - 1 * 2 ^ (53 - 1) * 2 ^ (1 - 53 - -52))
    with ((p - 1) * 2 ^ 52).
  2:{ rewrite <- !Z.mul_assoc, <- !Z.pow_add_r by lia.
      replace (53 - Zdigits2 p + (Zdigits2 p - 53 - -52)) with 52 by lia.
      replace (53 - 1 + (1 - 53 - -52)) with 52 by lia. ring. }
  destruct (Z.eq_dec p 1) as [->|Hne]; [reflexivity|].
  rewrite (of_Z_canon (p - 1)) by lia.
  unfold binary_normalize, canon.
  assert (Hq : 0 < (p - 1) * 2 ^ 52) by lia.
  destruct ((p - 1) * 2 ^ 52) as [|m|m] eqn:Em; try lia.
  apply (binary_round_exact false m (p - 1) 52); try lia.
  apply Zdigits2_le; lia.
Qed.

(** For an integer page and an integer limit, the offset is the integer
    [(page - 1) * limit]. *)
Lemma offsetOf_integers (p l : Z) :
  1 ≤ p < 2 ^ 53 → 1 ≤ l < 2 ^ 53 → (p - 1) * l < 2 ^ 53 →
  offsetOf (Js.of_Z p) (Js.of_Z l) = Js.of_Z ((p - 1) * l).
Proof.
  intros Hp Hl Hpl. unfold offsetOf.
  rewrite sub_one_of_Z by lia. apply mul_of_Z; lia.
Qed.

Lemma leb_one_of_Z (p : Z) : 1 ≤ p < 2 ^ 53 → Js.leb (Js.of_Z 1) (Js.of_Z p) = true.
Proof.
  intros [Hp Hlt]. destruct (Z.eq_dec p 1) as [->|Hne]; [reflexivity|].
  unfold Js.leb, SFleb. rewrite compare_one, of_Z_canon by lia. unfold canon.
  destruct (Zdigits2_bounds p ltac:(lia)) as [Hd1 [Hd2 Hd3]].
  assert (Hd : 2 ≤ Zdigits2 p).
  { destruct (Z_le_gt_dec 2 (Zdigits2 p)); [assumption | exfalso].
    replace (Zdigits2 p) with 1 in Hd3 by lia. change (2 ^ 1) with 2 in Hd3. lia. }
  rewrite (proj2 (Z.compare_lt_iff (-52) (Zdigits2 p - 53))) by lia. reflexivity.
Qed.

Lemma max_one_of_Z (p : Z) :
  1 ≤ p < 2 ^ 53 → Js.Math_max (Js.of_Z 1) (Js.of_Z p) = Js.of_Z p.
Proof.
  intros Hp. pose proof (leb_one_of_Z p Hp) as Hle.
  unfold Js.leb, SFleb in Hle. unfold Js.Math_max.
  destruct (SFcompare (Js.of_Z 1) (Js.of_Z p)) as [[ | | ]|] eqn:E; try discriminate.
  - destruct (Z.eq_dec p 1) as [->|Hne]; [reflexivity|].
    rewrite compare_one, of_Z_canon in E by lia. unfold canon in E.
    destruct (Zdigits2_bounds p ltac:(lia)) as [Hd1 [Hd2 Hd3]].
    assert (Hd : 2 ≤ Zdigits2 p).
    { destruct (Z_le_gt_dec 2 (Zdigits2 p)); [assumption | exfalso].
      replace (Zdigits2 p) with 1 in Hd3 by lia. change (2 ^ 1) with 2 in Hd3. lia. }
    rewrite (proj2 (Z.compare_lt_iff (-52) (Zdigits2 p - 53))) in E by lia.
    discriminate.
  - reflexivity.
Qed.

Lemma bigintParam_of_Z (z : Z) :
  0 ≤ z < 2 ^ 53 → Orm.bigintParam (Js.of_Z z) = Ok (Z.to_nat z).
Proof.
  intros Hz. unfold Orm.bigintParam. rewrite to_Z_of_Z by lia.
  rewrite (proj2 (Z.leb_le 0 z)) by lia.
  assert (2 ^ 53 < 2 ^ 63) by (apply Z.pow_lt_mono_r; lia).
  rewrite (proj2 (Z.ltb_lt z (2 ^ 63))) by lia. reflexivity.
Qed.

Lemma truthy_of_Z (z : Z) : 0 < z < 2 ^ 53 → Js.truthy (Js.of_Z z) = true.
Proof. intros Hz. rewrite of_Z_canon by lia. reflexivity. Qed.

Lemma geb_zero_of_Z (z : Z) : 0 < z < 2 ^ 53 → Js.geb (Js.of_Z z) (Js.of_Z 0) = true.
Proof. intros Hz. rewrite of_Z_canon by lia. reflexivity. Qed.

(** The window of an integer page [p] of [l] rows: [l] rows from row
    [(p - 1) * l] on. *)
Lemma window_of_integers {A} (p l : Z) (rows : list A) :
  1 ≤ p < 2 ^ 53 → 1 ≤ l < 2 ^ 53 → (p - 1) * l < 2 ^ 53 →
  Orm.limitOffset (Js.of_Z l) (offsetOf (Js.of_Z p) (Js.of_Z l)) rows
  = Ok (take (Z.to_nat l) (drop (Z.to_nat ((p - 1) * l)) rows)).
Proof.
  intros Hp Hl Hpl. rewrite offsetOf_integers by lia. unfold Orm.limitOffset.
  rewrite geb_zero_of_Z by lia.
  destruct (Z.eq_dec ((p - 1) * l) 0) as [E|Hne].
  - rewrite E. simpl. unfold mbind, Result_bind.
    rewrite bigintParam_of_Z by lia. reflexivity.
  - rewrite truthy_of_Z by nia. unfold mbind, Result_bind.
    rewrite !bigintParam_of_Z by nia. reflexivity.
Qed.


(** ** Numbers: rounding to 53 bits *)

Lemma shr_1_spec (m : Z) (r s : bool) :
  0 ≤ m →
  shr_1 {| shr_m := m; shr_r := r; shr_s := s |}
  = {| shr_m := m / 2; shr_r := Z.odd m; shr_s := r || s |}.
Proof.
  intros Hm. rewrite <- Z.div2_div.
  destruct m as [|[p|p|]|p]; try lia; reflexivity.
Qed.

Lemma iter_pos_nat {A} (f : A → A) (n : positive) (x : A) :
  SpecFloat.iter_pos f n x = Nat.iter (Pos.to_nat n) f x.
Proof.
  revert x. induction n as [n IH|n IH|]; intros x; cbn [SpecFloat.iter_pos].
  - rewrite !IH, Pos2Nat.inj_xI. simpl Nat.iter.
    replace (Pos.to_nat n + (Pos.to_nat n + 0))%nat
      with (Pos.to_nat n + Pos.to_nat n)%nat by lia.
    rewrite Nat.iter_add. 
    assert (H : ∀ k y, Nat.iter k f (f y) = f (Nat.iter k f y)).
    { induction k as [|k IHk]; intros y; simpl; [reflexivity | by rewrite IHk]. }
    rewrite !H. reflexivity.
  - rewrite !IH, Pos2Nat.inj_xO.
    replace (2 * Pos.to_nat n)%nat with (Pos.to_nat n + Pos.to_nat n)%nat by lia.
    by rewrite Nat.iter_add.
  - reflexivity.
Qed.

(** Shifting a mantissa right by [k] bits keeps the last bit shifted out
    and whether anything below it was set. *)
Lemma iter_shr (k : nat) (M : Z) :
  0 ≤ M →
  Nat.iter (S k) shr_1 {| shr_m := M; shr_r := false; shr_s := false |}
  = {| shr_m := M / 2 ^ Z.of_nat (S k);
       shr_r := Z.odd (M / 2 ^ Z.of_nat k);
       shr_s := negb (M mod 2 ^ Z.of_nat k =? 0) |}.
Proof.
  intros HM. induction k as [|k IH].
  - change (Nat.iter 1 shr_1 ?x) with (shr_1 x). rewrite shr_1_spec by lia.
    change (2 ^ Z.of_nat 1) with 2. change (2 ^ Z.of_nat 0) with 1.
    rewrite Z.div_1_r, Z.mod_1_r. reflexivity.
  - change (Nat.iter (S (S k)) shr_1 ?x) with (shr_1 (Nat.iter (S k) shr_1 x)).
    rewrite IH.
    assert (Hp : 0 < 2 ^ Z.of_nat k) by (apply Z.pow_pos_nonneg; lia).
    assert (E1 : 2 ^ Z.of_nat (S k) = 2 ^ Z.of_nat k * 2)
      by (rewrite Nat2Z.inj_succ, Z.pow_succ_r by lia; ring).
    assert (E2 : 2 ^ Z.of_nat (S (S k)) = 2 ^ Z.of_nat (S k) * 2)
      by (rewrite (Nat2Z.inj_succ (S k)), Z.pow_succ_r by lia; ring).
    rewrite shr_1_spec by (apply Z.div_pos; lia).
    f_equal.
    + rewrite E2, Z.div_div by lia. reflexivity.
    + rewrite E1. 
      set (q := M / 2 ^ Z.of_nat k). set (r := M mod 2 ^ Z.of_nat k).
      assert (HMq : M = 2 ^ Z.of_nat k * q + r) by (apply Z.div_mod; lia).
      assert (Hr : 0 ≤ r < 2 ^ Z.of_nat k) by (apply Z.mod_pos_bound; lia).
      assert (Hmod : M mod (2 ^ Z.of_nat k * 2) = 2 ^ Z.of_nat k * (q mod 2) + r).
      { rewrite Z.rem_mul_r by lia. fold q r. lia. }
      rewrite Hmod.
      assert (Hq2 : 0 ≤ q mod 2 < 2) by (apply Z.mod_pos_bound; lia).
      rewrite Zodd_mod.
      destruct (Z.eqb_spec (q mod 2) 1) as [E|E].
      * simpl. symmetry. apply negb_true_iff, Z.eqb_neq. nia.
      * assert (E0 : q mod 2 = 0) by lia. rewrite E0. simpl.
        f_equal. f_equal. lia.
Qed.

Lemma round_of_record (m : Z) (r s : bool) :
  round_nearest_even m (loc_of_shr_record {| shr_m := m; shr_r := r; shr_s := s |})
  = m + (if r && (s || Z.odd m) then 1 else 0).
Proof.
  destruct r, s; simpl; try lia.
  rewrite <- Z.negb_even. destruct (Z.even m); simpl; lia.
Qed.

(** Rounding [M / 2^k] to the nearest integer, ties to even: the result is
    within half a unit. *)
Lemma round_shift_bounds (k : nat) (M : Z) :
  0 ≤ M →
  let m0 := M / 2 ^ Z.of_nat (S k) in
  let r := Z.odd (M / 2 ^ Z.of_nat k) in
  let s := negb (M mod 2 ^ Z.of_nat k =? 0) in
  let m' := m0 + (if r && (s || Z.odd m0) then 1 else 0) in
  m0 ≤ m' ≤ m0 + 1
  ∧ m' * 2 ^ Z.of_nat (S k) ≤ M + 2 ^ Z.of_nat k
  ∧ M - 2 ^ Z.of_nat k ≤ m' * 2 ^ Z.of_nat (S k).
Proof.
  intros HM m0 r s m'.
  assert (Hp : 0 < 2 ^ Z.of_nat k) by (apply Z.pow_pos_nonneg; lia).
  assert (E1 : 2 ^ Z.of_nat (S k) = 2 ^ Z.of_nat k * 2)
    by (rewrite Nat2Z.inj_succ, Z.pow_succ_r by lia; ring).
  set (q := M / 2 ^ Z.of_nat k) in *. set (t := M mod 2 ^ Z.of_nat k) in *.
  assert (HMq : M = 2 ^ Z.of_nat k * q + t) by (apply Z.div_mod; lia).
  assert (Ht : 0 ≤ t < 2 ^ Z.of_nat k) by (apply Z.mod_pos_bound; lia).
  assert (Hm0 : m0 = q / 2).
  { unfold m0, q. rewrite E1, Z.div_div by lia. reflexivity. }
  assert (Hq : q = 2 * m0 + q mod 2) by (rewrite Hm0; apply Z.div_mod; lia).
  assert (Hq2 : 0 ≤ q mod 2 < 2) by (apply Z.mod_pos_bound; lia).
  assert (Hr : r = (q mod 2 =? 1)) by (unfold r; apply Zodd_mod).
  rewrite E1. unfold m'. rewrite Hr.
  destruct (Z.eqb_spec (q mod 2) 1) as [E|E].
  - destruct (s || Z.odd m0) eqn:Es; simpl.
    + split; [lia|]. split; nia.
    + apply orb_false_iff in Es as [Es _]. unfold s in Es.
      apply negb_false_iff, Z.eqb_eq in Es.
      split; [lia|]. split; nia.
  - simpl. split; [lia|]. split; nia.
Qed.

Lemma fexp_is (d : Z) : fexp Js.prec Js.emax d = Z.max (d - 53) (-1074).
Proof. reflexivity. Qed.

Lemma shr_fexp_keep (m e : Z) :
  0 ≤ m → fexp Js.prec Js.emax (Zdigits2 m + e) ≤ e →
  shr_fexp Js.prec Js.emax m e loc_Exact
  = ({| shr_m := m; shr_r := false; shr_s := false |}, e).
Proof.
  intros Hm Hf. unfold shr_fexp, shr, shr_record_of_loc.
  destruct (fexp Js.prec Js.emax (Zdigits2 m + e) - e) as [|p|p] eqn:Ep;
    try reflexivity; lia.
Qed.

(** A value [z * 2^t] that fits the format, written with a longer mantissa
    and the exponent [E]: rounding gives the value in the format's own
    exponent. *)
Lemma round_aux_repr (s : bool) (z t M E : Z) :
  0 < z →
  let fe := fexp Js.prec Js.emax (Zdigits2 z + t) in
  fe ≤ t → E ≤ fe → fe ≤ 971 → M = z * 2 ^ (t - E) →
  binary_round_aux Js.prec Js.emax s M E loc_Exact
  = S754_finite s (Z.to_pos (z * 2 ^ (t - fe))) fe.
Proof.
  intros Hz fe Ht HE Hmax ->.
  assert (Hpos : 0 < z * 2 ^ (t - fe)).
  { assert (0 < 2 ^ (t - fe)) by (apply Z.pow_pos_nonneg; lia). nia. }
  assert (Hstep : shr_fexp Js.prec Js.emax (z * 2 ^ (t - E)) E loc_Exact
          = ({| shr_m := z * 2 ^ (t - fe); shr_r := false; shr_s := false |}, fe)).
  { unfold shr_fexp. rewrite Zdigits2_shift by lia.
    replace (Zdigits2 z + (t - E) + E) with (Zdigits2 z + t) by lia. fold fe.
    unfold shr, shr_record_of_loc.
    destruct (fe - E) as [|n|n] eqn:En; try lia.
    - replace E with fe by lia. reflexivity.
    - replace (z * 2 ^ (t - E)) with (z * 2 ^ (t - fe) * 2 ^ Z.pos n).
      + rewrite iter_shr_exact. f_equal. lia.
      + rewrite <- Z.mul_assoc, <- Z.pow_add_r by lia. do 2 f_equal. lia. }
  unfold binary_round_aux. rewrite Hstep. simpl shr_m. simpl loc_of_shr_record.
  unfold round_nearest_even.
  rewrite shr_fexp_keep; [|lia|].
  2:{ rewrite Zdigits2_shift by lia.
      replace (Zdigits2 z + (t - fe) + fe) with (Zdigits2 z + t) by lia. fold fe. lia. }
  simpl shr_m.
  destruct (z * 2 ^ (t - fe)) as [|p|p] eqn:Ep; try lia.
  rewrite (proj2 (Z.leb_le fe (Js.emax - Js.prec))) by (unfold Js.emax, Js.prec; lia).
  reflexivity.
Qed.

Lemma binary_round_repr (s : bool) (m : positive) (z t e : Z) :
  0 < z →
  let fe := fexp Js.prec Js.emax (Zdigits2 z + t) in
  fe ≤ t → e ≤ t → fe ≤ 971 → Z.pos m = z * 2 ^ (t - e) →
  binary_round Js.prec Js.emax s m e
  = S754_finite s (Z.to_pos (z * 2 ^ (t - fe))) fe.
Proof.
  intros Hz fe Ht He Hmax Hm. unfold binary_round.
  change (Z.pos (digits2_pos m)) with (Zdigits2 (Z.pos m)).
  rewrite Hm, Zdigits2_shift by lia.
  replace (Zdigits2 z + (t - e) + e) with (Zdigits2 z + t) by lia. fold fe.
  destruct (Z_le_gt_dec e fe) as [Hle|Hgt].
  - rewrite shl_align_keep by lia.
    apply round_aux_repr with (t := t); lia.
  - destruct (shl_align_value m e fe ltac:(lia)) as [Hv Hx].
    destruct (shl_align m e fe) as [mz ez]. simpl in Hv, Hx. subst ez.
    apply round_aux_repr with (t := t); try lia.
    rewrite Hv, Hm, <- Z.mul_assoc, <- Z.pow_add_r by lia. do 2 f_equal. lia.
Qed.

(** Rounding a mantissa that is too long for the format: the result is the
    mantissa shifted right and rounded to nearest, ties to even, in the
    exponent of the format, or the next power of two; beyond the largest
    exponent it is an infinity. *)
Lemma round_aux_inexact (s : bool) (M E : Z) :
  0 < M →
  let fe := fexp Js.prec Js.emax (Zdigits2 M + E) in
  E < fe →
  ∃ m' : Z,
    M / 2 ^ (fe - E) ≤ m' ≤ M / 2 ^ (fe - E) + 1
    ∧ m' ≤ 2 ^ 53
    ∧ (-1074 < fe → 2 ^ 52 ≤ m')
    ∧ m' * 2 ^ (fe - E) ≤ M + 2 ^ (fe - E - 1)
    ∧ M - 2 ^ (fe - E - 1) ≤ m' * 2 ^ (fe - E)
    ∧ binary_round_aux Js.prec Js.emax s M E loc_Exact
      = match m' with
        | Z.pos p =>
            if m' <? 2 ^ 53
            then if fe <=? 971 then S754_finite s p fe else S754_infinity s
            else if fe + 1 <=? 971
                 then S754_finite s 4503599627370496 (fe + 1)
                 else S754_infinity s
        | _ => S754_zero s
        end.
Proof.
  intros HM fe HE.
  destruct (Zdigits2_bounds M HM) as (Hd1 & Hd2 & Hd3).
  assert (Hfe : -1074 ≤ fe ∧ Zdigits2 M + E - 53 ≤ fe
                ∧ (-1074 < fe → fe = Zdigits2 M + E - 53))
    by (unfold fe; rewrite fexp_is; lia).
  destruct (fe - E) as [|p|p] eqn:Ek; try lia.
  destruct (Pos2Nat.is_succ p) as [k Hk].
  assert (Hkz : Z.pos p = Z.of_nat (S k)) by (rewrite <- Hk; symmetry; apply positive_nat_Z).
  pose proof (round_shift_bounds k M ltac:(lia)) as Hb. cbv zeta in Hb.
  set (m0 := M / 2 ^ Z.of_nat (S k)) in *.
  set (r := Z.odd (M / 2 ^ Z.of_nat k)) in *.
  set (st := negb (M mod 2 ^ Z.of_nat k =? 0)) in *.
  set (m' := m0 + (if r && (st || Z.odd m0) then 1 else 0)) in *.
  destruct Hb as (Hb1 & Hb2 & Hb3).
  assert (Hm0 : 0 ≤ m0 < 2 ^ 53).
  { split; [apply Z.div_pos; [lia | apply Z.pow_pos_nonneg; lia]|].
    apply Z.div_lt_upper_bound; [apply Z.pow_pos_nonneg; lia|].
    rewrite <- Z.pow_add_r by lia.
    assert (2 ^ Zdigits2 M ≤ 2 ^ (Z.of_nat (S k) + 53)) by (apply Z.pow_le_mono_r; lia).
    lia. }
  assert (Hnormal : -1074 < fe → 2 ^ 52 ≤ m0).
  { intros Hn. apply Z.div_le_lower_bound; [apply Z.pow_pos_nonneg; lia|].
    rewrite <- Z.pow_add_r by lia.
    assert (2 ^ (Z.of_nat (S k) + 52) ≤ 2 ^ (Zdigits2 M - 1))
      by (apply Z.pow_le_mono_r; lia).
    lia. }
  exists m'. rewrite Hkz.
  replace (Z.of_nat (S k) - 1) with (Z.of_nat k) by lia.
  split; [exact Hb1|]. split; [lia|]. split; [intros Hn; specialize (Hnormal Hn); lia|].
  split; [exact Hb2|]. split; [exact Hb3|].
  assert (Hstep : shr_fexp Js.prec Js.emax M E loc_Exact
          = ({| shr_m := m0; shr_r := r; shr_s := st |}, fe)).
  { unfold shr_fexp. fold fe. rewrite Ek. unfold shr, shr_record_of_loc.
    rewrite iter_pos_nat, Hk, iter_shr by lia. f_equal. lia. }
  unfold binary_round_aux. rewrite Hstep. cbn [shr_m].
  rewrite round_of_record. fold m'.
  destruct (Z.eq_dec m' (2 ^ 53)) as [E53|Hne].
  - rewrite E53.
    change (shr_fexp Js.prec Js.emax (2 ^ 53) fe loc_Exact)
      with (shr {| shr_m := 2 ^ 53; shr_r := false; shr_s := false |} fe
              (fexp Js.prec Js.emax (54 + fe) - fe)).
    rewrite fexp_is. replace (Z.max (54 + fe - 53) (-1074) - fe) with 1 by lia.
    cbn [shr SpecFloat.iter_pos]. rewrite shr_1_spec by lia.
    change (2 ^ 53 / 2) with 4503599627370496. cbn [shr_m].
    reflexivity.
  - destruct (Z.eq_dec m' 0) as [E0|Hn0].
    + rewrite E0. rewrite shr_fexp_keep; [reflexivity | lia |].
      change (Zdigits2 0) with 0. rewrite fexp_is. lia.
    + assert (Hpos : 0 < m') by lia.
      assert (Hlt : m' < 2 ^ 53) by lia.
      rewrite shr_fexp_keep; [|lia|].
      2:{ pose proof (Zdigits2_le m' 53 Hpos Hlt ltac:(lia)). rewrite fexp_is. lia. }
      cbn [shr_m]. destruct m' as [|q|q] eqn:Em; try lia.
      rewrite (proj2 (Z.ltb_lt (Z.pos q) (2 ^ 53))) by lia.
      reflexivity.
Qed.

(** ** The invite code *)

Lemma digitChar_base36 (d : Z) : 0 ≤ d < 36 → Js.digitChar d ∈ Js.digitChars.
Proof.
  intros Hd. unfold Js.digitChar. apply list_elem_of_In, nth_In.
  change (length Js.digitChars) with 36%nat. lia.
Qed.

(** A genuine binary64 value in [0, 1) with a nonzero value: the sign is
    positive and the value has no integer part. *)
Lemma unit_interval_finite (s : bool) (m : positive) (e : Z) :
  valid_binary Js.prec Js.emax (S754_finite s m e) = true →
  Js.leb (Js.of_Z 0) (S754_finite s m e) = true →
  Js.ltb (S754_finite s m e) (Js.of_Z 1) = true →
  s = false ∧ e < 0 ∧ Z.pos m / 2 ^ (- e) = 0.
Proof.
  intros Hv H0 H1.
  destruct s; [discriminate H0|]. split; [reflexivity|].
  unfold Js.ltb, SFltb in H1. rewrite compare_with_one in H1.
  destruct (Z.compare_spec e (-52)) as [He|He|He]; try discriminate.
  - subst e. split; [lia|].
    destruct (Pos.compare_spec m 4503599627370496) as [Hm|Hm|Hm]; try discriminate.
    apply Z.div_small. change (2 ^ (- -52)) with 4503599627370496.
    split; [apply Pos2Z.is_nonneg | apply Pos2Z.pos_lt_pos; exact Hm].
  - split; [lia|]. apply Z.div_small. split; [lia|]. clear H0 H1.
    unfold valid_binary, bounded, canonical_mantissa, fexp in Hv.
    apply andb_true_iff in Hv as [Hc _]. apply Z.eqb_eq in Hc.
    pose proof (digits2_pos_bound m) as Hm.
    assert (Hd : Z.pos (digits2_pos m) ≤ 53) by (unfold Js.prec in Hc; lia).
    assert (2 ^ Z.pos (digits2_pos m) ≤ 2 ^ 53)
      by (apply Z.pow_le_mono_r; lia).
    assert (2 ^ 53 ≤ 2 ^ (- e)) by (apply Z.pow_le_mono_r; lia).
    clear Hc. lia.
Qed.

Lemma thirtysix_is : Js.of_Z 36 = S754_finite false 5066549580791808 (-47).
Proof. reflexivity. Qed.

Lemma pow_split (a b : Z) : 0 ≤ a → 0 ≤ b → 2 ^ (a + b) = 2 ^ a * 2 ^ b.
Proof. intros. apply Z.pow_add_r; lia. Qed.

(** A fraction below 1 times 36 is below 36, also after rounding. *)
Lemma mul36_bounds (m : positive) (e : Z) :
  Z.pos m < 2 ^ 53 → -1074 ≤ e < 0 → Z.pos m < 2 ^ (- e) →
  ∃ (m1 : positive) (e1 : Z),
    Js.mul (S754_finite false m e) (Js.of_Z 36) = S754_finite false m1 e1
    ∧ Z.pos m1 < 2 ^ 53 ∧ -1074 ≤ e1 < 0 ∧ Z.pos m1 < 36 * 2 ^ (- e1)
    ∧ (-1074 < e1 → 2 ^ 52 ≤ Z.pos m1).
Proof.
  intros Hm He Hunit. rewrite thirtysix_is. unfold Js.mul, SFmul. cbn [xorb].
  set (c := 5066549580791808%positive).
  assert (Hc : Z.pos c = 36 * 2 ^ 47) by reflexivity.
  set (M := Z.pos (m * c)). set (E := e + -47).
  assert (HM : M = 36 * 2 ^ 47 * Z.pos m) by (unfold M; rewrite Pos2Z.inj_mul, Hc; ring).
  assert (H47 : 2 ^ 47 = 140737488355328) by reflexivity.
  assert (H52 : 2 ^ 52 = 4503599627370496) by reflexivity.
  assert (H53 : 2 ^ 53 = 9007199254740992) by reflexivity.
  assert (Hpe : 0 < 2 ^ (- e)) by (apply Z.pow_pos_nonneg; lia).
  assert (HME : 2 ^ (- E) = 2 ^ 47 * 2 ^ (- e)).
  { unfold E. replace (- (e + -47)) with (47 + - e) by lia. apply pow_split; lia. }
  assert (HMpos : 0 < M) by lia.
  assert (HMlow : 2 ^ 52 ≤ M) by lia.
  assert (HMup : M + 2 ^ 52 < 36 * 2 ^ (- E)).
  { rewrite HME, HM, H47, H52. rewrite H53 in Hm. nia. }
  destruct (Zdigits2_bounds M HMpos) as (Hd1 & Hd2 & Hd3).
  set (d := Zdigits2 M) in *.
  assert (Hd53 : 53 ≤ d).
  { destruct (Z_le_gt_dec 53 d); [assumption | exfalso].
    assert (2 ^ d ≤ 2 ^ 52) by (apply Z.pow_le_mono_r; lia). lia. }
  assert (Hd106 : d ≤ 106).
  { destruct (Z_le_gt_dec d 106); [assumption | exfalso].
    assert (2 ^ 106 ≤ 2 ^ (d - 1)) by (apply Z.pow_le_mono_r; lia).
    assert (M < 2 ^ 106).
    { rewrite HM. change (2 ^ 106) with (2 ^ 53 * 2 ^ 53). rewrite H47. rewrite H53 in *. nia. }
    lia. }
  assert (HdE : d + E ≤ 6).
  { destruct (Z_le_gt_dec (d + E) 6); [assumption | exfalso].
    assert (2 ^ (6 - E) ≤ 2 ^ (d - 1)) by (apply Z.pow_le_mono_r; lia).
    assert (2 ^ (6 - E) = 64 * 2 ^ (- E)).
    { replace (6 - E) with (6 + - E) by lia. rewrite pow_split by (unfold E; lia). reflexivity. }
    assert (0 < 2 ^ (- E)) by (apply Z.pow_pos_nonneg; unfold E; lia).
    lia. }
  set (fe := fexp Js.prec Js.emax (d + E)).
  assert (Hfe : fe = Z.max (d + E - 53) (-1074)) by reflexivity.
  destruct (Z.eq_dec fe E) as [Heq|Hne].
  - exists (Z.to_pos M), E.
    split.
    { replace (Z.to_pos M) with (Z.to_pos (M * 2 ^ (E - fe))).
      2:{ rewrite Heq, Z.sub_diag, Z.mul_1_r. reflexivity. }
      rewrite <- Heq at 3.
      apply round_aux_repr with (t := E); fold d; fold fe; try lia.
      rewrite Z.sub_diag. lia. }
    rewrite Z2Pos.id by lia.
    assert (d = 53) by lia.
    split; [replace 53 with d by lia; exact Hd3|].
    split; [unfold E in *; lia|]. split; [lia|].
    intros _. replace 52 with (d - 1) by lia. exact Hd2.
  - assert (HEfe : E < fe) by lia.
    destruct (round_aux_inexact false M E HMpos)
      as (m' & Hm0 & Hm53 & Hnorm & Hup & _ & Hres).
    { fold d. fold fe. exact HEfe. }
    fold d in Hm0, Hup, Hres, Hnorm. fold fe in Hm0, Hup, Hres, Hnorm.
    rewrite (proj2 (Z.leb_le fe 971)), (proj2 (Z.leb_le (fe + 1) 971)) in Hres by lia.
    set (k := fe - E) in *.
    assert (Hk : 1 ≤ k ≤ 53) by (unfold k, E in *; lia).
    assert (Hpk : 0 < 2 ^ k) by (apply Z.pow_pos_nonneg; lia).
    assert (Hpk1 : 2 ^ (k - 1) ≤ 2 ^ 52) by (apply Z.pow_le_mono_r; lia).
    assert (Hsplit : 2 ^ (- E) = 2 ^ (- fe) * 2 ^ k).
    { replace (- E) with (- fe + k) by (unfold k; lia). apply pow_split; lia. }
    assert (Hlt : m' < 36 * 2 ^ (- fe)).
    { assert (m' * 2 ^ k < 36 * 2 ^ (- fe) * 2 ^ k) by (rewrite <- Z.mul_assoc, <- Hsplit; lia).
      apply Z.mul_lt_mono_pos_r with (2 ^ k); assumption. }
    assert (Hm'pos : 0 < m').
    { assert (1 ≤ M / 2 ^ k); [|lia].
      apply Z.div_le_lower_bound; [lia|].
      destruct (Z_le_gt_dec k 52).
      - assert (2 ^ k ≤ 2 ^ 52) by (apply Z.pow_le_mono_r; lia). lia.
      - assert (k = 53) by lia. assert (d = 106) by (unfold k in *; lia).
        assert (2 ^ 53 ≤ 2 ^ (d - 1)) by (apply Z.pow_le_mono_r; lia).
        replace k with 53 by lia. lia. }
    destruct m' as [|p|p]; try lia.
    destruct (Z.pos p <? 2 ^ 53) eqn:Ep.
    + apply Z.ltb_lt in Ep. exists p, fe. split; [exact Hres|].
      split; [exact Ep|]. split; [lia|]. split; [exact Hlt | exact Hnorm].
    + apply Z.ltb_ge in Ep. exists 4503599627370496%positive, (fe + 1).
      split; [exact Hres|]. split; [reflexivity|]. split; [lia|].
      assert (Hs : 2 ^ (- fe) = 2 * 2 ^ (- (fe + 1))).
      { replace (- fe) with (1 + - (fe + 1)) by lia. rewrite pow_split by lia. reflexivity. }
      rewrite Hs in Hlt. change (Z.pos 4503599627370496) with (2 ^ 52).
      split; [|lia]. rewrite H53 in Ep. rewrite H52. lia.
Qed.

(** Taking the integer part away leaves a fraction below 1, exactly. *)
Lemma sub_digit_bounds (m1 : positive) (e1 : Z) :
  Z.pos m1 < 2 ^ 53 → -1074 ≤ e1 < 0 → Z.pos m1 < 36 * 2 ^ (- e1) →
  (-1074 < e1 → 2 ^ 52 ≤ Z.pos m1) →
  let d := Js.toInt (S754_finite false m1 e1) in
  0 ≤ d < 36
  ∧ (Js.sub (S754_finite false m1 e1) (Js.of_Z d) = S754_zero false
     ∨ ∃ (m2 : positive) (e2 : Z),
         Js.sub (S754_finite false m1 e1) (Js.of_Z d) = S754_finite false m2 e2
         ∧ Z.pos m2 < 2 ^ 53 ∧ -1074 ≤ e2 < 0 ∧ Z.pos m2 < 2 ^ (- e2)
         ∧ (-1074 < e2 → 2 ^ 52 ≤ Z.pos m2)).
Proof.
  intros Hm He Hlt Hnorm d.
  assert (Hp : 0 < 2 ^ (- e1)) by (apply Z.pow_pos_nonneg; lia).
  assert (Ed : d = Z.pos m1 / 2 ^ (- e1)).
  { unfold d, Js.toInt. rewrite (proj2 (Z.leb_gt 0 e1)) by lia. reflexivity. }
  assert (Hd : 0 ≤ d < 36).
  { rewrite Ed. split; [apply Z.div_pos; lia | apply Z.div_lt_upper_bound; lia]. }
  split; [exact Hd|].
  set (D' := Z.pos m1 mod 2 ^ (- e1)).
  assert (HD' : 0 ≤ D' < 2 ^ (- e1)) by (apply Z.mod_pos_bound; lia).
  assert (Hdm : Z.pos m1 = 2 ^ (- e1) * d + D') by (rewrite Ed; apply Z.div_mod; lia).
  clearbody d.
  destruct (Z.eq_dec d 0) as [->|Hnz].
  - right. exists m1, e1. split; [reflexivity|]. split; [exact Hm|]. split; [exact He|].
    split; [lia | exact Hnorm].
  - assert (Hd53 : d < 2 ^ 53) by (change (2 ^ 53) with 9007199254740992; lia).
    rewrite (of_Z_canon d) by lia. unfold canon.
    destruct (Zdigits2_bounds d ltac:(lia)) as (Hdd1 & Hdd2 & Hdd3).
    set (dd := Zdigits2 d) in *.
    assert (Hdd : dd ≤ 6).
    { apply Zdigits2_le; [lia | change (2 ^ 6) with 64; lia | lia]. }
    assert (Hpdd : 0 < 2 ^ (53 - dd)) by (apply Z.pow_pos_nonneg; lia).
    assert (Hed : dd - 53 ≤ e1).
    { destruct (Z_le_gt_dec (dd - 53) e1); [assumption | exfalso].
      assert (2 ^ 53 ≤ 2 ^ (dd - 1 + - e1)) by (apply Z.pow_le_mono_r; lia).
      rewrite pow_split in * by lia.
      assert (2 ^ (dd - 1) * 2 ^ (- e1) ≤ d * 2 ^ (- e1))
        by (apply Z.mul_le_mono_nonneg_r; lia).
      lia. }
    unfold Js.sub, SFsub.
    replace (Z.min e1 (dd - 53)) with (dd - 53) by lia.
    set (my := Z.to_pos (d * 2 ^ (53 - dd))).
    destruct (shl_align_value m1 e1 (dd - 53) Hed) as [Hx _].
    destruct (shl_align_value my (dd - 53) (dd - 53) ltac:(lia)) as [Hy _].
    cbn [cond_Zopp]. rewrite Hx, Hy. unfold my.
    rewrite Z2Pos.id by (apply Z.mul_pos_pos; lia).
    rewrite Z.sub_diag, Z.mul_1_r.
    assert (Hsplit : 2 ^ (53 - dd) = 2 ^ (- e1) * 2 ^ (e1 - (dd - 53))).
    { rewrite <- pow_split by lia. f_equal. lia. }
    assert (HD : Z.pos m1 * 2 ^ (e1 - (dd - 53)) - d * 2 ^ (53 - dd)
                 = D' * 2 ^ (e1 - (dd - 53))).
    { rewrite Hsplit, Hdm. ring. }
    rewrite HD.
    assert (Hpa : 0 < 2 ^ (e1 - (dd - 53))) by (apply Z.pow_pos_nonneg; lia).
    destruct (Z.eq_dec D' 0) as [E0|HnD].
    + left. rewrite E0. reflexivity.
    + right.
      assert (HDpos : 0 < D') by lia.
      assert (HD53 : D' < 2 ^ 53) by lia.
      pose proof (Zdigits2_le D' 53 HDpos HD53 ltac:(lia)) as HdD.
      destruct (Zdigits2_bounds D' HDpos) as (HdD1 & HdD2 & HdD3).
      set (fe := fexp Js.prec Js.emax (Zdigits2 D' + e1)).
      assert (Hfe : fe = Z.max (Zdigits2 D' + e1 - 53) (-1074)) by reflexivity.
      assert (Hpf : 0 < 2 ^ (e1 - fe)) by (apply Z.pow_pos_nonneg; lia).
      exists (Z.to_pos (D' * 2 ^ (e1 - fe))), fe.
      split.
      { unfold binary_normalize.
        assert (HDq : 0 < D' * 2 ^ (e1 - (dd - 53))) by (apply Z.mul_pos_pos; lia).
        destruct (D' * 2 ^ (e1 - (dd - 53))) as [|q|q] eqn:Eq; try lia.
        apply binary_round_repr with (t := e1); fold fe; lia. }
      rewrite Z2Pos.id by (apply Z.mul_pos_pos; lia).
      split.
      { assert (D' * 2 ^ (e1 - fe) < 2 ^ Zdigits2 D' * 2 ^ (e1 - fe))
          by (apply Z.mul_lt_mono_pos_r; lia).
        assert (2 ^ (Zdigits2 D' + (e1 - fe)) ≤ 2 ^ 53) by (apply Z.pow_le_mono_r; lia).
        rewrite pow_split in * by lia. lia. }
      split; [lia|].
      split.
      { assert (D' * 2 ^ (e1 - fe) < 2 ^ (- e1) * 2 ^ (e1 - fe))
          by (apply Z.mul_lt_mono_pos_r; lia).
        replace (- fe) with (- e1 + (e1 - fe)) by lia. rewrite pow_split by lia. lia. }
      intros Hn.
      assert (2 ^ (Zdigits2 D' - 1) * 2 ^ (e1 - fe) ≤ D' * 2 ^ (e1 - fe))
        by (apply Z.mul_le_mono_nonneg_r; lia).
      rewrite <- pow_split in * by lia.
      replace (Zdigits2 D' - 1 + (e1 - fe)) with 52 in * by lia. lia.
Qed.

Lemma roundUp_digits (written : list Z) :
  Forall (λ d, 0 ≤ d < 36) written →
  Forall (λ d, 0 ≤ d < 36) (Js.roundUp written).1.
Proof.
  induction 1 as [|d ds Hd Hds IH]; simpl; [constructor|].
  destruct (d + 1 <? 36) eqn:E; simpl; [|exact IH].
  apply Z.ltb_lt in E. constructor; [lia | exact Hds].
Qed.

Lemma roundUp_carry (written : list Z) :
  (Js.roundUp written).2 = true → (Js.roundUp written).1 = [].
Proof.
  induction written as [|d ds IH]; simpl; [reflexivity|].
  destruct (d + 1 <? 36); simpl; [discriminate | exact IH].
Qed.

(** One round of the loop keeps the fraction in the unit interval and writes
    a digit of base 36. *)
Lemma fraction_step (fraction : Js.number) :
  (fraction = S754_zero false
   ∨ ∃ (m : positive) (e : Z),
       fraction = S754_finite false m e
       ∧ Z.pos m < 2 ^ 53 ∧ -1074 ≤ e < 0 ∧ Z.pos m < 2 ^ (- e)
       ∧ (-1074 < e → 2 ^ 52 ≤ Z.pos m)) →
  let fraction1 := Js.mul fraction (Js.of_Z 36) in
  let digit := Js.toInt fraction1 in
  let fraction2 := Js.sub fraction1 (Js.of_Z digit) in
  0 ≤ digit < 36
  ∧ (fraction2 = S754_zero false
     ∨ ∃ (m : positive) (e : Z),
         fraction2 = S754_finite false m e
         ∧ Z.pos m < 2 ^ 53 ∧ -1074 ≤ e < 0 ∧ Z.pos m < 2 ^ (- e)
         ∧ (-1074 < e → 2 ^ 52 ≤ Z.pos m)).
Proof.
  intros Hf fraction1 digit fraction2.
  destruct Hf as [->|(m & e & -> & Hm & He & Hu & _)].
  - split; [unfold digit; simpl; lia | left; reflexivity].
  - destruct (mul36_bounds m e Hm He Hu) as (m1 & e1 & E1 & Hm1 & He1 & Hu1 & Hn1).
    unfold fraction2, digit, fraction1. rewrite E1.
    exact (sub_digit_bounds m1 e1 Hm1 He1 Hu1 Hn1).
Qed.

(** Every digit written for a fraction below 1 is a base-36 digit, whatever
    [delta] is, and a carry out of the fraction leaves no digit. *)
Lemma fractionDigits_digits (fuel : nat) (fraction delta : Js.number) (written : list Z) :
  (fraction = S754_zero false
   ∨ ∃ (m : positive) (e : Z),
       fraction = S754_finite false m e
       ∧ Z.pos m < 2 ^ 53 ∧ -1074 ≤ e < 0 ∧ Z.pos m < 2 ^ (- e)
       ∧ (-1074 < e → 2 ^ 52 ≤ Z.pos m)) →
  Forall (λ d, 0 ≤ d < 36) written →
  Forall (λ d, 0 ≤ d < 36) (Js.fractionDigits fuel fraction delta written).1
  ∧ ((Js.fractionDigits fuel fraction delta written).2 = true →
     (Js.fractionDigits fuel fraction delta written).1 = []).
Proof.
  revert fraction delta written.
  induction fuel as [|fuel IH]; intros fraction delta written Hf Hw.
  - split; [exact Hw | discriminate].
  - cbn [Js.fractionDigits].
    destruct (fraction_step fraction Hf) as [Hdigit Hf2].
    set (digit := Js.toInt (Js.mul fraction (Js.of_Z 36))) in *.
    set (fraction2 := Js.sub (Js.mul fraction (Js.of_Z 36)) (Js.of_Z digit)) in *.
    assert (Hw1 : Forall (λ d, 0 ≤ d < 36) (digit :: written))
      by (constructor; assumption).
    destruct (_ && _).
    + split; [exact (roundUp_digits _ Hw1) | exact (roundUp_carry _)].
    + destruct (Js.leb _ fraction2).
      * apply IH; assumption.
      * split; [exact Hw1 | discriminate].
Qed.

(** A finite value of the format: its mantissa has at most 53 bits, and
    exactly 53 above the least exponent. *)
Lemma valid_finite_bounds (m : positive) (e : Z) (s : bool) :
  valid_binary Js.prec Js.emax (S754_finite s m e) = true →
  Z.pos m < 2 ^ 53 ∧ -1074 ≤ e ∧ (-1074 < e → 2 ^ 52 ≤ Z.pos m).
Proof.
  intros Hv. unfold valid_binary, bounded, canonical_mantissa in Hv.
  apply andb_true_iff in Hv as [Hc _]. apply Z.eqb_eq in Hc.
  rewrite fexp_is in Hc.
  pose proof (digits2_pos_bound m) as Hm. pose proof (digits2_pos_lower m) as Hl.
  assert (2 ^ Z.pos (digits2_pos m) ≤ 2 ^ 53) by (apply Z.pow_le_mono_r; lia).
  split; [lia|]. split; [lia|]. intros Hn.
  replace 52 with (Z.pos (digits2_pos m) - 1) by lia. exact Hl.
Qed.

(** The shape of [toString36] on [0, 1): one integer digit, then nothing or
    a point and fraction digits. *)
Lemma toString36_unit_interval (random : Js.number) :
  valid_binary Js.prec Js.emax random = true →
  Js.leb (Js.of_Z 0) random = true →
  Js.ltb random (Js.of_Z 1) = true →
  ∃ (c : ascii) (ds : list Z),
    Forall (λ d, 0 ≤ d < 36) ds
    ∧ Js.toString36 random =
        String c match ds with
                 | [] => EmptyString
                 | _ => String "."%char (string_of_list_ascii (map Js.digitChar ds))
                 end.
Proof.
  intros Hv H0 H1.
  destruct random as [s|s| |s m e].
  - exists "0"%char, []. split; [constructor | reflexivity].
  - destruct s; discriminate.
  - discriminate.
  - destruct (unit_interval_finite s m e Hv H0 H1) as (-> & He & Hint).
    assert (Hp : 0 < 2 ^ (- e)) by (apply Z.pow_pos_nonneg; lia).
    assert (Hunit : Z.pos m < 2 ^ (- e)).
    { apply Z.div_small_iff in Hint as [Hs|Hs]; lia. }
    pose proof (valid_finite_bounds m e false Hv) as (Hm53 & He1074 & Hnorm).
    unfold Js.toString36. cbn [SFabs].
    assert (Efloor : Js.floor (S754_finite false m e) = S754_zero false).
    { unfold Js.floor. rewrite (proj2 (Z.leb_gt 0 e)) by lia. cbv zeta.
      rewrite Hint. reflexivity. }
    rewrite Efloor.
    change (Js.sub (S754_finite false m e) (S754_zero false)) with (S754_finite false m e).
    set (delta0 := Js.mul Js.half _).
    set (delta := if Js.ltb Js.minValue delta0 then delta0 else Js.minValue).
    assert (Ezero : Js.leadingZeros Js.bufferSize (S754_zero false) [] = (S754_zero false, []))
      by reflexivity.
    assert (Edz : Js.integerDigits Js.bufferSize (S754_zero false) [] = [0])
      by (vm_compute; reflexivity).
    assert (Eone : Js.leadingZeros Js.bufferSize (Js.add (S754_zero false) (Js.of_Z 1)) []
                   = (Js.of_Z 1, [])) by reflexivity.
    assert (Edo : Js.integerDigits Js.bufferSize (Js.of_Z 1) [] = [1])
      by (vm_compute; reflexivity).
    destruct (Js.leb delta (S754_finite false m e)).
    + pose proof (fractionDigits_digits Js.bufferSize (S754_finite false m e) delta []
                    ltac:(right; exists m, e; repeat split; (lia || exact Hnorm))
                    ltac:(constructor)) as [Hds Hcarry].
      destruct (Js.fractionDigits Js.bufferSize (S754_finite false m e) delta [])
        as [written carry].
      simpl in Hds, Hcarry.
      destruct carry.
      * rewrite (Hcarry eq_refl), Eone, Edo.
        exists "1"%char, []. split; [constructor | reflexivity].
      * rewrite Ezero, Edz. exists "0"%char, (rev written). split.
        { apply Forall_rev. exact Hds. }
        simpl. destruct (rev written); reflexivity.
    + rewrite Ezero, Edz. exists "0"%char, []. split; [constructor | reflexivity].
Qed.

(** ** The rounds of the fraction loop *)

Lemma bounded_iff (m : positive) (e : Z) :
  bounded Js.prec Js.emax m e = true
  ↔ Z.max (Zdigits2 (Z.pos m) + e - 53) (-1074) = e ∧ e ≤ 971.
Proof.
  unfold bounded, canonical_mantissa. rewrite andb_true_iff, Z.eqb_eq, Z.leb_le.
  rewrite fexp_is. unfold Js.emax, Js.prec. reflexivity.
Qed.

Lemma Zdigits2_ge (z j : Z) : 0 < z → 2 ^ (j - 1) ≤ z → j ≤ Zdigits2 z.
Proof.
  intros Hz Hj. destruct (Zdigits2_bounds z Hz) as (H1 & H2 & H3).
  destruct (Z_le_gt_dec j (Zdigits2 z)) as [|Hgt]; [assumption | exfalso].
  assert (2 ^ Zdigits2 z ≤ 2 ^ (j - 1)) by (apply Z.pow_le_mono_r; lia). lia.
Qed.

(** The step [delta *= 36]: the result is an infinity or a value of the
    format that is at least five binary orders above [delta]. *)
Lemma mul36_grows (md : positive) (ed : Z) :
  -1074 ≤ ed →
  Js.mul (S754_finite false md ed) (Js.of_Z 36) = S754_infinity false
  ∨ ∃ (m1 : positive) (e1 : Z),
      Js.mul (S754_finite false md ed) (Js.of_Z 36) = S754_finite false m1 e1
      ∧ bounded Js.prec Js.emax m1 e1 = true
      ∧ Zdigits2 (Z.pos md) + ed + 5 ≤ Zdigits2 (Z.pos m1) + e1.
Proof.
  intros Hed. rewrite thirtysix_is. unfold Js.mul, SFmul. cbn [xorb].
  set (c := 5066549580791808%positive).
  assert (Hc : Z.pos c = 36 * 2 ^ 47) by reflexivity.
  set (M := Z.pos (md * c)). set (E := ed + -47).
  assert (HM : M = 36 * 2 ^ 47 * Z.pos md) by (unfold M; rewrite Pos2Z.inj_mul, Hc; ring).
  assert (H47 : 2 ^ 47 = 140737488355328) by reflexivity.
  assert (H52 : 2 ^ 52 = 4503599627370496) by reflexivity.
  assert (HMpos : 0 < M) by lia.
  destruct (Zdigits2_bounds (Z.pos md) ltac:(lia)) as (Hdd1 & Hdd2 & Hdd3).
  set (dd := Zdigits2 (Z.pos md)) in *.
  destruct (Zdigits2_bounds M HMpos) as (Hd1 & Hd2 & Hd3).
  set (d := Zdigits2 M) in *.
  assert (Hd : dd + 52 ≤ d).
  { apply Zdigits2_ge; [exact HMpos|].
    replace (dd + 52 - 1) with (52 + (dd - 1)) by lia. rewrite pow_split by lia.
    rewrite H52, HM, H47. lia. }
  set (fe := fexp Js.prec Js.emax (d + E)).
  assert (Hfe : fe = Z.max (d + E - 53) (-1074)) by reflexivity.
  destruct (Z.eq_dec fe E) as [Heq|Hne].
  - unfold binary_round_aux.
    rewrite shr_fexp_keep by (fold d; fold fe; lia). cbn [shr_m loc_of_shr_record].
    unfold round_nearest_even.
    rewrite shr_fexp_keep by (fold d; fold fe; lia). cbn [shr_m].
    fold M. destruct M as [|p|p] eqn:EM; try lia.
    destruct (E <=? Js.emax - Js.prec) eqn:Ele; [|by left].
    apply Z.leb_le in Ele. unfold Js.emax, Js.prec in Ele.
    right. exists p, E. split; [reflexivity|].
    split; [apply bounded_iff; fold d; lia|]. fold d. unfold E. lia.
  - assert (HEfe : E < fe) by lia.
    destruct (round_aux_inexact false M E HMpos)
      as (m' & Hm0 & Hm53 & Hnorm & _ & _ & Hres).
    { fold d. fold fe. exact HEfe. }
    fold d in Hm0, Hres, Hnorm. fold fe in Hm0, Hres, Hnorm.
    set (k := fe - E) in *.
    assert (Hk : 1 ≤ k ≤ d - 1) by (unfold k, E in *; lia).
    assert (Hpk : 0 < 2 ^ k) by (apply Z.pow_pos_nonneg; lia).
    assert (Hlow : 2 ^ (d - 1 - k) ≤ m').
    { assert (2 ^ (d - 1 - k) ≤ M / 2 ^ k); [|lia].
      apply Z.div_le_lower_bound; [lia|].
      rewrite <- pow_split by lia. replace (k + (d - 1 - k)) with (d - 1) by lia.
      exact Hd2. }
    assert (Hm'pos : 0 < m').
    { assert (0 < 2 ^ (d - 1 - k)) by (apply Z.pow_pos_nonneg; lia). lia. }
    pose proof (Zdigits2_ge m' (d - k) Hm'pos ltac:(replace (d - k - 1) with (d - 1 - k) by lia; exact Hlow)) as Hdm.
    destruct m' as [|p|p] eqn:Em; try lia.
    rewrite Hres.
    destruct (Z.pos p <? 2 ^ 53) eqn:Ep.
    + apply Z.ltb_lt in Ep.
      destruct (fe <=? 971) eqn:Ele; [|by left].
      apply Z.leb_le in Ele. right. exists p, fe. split; [reflexivity|].
      pose proof (Zdigits2_le (Z.pos p) 53 ltac:(lia) Ep ltac:(lia)) as Hle53.
      split.
      * apply bounded_iff. split; [|exact Ele].
        destruct (Z_le_gt_dec fe (-1074)) as [Hsub|Hn]; [lia|].
        specialize (Hnorm ltac:(lia)).
        pose proof (Zdigits2_ge (Z.pos p) 53 ltac:(lia) Hnorm). lia.
      * unfold k, E in *. lia.
    + apply Z.ltb_ge in Ep.
      destruct (fe + 1 <=? 971) eqn:Ele; [|by left].
      apply Z.leb_le in Ele. right. exists 4503599627370496%positive, (fe + 1).
      split; [reflexivity|].
      change (Zdigits2 (Z.pos 4503599627370496)) with 53.
      split; [apply bounded_iff; change (Zdigits2 (Z.pos 4503599627370496)) with 53; lia|].
      unfold k, E in *. lia.
Qed.

(** A value of the format that is not above a fraction below 1 is below 1
    itself. *)
Lemma leb_below_one (m1 m2 : positive) (e1 e2 : Z) :
  bounded Js.prec Js.emax m1 e1 = true →
  -1074 ≤ e2 < 0 → Z.pos m2 < 2 ^ (- e2) → (-1074 < e2 → 2 ^ 52 ≤ Z.pos m2) →
  Js.leb (S754_finite false m1 e1) (S754_finite false m2 e2) = true →
  Zdigits2 (Z.pos m1) + e1 ≤ 0.
Proof.
  intros Hb He2 Hu Hn Hle. apply bounded_iff in Hb as [Hc _].
  unfold Js.leb, SFleb in Hle. rewrite compare_finite in Hle.
  destruct (Z.compare_spec e1 e2) as [Heq|Hlt|Hgt]; try discriminate.
  - subst e2.
    assert (Hm : Z.pos m1 ≤ Z.pos m2).
    { destruct (Pos.compare_spec m1 m2) as [->|H|H]; try discriminate; lia. }
    assert (Zdigits2 (Z.pos m1) ≤ - e1); [|lia].
    apply Zdigits2_le; lia.
  - assert (He : -1074 < e2) by lia. specialize (Hn He).
    assert (53 ≤ - e2).
    { destruct (Z_le_gt_dec 53 (- e2)); [assumption | exfalso].
      assert (2 ^ (- e2) ≤ 2 ^ 52) by (apply Z.pow_le_mono_r; lia). lia. }
    lia.
Qed.

(** [delta] times 36, whatever [delta] is among the values the loop meets. *)
Lemma mul36_rank (delta : Js.number) (r : Z) :
  (delta = S754_nan ∨ delta = S754_infinity false
   ∨ ∃ (md : positive) (ed : Z),
       delta = S754_finite false md ed ∧ -1074 ≤ ed ∧ r ≤ Zdigits2 (Z.pos md) + ed) →
  Js.mul delta (Js.of_Z 36) = S754_nan
  ∨ Js.mul delta (Js.of_Z 36) = S754_infinity false
  ∨ ∃ (m1 : positive) (e1 : Z),
      Js.mul delta (Js.of_Z 36) = S754_finite false m1 e1
      ∧ bounded Js.prec Js.emax m1 e1 = true
      ∧ r + 5 ≤ Zdigits2 (Z.pos m1) + e1.
Proof.
  intros [->|[->|(md & ed & -> & Hed & Hr)]].
  - left. rewrite thirtysix_is. reflexivity.
  - right; left. rewrite thirtysix_is. reflexivity.
  - destruct (mul36_grows md ed Hed) as [E|(m1 & e1 & E & Hb & Hg)].
    + right; left. exact E.
    + right; right. exists m1, e1. split; [exact E|]. split; [exact Hb|]. lia.
Qed.

(** The test [fraction >= delta] fails once [delta] is 1 or more. *)
Lemma leb_stops (delta1 fraction2 : Js.number) :
  (fraction2 = S754_zero false
   ∨ ∃ (m : positive) (e : Z),
       fraction2 = S754_finite false m e
       ∧ Z.pos m < 2 ^ 53 ∧ -1074 ≤ e < 0 ∧ Z.pos m < 2 ^ (- e)
       ∧ (-1074 < e → 2 ^ 52 ≤ Z.pos m)) →
  (delta1 = S754_nan ∨ delta1 = S754_infinity false
   ∨ ∃ (m1 : positive) (e1 : Z),
       delta1 = S754_finite false m1 e1
       ∧ bounded Js.prec Js.emax m1 e1 = true
       ∧ 1 ≤ Zdigits2 (Z.pos m1) + e1) →
  Js.leb delta1 fraction2 = false.
Proof.
  intros Hf [->|[->|(m1 & e1 & -> & Hb & Hr)]].
  - destruct Hf as [->|(m & e & -> & _)]; reflexivity.
  - destruct Hf as [->|(m & e & -> & _)]; reflexivity.
  - destruct Hf as [->|(m & e & -> & Hm & He & Hu & Hn)]; [reflexivity|].
    destruct (Js.leb _ _) eqn:Hle; [exfalso | reflexivity].
    pose proof (leb_below_one m1 m e1 e Hb He Hu Hn Hle). lia.
Qed.

(** The loop [do ... while (fraction >= delta)] ends: with [delta] at binary
    order [r], it makes at most [n + 1] rounds when [1 ≤ r + 5 * (n + 1)],
    and more fuel changes nothing. *)
Lemma fractionDigits_fuel (n : nat) :
  ∀ (fuel : nat) (fraction delta : Js.number) (written : list Z),
    (fraction = S754_zero false
     ∨ ∃ (m : positive) (e : Z),
         fraction = S754_finite false m e
         ∧ Z.pos m < 2 ^ 53 ∧ -1074 ≤ e < 0 ∧ Z.pos m < 2 ^ (- e)
         ∧ (-1074 < e → 2 ^ 52 ≤ Z.pos m)) →
    (delta = S754_nan ∨ delta = S754_infinity false
     ∨ ∃ (md : positive) (ed : Z),
         delta = S754_finite false md ed ∧ -1074 ≤ ed
         ∧ 1 - 5 * (Z.of_nat n + 1) ≤ Zdigits2 (Z.pos md) + ed) →
    (n < fuel)%nat →
    Js.fractionDigits fuel fraction delta written
    = Js.fractionDigits (S n) fraction delta written.
Proof.
  induction n as [|n IH]; intros fuel fraction delta written Hf Hd Hfuel;
    (destruct fuel as [|k]; [lia|]).
  - cbn [Js.fractionDigits].
    destruct (fraction_step fraction Hf) as [_ Hf2].
    pose proof (mul36_rank delta _ Hd) as Hd1.
    rewrite (leb_stops _ _ Hf2) by
      (destruct Hd1 as [E|[E|(m1 & e1 & E & Hb & Hr)]];
       [left; exact E | right; left; exact E
       | right; right; exists m1, e1; split; [exact E|]; split; [exact Hb|]; lia]).
    reflexivity.
  - change (Js.fractionDigits (S k) fraction delta written
            = Js.fractionDigits (S (S n)) fraction delta written).
    cbn [Js.fractionDigits].
    destruct (fraction_step fraction Hf) as [_ Hf2].
    pose proof (mul36_rank delta _ Hd) as Hd1.
    destruct (_ && _); [reflexivity|].
    destruct (Js.leb _ _); [|reflexivity].
    apply IH; [exact Hf2 | | lia].
    destruct Hd1 as [E|[E|(m1 & e1 & E & Hb & Hr)]];
      [left; exact E | right; left; exact E|].
    right; right. exists m1, e1. split; [exact E|].
    apply bounded_iff in Hb. split; lia.
Qed.

(** A rounded product with 0.5 has an exponent of the format. *)
Lemma mul_half_exponent (x : Js.number) (s : bool) (m : positive) (e : Z) :
  Js.mul Js.half x = S754_finite s m e → -1074 ≤ e.
Proof.
  destruct x as [sx|sx| |sx mx ex]; try discriminate.
  unfold Js.mul, Js.half, SFmul. cbn [xorb].
  set (c := 4503599627370496%positive).
  assert (Hc : Z.pos c = 2 ^ 52) by reflexivity.
  set (M := Z.pos (c * mx)). set (E := -53 + ex).
  assert (HM : M = 2 ^ 52 * Z.pos mx) by (unfold M; rewrite Pos2Z.inj_mul, Hc; ring).
  assert (H52 : 2 ^ 52 = 4503599627370496) by reflexivity.
  assert (HMpos : 0 < M) by lia.
  destruct (Zdigits2_bounds M HMpos) as (Hd1 & Hd2 & Hd3).
  assert (Hd : 53 ≤ Zdigits2 M).
  { apply Zdigits2_ge; [exact HMpos|]. change (53 - 1) with 52. lia. }
  set (d := Zdigits2 M) in *.
  set (fe := fexp Js.prec Js.emax (d + E)).
  assert (Hfe : fe = Z.max (d + E - 53) (-1074)) by reflexivity.
  destruct (Z.eq_dec fe E) as [Heq|Hne].
  - unfold binary_round_aux.
    rewrite shr_fexp_keep by (fold d; fold fe; lia). cbn [shr_m loc_of_shr_record].
    unfold round_nearest_even.
    rewrite shr_fexp_keep by (fold d; fold fe; lia). cbn [shr_m].
    fold M. destruct M as [|p|p] eqn:EM; try lia.
    destruct (E <=? Js.emax - Js.prec); [|discriminate].
    intros [= _ _ <-]. lia.
  - destruct (round_aux_inexact sx M E HMpos)
      as (m' & _ & _ & _ & _ & _ & Hres).
    { fold d. fold fe. lia. }
    fold d in Hres. fold fe in Hres. rewrite Hres.
    destruct m' as [|p|p]; try discriminate.
    destruct (Z.pos p <? 2 ^ 53).
    + destruct (fe <=? 971); [|discriminate]. intros [= _ _ <-]. lia.
    + destruct (fe + 1 <=? 971); [|discriminate]. intros [= _ _ <-]. lia.
Qed.

(** The fraction loop of [toString36] ends within 215 rounds, for every
    number [x] that [delta] is taken from: the 1100 places of the buffer are
    never used up. *)
Lemma fractionDigits_ends (x fraction : Js.number) (written : list Z) (fuel : nat) :
  (fraction = S754_zero false
   ∨ ∃ (m : positive) (e : Z),
       fraction = S754_finite false m e
       ∧ Z.pos m < 2 ^ 53 ∧ -1074 ≤ e < 0 ∧ Z.pos m < 2 ^ (- e)
       ∧ (-1074 < e → 2 ^ 52 ≤ Z.pos m)) →
  (215 ≤ fuel)%nat →
  let delta0 := Js.mul Js.half (Js.sub (Js.nextDouble x) x) in
  let delta := if Js.ltb Js.minValue delta0 then delta0 else Js.minValue in
  Js.fractionDigits fuel fraction delta written
  = Js.fractionDigits 215 fraction delta written.
Proof.
  intros Hf Hfuel delta0 delta.
  apply (fractionDigits_fuel 214); [exact Hf | | lia].
  change (1 - 5 * (Z.of_nat 214 + 1)) with (-1074).
  unfold delta.
  destruct (Js.ltb Js.minValue delta0) eqn:Hlt.
  - pose proof (mul_half_exponent (Js.sub (Js.nextDouble x) x)) as Hexp.
    fold delta0 in Hexp. clearbody delta0.
    destruct delta0 as [s|s| |s m e].
    + discriminate.
    + destruct s; [discriminate|]. right; left. reflexivity.
    + discriminate.
    + destruct s; [discriminate|].
      right; right. exists m, e. split; [reflexivity|].
      specialize (Hexp false m e eq_refl).
      pose proof (Zdigits2_bounds (Z.pos m) ltac:(lia)). lia.
  - right; right. exists 1%positive, (-1074). split; [reflexivity|].
    change (Zdigits2 1) with 1. lia.
Qed.

Lemma substring_prefix_length (n : nat) (s : string) :
  (String.length (String.substring 0 n s) ≤ n)%nat.
Proof.
  revert s. induction n as [|n IH]; intros [|c s]; simpl; try lia.
  specialize (IH s). lia.
Qed.

Lemma substring_length_le (k n : nat) (s : string) :
  (String.length (String.substring k n s) ≤ n)%nat.
Proof.
  revert s. induction k as [|k IH]; intros s.
  - apply substring_prefix_length.
  - destruct s as [|c s]; simpl; [destruct n; simpl; lia | apply IH].
Qed.

Lemma substring_length_full (k n : nat) (s : string) :
  (k + n ≤ String.length s)%nat → String.length (String.substring k n s) = n.
Proof.
  revert n s. induction k as [|k IH]; intros n s.
  - revert s. induction n as [|n IHn]; intros [|c s]; simpl; intros H; try lia.
    rewrite IHn; lia.
  - destruct s as [|c s]; simpl; intros H; [lia|]. apply IH. lia.
Qed.

Lemma substring_prefix_base36 (n : nat) (l : list ascii) :
  Forall (λ c, c ∈ Js.digitChars) l →
  base36 (String.substring 0 n (string_of_list_ascii l)).
Proof.
  unfold base36. revert l. induction n as [|n IH]; intros l Hl.
  - destruct l; simpl; constructor.
  - destruct Hl as [|c l Hc Hl]; simpl; [constructor|].
    constructor; [exact Hc | apply IH, Hl].
Qed.

Lemma inviteCode_base36 (random : Js.number) :
  valid_binary Js.prec Js.emax random = true →
  Js.leb (Js.of_Z 0) random = true →
  Js.ltb random (Js.of_Z 1) = true →
  base36 (inviteCodeOf random).
Proof.
  intros Hv H0 H1.
  destruct (toString36_unit_interval random Hv H0 H1) as (c & ds & Hds & E).
  unfold inviteCodeOf, Js.substring. rewrite E.
  destruct ds as [|d ds]; [constructor|].
  change (String.substring 2 (9 - 2) (String c (String "." ?s)))
    with (String.substring 0 7 s).
  apply substring_prefix_base36.
  apply Forall_fmap. eapply Forall_impl; [exact Hds|].
  intros x Hx. apply digitChar_base36, Hx.
Qed.


(** ** The envelope of the list routes *)

Ltac branches :=
  unfold tryCatch, mbind, Result_bind in *;
  repeat (simpl in *; simplify_eq; try done; case_match).

Ltac paged :=
  intros data pag E Hlim;
  unfold tryCatch, mbind, Result_bind in E;
  repeat (simpl in *; simplify_eq; try done; case_match);
  simpl in *; simplify_eq;
  first [ exfalso; simpl in Hlim; rewrite one_le_not_zero in Hlim; discriminate
        | repeat split; simpl; eauto ].

Lemma users_get_paged ilike db query :
  ∀ data pag, users_get ilike db query = res_json 200 (ListBody data pag) →
    Js.leb (Js.of_Z 1) (limit pag) = true →
    pagedBy (query !! "page") (query !! "limit") data pag.
Proof. unfold users_get. paged. Qed.

Lemma users_get_id_departments_paged db id query :
  ∀ data pag, users_get_id_departments db id query = res_json 200 (ListBody data pag) →
    Js.leb (Js.of_Z 1) (limit pag) = true →
    pagedBy (query !! "page") (query !! "limit") data pag.
Proof. unfold users_get_id_departments. paged. Qed.

Lemma users_get_id_subjects_paged db id query :
  ∀ data pag, users_get_id_subjects db id query = res_json 200 (ListBody data pag) →
    Js.leb (Js.of_Z 1) (limit pag) = true →
    pagedBy (query !! "page") (query !! "limit") data pag.
Proof. unfold users_get_id_subjects. paged. Qed.

Lemma subjects_get_paged ilike db query :
  ∀ data pag, subjects_get ilike db query = res_json 200 (ListBody data pag) →
    Js.leb (Js.of_Z 1) (limit pag) = true →
    pagedBy (query !! "page") (query !! "limit") data pag.
Proof. unfold subjects_get. paged. Qed.

Lemma subjects_get_id_classes_paged db id query :
  ∀ data pag, subjects_get_id_classes db id query = res_json 200 (ListBody data pag) →
    Js.leb (Js.of_Z 1) (limit pag) = true →
    pagedBy (query !! "page") (query !! "limit") data pag.
Proof. unfold subjects_get_id_classes. paged. Qed.

Lemma subjects_get_id_users_paged db id query :
  ∀ data pag, subjects_get_id_users db id query = res_json 200 (ListBody data pag) →
    Js.leb (Js.of_Z 1) (limit pag) = true →
    pagedBy (query !! "page") (query !! "limit") data pag.
Proof. unfold subjects_get_id_users. paged. Qed.

Lemma classes_get_paged ilike db query :
  ∀ data pag, classes_get ilike db query = res_json 200 (ListBody data pag) →
    Js.leb (Js.of_Z 1) (limit pag) = true →
    pagedBy (query !! "page") (query !! "limit") data pag.
Proof. unfold classes_get. paged. Qed.

Lemma classes_get_id_users_paged db id query :
  ∀ data pag, classes_get_id_users db id query = res_json 200 (ListBody data pag) →
    Js.leb (Js.of_Z 1) (limit pag) = true →
    pagedBy (query !! "page") (query !! "limit") data pag.
Proof. unfold classes_get_id_users. paged. Qed.

Lemma every_list_route_is_paged (ilike : string → string → bool) (db : Db)
    (id : string) (query : gmap string qvalue) :
  answersPaged (users_get ilike db query) query
  ∧ answersPaged (users_get_id_departments db id query) query
  ∧ answersPaged (users_get_id_subjects db id query) query
  ∧ answersPaged (subjects_get ilike db query) query
  ∧ answersPaged (subjects_get_id_classes db id query) query
  ∧ answersPaged (subjects_get_id_users db id query) query
  ∧ answersPaged (classes_get ilike db query) query
  ∧ answersPaged (classes_get_id_users db id query) query.
Proof.
  unfold answersPaged.
  split; [apply users_get_paged|].
  split; [apply users_get_id_departments_paged|].
  split; [apply users_get_id_subjects_paged|].
  split; [apply subjects_get_paged|].
  split; [apply subjects_get_id_classes_paged|].
  split; [apply subjects_get_id_users_paged|].
  split; [apply classes_get_paged | apply classes_get_id_users_paged].
Qed.

Lemma limitOffset_bound {A} (lim off : Js.number) (rows data : list A) :
  Orm.limitOffset lim off rows = Ok data →
  Js.leb (Js.of_Z 1) lim = true →
  ∃ z, Js.to_Z lim = Some z ∧ 1 ≤ z ∧ Z.of_nat (length data) ≤ z.
Proof.
  intros E Hlim. unfold Orm.limitOffset in E.
  rewrite (leb_one_geb_zero _ Hlim) in E.
  unfold mbind, Result_bind in E.
  destruct (if Js.truthy off then _ else _) as [skipped|]; [|discriminate].
  unfold Orm.bigintParam in E.
  destruct (Js.to_Z lim) as [z|] eqn:Ez; [|discriminate].
  destruct ((0 <=? z) && (z <? 2 ^ 63)) eqn:Er; [|discriminate].
  injection E as <-. exists z. split; [reflexivity|].
  split; [by eapply leb_one_to_Z|].
  rewrite length_take. apply andb_true_iff in Er as [Hz _]. apply Z.leb_le in Hz. lia.
Qed.

Lemma paged_is_well {A} (r : Response A) (query : gmap string qvalue) :
  answersPaged r query → wellPaged r.
Proof.
  intros Hp data pag E Hlim.
  destruct (Hp data pag E Hlim) as (_ & _ & Htp & rows & Hw).
  split; [exact Htp|]. by eapply limitOffset_bound.
Qed.


(** ** Totals of the role branches *)




(** The response of a role branch of a users listing, once the id and the
    role parameter are known. *)
Ltac by_role_parameter Hid Hrole E :=
  rewrite Hrole in E;
  match type of E with
  | context [negb ?b] => destruct (negb b); [discriminate E|]
  end;
  simpl in E; rewrite Hid in E; simpl in E;
  unfold tryCatch, mbind, Result_bind in E;
  match type of E with
  | context [Orm.limitOffset ?a ?b ?c] =>
      destruct (Orm.limitOffset a b c) eqn:Ew; [|discriminate E]
  end;
  injection E as <- <-.


Lemma class_users_total (db : Db) (id : string) (query : gmap string qvalue)
    (data : list User) (pag : Pagination) (classId : Z) :
  classes_get_id_users db id query = res_json 200 (ListBody data pag) →
  Orm.integerParam (Js.Number id) = Ok classId →
  (query !! "role" = Some (QString "teacher") →
     listsExactly user_id
       (teachersWhere db "teacher" (λ c, bool_decide (class_id c = classId)))
       data pag)
  ∧ (query !! "role" = Some (QString "student") →
     listsExactly user_id (studentsEnrolledIn db "student" classId) data pag).
Proof.
  intros E Hid. unfold classes_get_id_users in E. split; intros Hrole.
  - by_role_parameter Hid Hrole E. split.
    + simpl. do 2 f_equal.
      apply (countDistinct_rows (λ r, r.1) user_id), teachersOfClass_rows.
    + eexists. split; [exact Ew|]. apply grouped_rows, teachersOfClass_rows.
  - by_role_parameter Hid Hrole E. split.
    + simpl. do 2 f_equal.
      apply (countDistinct_rows (λ r, r.1) user_id), studentsOfClass_rows.
    + eexists. split; [exact Ew|]. apply grouped_rows, studentsOfClass_rows.
Qed.



(** ** The page of the subjects listing *)






(** ** Nested listings of an id without rows *)













(** ** The specified properties *)








(** C3 (counterexample).  The envelope that answers a user who is neither
    teacher nor student is a successful list response with [limit: 0] and
    [totalPages: 0], but [Math.ceil(0 / 0)] is NaN. *)
Lemma empty_envelope_is_not_well_paged :
  users_get_id_departments sampleDb "a1" ∅ = res_json 200 (ListBody [] emptyPage)
  ∧ totalPages emptyPage = Js.of_Z 0
  ∧ Js.Math_ceil (Js.div (total emptyPage) (limit emptyPage)) = Js.NaN
  ∧ totalPages emptyPage ≠ Js.Math_ceil (Js.div (total emptyPage) (limit emptyPage)).
Proof.
  split; [vm_compute; reflexivity|]. split; [reflexivity|].
  split; [reflexivity | discriminate].
Qed.

(** C3 (amended).  Every 200 list response of the eight list routes whose
    pagination limit is at least 1 (all but the zero-limit envelope above
    and a response with a NaN limit) has
    [totalPages = Math.ceil(total / limit)], its limit is an integer of at
    least 1, and it carries at most that many items. *)
Theorem list_responses_are_well_paged (ilike : string → string → bool) (db : Db)
    (id : string) (query : gmap string qvalue) :
  wellPaged (users_get ilike db query)
  ∧ wellPaged (users_get_id_departments db id query)
  ∧ wellPaged (users_get_id_subjects db id query)
  ∧ wellPaged (subjects_get ilike db query)
  ∧ wellPaged (subjects_get_id_classes db id query)
  ∧ wellPaged (subjects_get_id_users db id query)
  ∧ wellPaged (classes_get ilike db query)
  ∧ wellPaged (classes_get_id_users db id query).
Proof.
  destruct (every_list_route_is_paged ilike db id query)
    as (H1 & H2 & H3 & H4 & H5 & H6 & H7 & H8).
  split; [exact (paged_is_well _ _ H1)|].
  split; [exact (paged_is_well _ _ H2)|].
  split; [exact (paged_is_well _ _ H3)|].
  split; [exact (paged_is_well _ _ H4)|].
  split; [exact (paged_is_well _ _ H5)|].
  split; [exact (paged_is_well _ _ H6)|].
  split; [exact (paged_is_well _ _ H7) | exact (paged_is_well _ _ H8)].
Qed.

Lemma list_responses_are_well_paged_witness :
  totalPages {| page := Js.of_Z 1; limit := Js.of_Z 10;
                total := Js.of_Z 3; totalPages := Js.of_Z 1 |}
  = Js.Math_ceil (Js.div (Js.of_Z 3) (Js.of_Z 10)).
Proof.
  assert (E : users_get anyMatch sampleDb ∅
              = res_json 200 (ListBody (user sampleDb)
                  {| page := Js.of_Z 1; limit := Js.of_Z 10;
                     total := Js.of_Z 3; totalPages := Js.of_Z 1 |}))
    by (vm_compute; reflexivity).
  assert (Hlim : Js.leb (Js.of_Z 1) (Js.of_Z 10) = true) by (vm_compute; reflexivity).
  pose proof (list_responses_are_well_paged anyMatch sampleDb "t1" ∅) as [H _].
  pose proof (H _ _ E Hlim) as [Htp _].
  exact Htp.
Defined.

(** C4.  On [GET /subjects/:id/users] and [GET /classes/:id/users] a role
    parameter other than the string "teacher" or "student" is answered
    with 400; on [GET /users/:id/departments] and [GET /users/:id/subjects]
    an existing user whose stored role is neither is answered with 200 and
    the empty envelope [{page: 1, limit: 0, total: 0, totalPages: 0}],
    whatever page and limit the query asks for. *)
Theorem role_parameter_asymmetry (db : Db) (id : string) (query : gmap string qvalue) :
  (query !! "role" ≠ Some (QString "teacher") →
   query !! "role" ≠ Some (QString "student") →
   status (subjects_get_id_users db id query) = 400
   ∧ status (classes_get_id_users db id query) = 400)
  ∧ ((∃ u, u ∈ user db ∧ user_id u = id) →
     (∀ u, u ∈ user db → user_id u = id →
           user_role u ≠ "teacher" ∧ user_role u ≠ "student") →
     users_get_id_departments db id query
       = res_json 200 (ListBody []
           {| page := Js.of_Z 1; limit := Js.of_Z 0;
              total := Js.of_Z 0; totalPages := Js.of_Z 0 |})
     ∧ users_get_id_subjects db id query
       = res_json 200 (ListBody []
           {| page := Js.of_Z 1; limit := Js.of_Z 0;
              total := Js.of_Z 0; totalPages := Js.of_Z 0 |})).
Proof.
  split.
  - intros Ht Hs.
    unfold subjects_get_id_users, classes_get_id_users.
    destruct (query !! "role") as [[role| |]|]; simpl.
    + assert (Hr : bool_decide (role ≠ "teacher") && bool_decide (role ≠ "student") = true).
      { apply andb_true_iff. split; apply bool_decide_eq_true; congruence. }
      rewrite Hr.
      split; destruct (negb _); reflexivity.
    + split; destruct (negb _); reflexivity.
    + split; destruct (negb _); reflexivity.
    + split; destruct (negb _); reflexivity.
  - intros (u & Hu & Hid) Hrole.
    destruct (where_cons_of_elem (λ u, bool_decide (user_id u = id)) (user db) u Hu)
      as (b & l & E); [by apply bool_decide_eq_true|].
    destruct (where_head _ _ _ _ E) as [Hb Hin].
    apply bool_decide_eq_true in Hb.
    destruct (Hrole b Hin Hb) as [Hnt Hns].
    unfold users_get_id_departments, users_get_id_subjects.
    rewrite E. simpl.
    rewrite (bool_decide_eq_true_2 _ Hnt), (bool_decide_eq_true_2 _ Hns).
    simpl. split; reflexivity.
Qed.

Lemma role_parameter_asymmetry_witness :
  status (subjects_get_id_users emptyDb "1" {[ "role" := QString "admin" ]}) = 400
  ∧ users_get_id_departments sampleDb "a1" {[ "limit" := QString "25" ]}
    = res_json 200 (ListBody []
        {| page := Js.of_Z 1; limit := Js.of_Z 0;
           total := Js.of_Z 0; totalPages := Js.of_Z 0 |}).
Proof.
  split.
  - destruct (role_parameter_asymmetry emptyDb "1" {[ "role" := QString "admin" ]})
      as [H _].
    apply H; vm_compute; discriminate.
  - destruct (role_parameter_asymmetry sampleDb "a1" {[ "limit" := QString "25" ]})
      as [_ H].
    apply H.
    + exists (sampleUser "a1" "admin" 2). split; [|reflexivity].
      unfold sampleDb. simpl. apply elem_of_cons. right. apply elem_of_cons. by left.
    + intros u Hu Hid. unfold sampleDb in Hu. simpl in Hu.
      repeat (apply elem_of_cons in Hu as [->|Hu]); try discriminate Hid;
        [split; discriminate | by apply elem_of_nil in Hu].
Defined.

(** C5 (counterexample).  When [Math.random()] returns 0.5, whose base-36
    string is [0.i], the invite code is the one character [i]; so it is
    for 0.9166666666666667, whose string is [0.x]. *)
Lemma invite_code_of_half_has_one_character :
  valid_binary Js.prec Js.emax (Js.Number "0.5") = true
  ∧ Js.leb (Js.of_Z 0) (Js.Number "0.5") = true
  ∧ Js.ltb (Js.Number "0.5") (Js.of_Z 1) = true
  ∧ Js.toString36 (Js.Number "0.5") = "0.i"
  ∧ cv_inviteCode (classValues ∅ (Js.Number "0.5")) = "i"
  ∧ String.length (cv_inviteCode (classValues ∅ (Js.Number "0.5"))) ≠ 7%nat
  ∧ Js.toString36 (Js.Number "0.9166666666666667") = "0.x"
  ∧ cv_inviteCode (classValues ∅ (Js.Number "0.9166666666666667")) = "x".
Proof. vm_compute. repeat split; try reflexivity. discriminate. Qed.

(** C5 (amended).  When the insert of [POST /classes] returns a row, the
    answer is 201 with that row as [data], and the values handed to the
    store have an empty schedule list and the generated invite code; for
    every value of [Math.random()] in [0, 1) the code has at most 7
    characters, all of them in [0-9a-z], and exactly 7 when the base-36
    string of the value, as the engine writes it in binary64, has at least
    7 fraction digits. *)
Theorem post_classes_stores_generated_code
    (insertClass : Db → ClassValues → Result (list Created) * Db)
    (db db' : Db) (random : Js.number) (body : gmap string json)
    (created : Created) (rest : list Created) :
  valid_binary Js.prec Js.emax random = true →
  Js.leb (Js.of_Z 0) random = true →
  Js.ltb random (Js.of_Z 1) = true →
  insertClass db (classValues body random) = (Ok (created :: rest), db') →
  classes_post insertClass db random body = (res_json 201 (DataBody created), db')
  ∧ cv_schedules (classValues body random) = []
  ∧ cv_inviteCode (classValues body random) = inviteCodeOf random
  ∧ (String.length (inviteCodeOf random) ≤ 7)%nat
  ∧ base36 (inviteCodeOf random)
  ∧ ((9 ≤ String.length (Js.toString36 random))%nat →
     String.length (inviteCodeOf random) = 7%nat).
Proof.
  intros Hv H0 H1 E.
  split; [unfold classes_post; rewrite E; reflexivity|].
  split; [reflexivity|]. split; [reflexivity|].
  split; [apply substring_length_le|].
  split; [by apply inviteCode_base36|].
  intros Hlen. unfold inviteCodeOf, Js.substring.
  apply substring_length_full. lia.
Qed.

(** A value with a long base-36 string: [0.q18eymxnui], of which the code
    takes [q18eymx]; and one whose string the rounding of the engine ends
    after two digits and some zeros, [0.43000000002]. *)
Lemma post_classes_stores_generated_code_witness :
  classes_post oneRowClass emptyDb (Js.Number "0.7231742029971469")
      {[ "name" := JString "Algebra I" ]}
  = (res_json 201 (DataBody {| created_id := 1 |}), emptyDb)
  ∧ cv_schedules (classValues {[ "name" := JString "Algebra I" ]}
                    (Js.Number "0.7231742029971469")) = []
  ∧ cv_inviteCode (classValues {[ "name" := JString "Algebra I" ]}
                     (Js.Number "0.7231742029971469"))
    = "q18eymx"
  ∧ String.length (inviteCodeOf (Js.Number "0.11342592592592593")) = 7%nat
  ∧ inviteCodeOf (Js.Number "0.11342592592592593") = "4300000".
Proof.
  assert (Hv : valid_binary Js.prec Js.emax (Js.Number "0.7231742029971469") = true)
    by (vm_compute; reflexivity).
  assert (H0 : Js.leb (Js.of_Z 0) (Js.Number "0.7231742029971469") = true)
    by (vm_compute; reflexivity).
  assert (H1 : Js.ltb (Js.Number "0.7231742029971469") (Js.of_Z 1) = true)
    by (vm_compute; reflexivity).
  assert (Hc : inviteCodeOf (Js.Number "0.7231742029971469") = "q18eymx")
    by (vm_compute; reflexivity).
  pose proof (post_classes_stores_generated_code oneRowClass emptyDb emptyDb
                (Js.Number "0.7231742029971469") {[ "name" := JString "Algebra I" ]}
                {| created_id := 1 |} [] Hv H0 H1 eq_refl)
    as (Hpost & Hsched & Hcode & _).
  assert (Hv' : valid_binary Js.prec Js.emax (Js.Number "0.11342592592592593") = true)
    by (vm_compute; reflexivity).
  assert (H0' : Js.leb (Js.of_Z 0) (Js.Number "0.11342592592592593") = true)
    by (vm_compute; reflexivity).
  assert (H1' : Js.ltb (Js.Number "0.11342592592592593") (Js.of_Z 1) = true)
    by (vm_compute; reflexivity).
  assert (Hs : Js.toString36 (Js.Number "0.11342592592592593") = "0.43000000002")
    by (vm_compute; reflexivity).
  pose proof (post_classes_stores_generated_code oneRowClass emptyDb emptyDb
                (Js.Number "0.11342592592592593") ∅
                {| created_id := 1 |} [] Hv' H0' H1' eq_refl)
    as (_ & _ & _ & _ & _ & Hfull).
  split; [exact Hpost|]. split; [exact Hsched|].
  split; [rewrite Hcode; exact Hc|].
  split; [apply Hfull; rewrite Hs; simpl; lia | vm_compute; reflexivity].
Defined.

(** C6 (counterexample).  [limit=2.5] gives the effective limit 2.5, which
    is no integer, and [limit=abc] or [page=abc] gives NaN, which is not at
    least 1. *)
Lemma limit_is_not_always_an_integer_at_least_one :
  limitPerPageOf (Some (QString "2.5")) = Js.Number "2.5"
  ∧ Js.isInteger (limitPerPageOf (Some (QString "2.5"))) = false
  ∧ limitPerPageOf (Some (QString "abc")) = Js.NaN
  ∧ Js.leb (Js.of_Z 1) (limitPerPageOf (Some (QString "abc"))) = false
  ∧ currentPageOf (Some (QString "abc")) = Js.NaN
  ∧ Js.leb (Js.of_Z 1) (currentPageOf (Some (QString "abc"))) = false.
Proof. vm_compute. repeat split; reflexivity. Qed.

(** C6 (amended).  [page] and [limit] are coerced to numbers with unary plus
    and raised to at least 1 with [Math.max]: an absent value gives page 1
    and limit 10; a value whose coercion is not NaN gives a number of at
    least 1, the coerced number itself or 1, and 1 whenever the coerced
    number is at most 1 (0 and negative numbers); an integer stays an
    integer.  For an integer page [p] and limit [l] the offset is the
    integer [(p - 1) * l] and the window is [l] rows from that row on.
    Every 200 list response with a limit of at least 1 carries the computed
    page and limit and the window at the offset
    [(page - 1) * limit].  A coercion to NaN is left out. *)
Theorem page_and_limit_raised_to_one (ilike : string → string → bool) (db : Db)
    (id : string) (query : gmap string qvalue) (v : option qvalue) :
  currentPageOf None = Js.of_Z 1
  ∧ limitPerPageOf None = Js.of_Z 10
  ∧ (Js.isNaN (unaryPlus v 1) = false →
       Js.leb (Js.of_Z 1) (currentPageOf v) = true
       ∧ (currentPageOf v = unaryPlus v 1 ∨ currentPageOf v = Js.of_Z 1))
  ∧ (Js.isNaN (unaryPlus v 10) = false →
       Js.leb (Js.of_Z 1) (limitPerPageOf v) = true
       ∧ (limitPerPageOf v = unaryPlus v 10 ∨ limitPerPageOf v = Js.of_Z 1))
  ∧ (Js.leb (unaryPlus v 1) (Js.of_Z 1) = true → currentPageOf v = Js.of_Z 1)
  ∧ (Js.leb (unaryPlus v 10) (Js.of_Z 1) = true → limitPerPageOf v = Js.of_Z 1)
  ∧ (Js.isInteger (unaryPlus v 1) = true → Js.isInteger (currentPageOf v) = true)
  ∧ (Js.isInteger (unaryPlus v 10) = true → Js.isInteger (limitPerPageOf v) = true)
  ∧ (∀ (A : Type) (rows : list A) (rawPage rawLimit : option qvalue) (p l : Z),
       unaryPlus rawPage 1 = Js.of_Z p →
       unaryPlus rawLimit 10 = Js.of_Z l →
       1 ≤ p < 2 ^ 53 → 1 ≤ l < 2 ^ 53 → (p - 1) * l < 2 ^ 53 →
       currentPageOf rawPage = Js.of_Z p
       ∧ limitPerPageOf rawLimit = Js.of_Z l
       ∧ offsetOf (currentPageOf rawPage) (limitPerPageOf rawLimit)
         = Js.of_Z ((p - 1) * l)
       ∧ Orm.limitOffset (limitPerPageOf rawLimit)
           (offsetOf (currentPageOf rawPage) (limitPerPageOf rawLimit)) rows
         = Ok (take (Z.to_nat l) (drop (Z.to_nat ((p - 1) * l)) rows)))
  ∧ answersPaged (users_get ilike db query) query
  ∧ answersPaged (users_get_id_departments db id query) query
  ∧ answersPaged (users_get_id_subjects db id query) query
  ∧ answersPaged (subjects_get ilike db query) query
  ∧ answersPaged (subjects_get_id_classes db id query) query
  ∧ answersPaged (subjects_get_id_users db id query) query
  ∧ answersPaged (classes_get ilike db query) query
  ∧ answersPaged (classes_get_id_users db id query) query.
Proof.
  split; [reflexivity|]. split; [reflexivity|].
  split; [apply max_one_cases|]. split; [apply max_one_cases|].
  split; [apply max_one_below|]. split; [apply max_one_below|].
  split; [apply max_one_integer|]. split; [apply max_one_integer|].
  split; [|apply every_list_route_is_paged].
  intros A rows rawPage rawLimit p l Ep El Hp Hl Hpl.
  assert (Hcp : currentPageOf rawPage = Js.of_Z p)
    by (unfold currentPageOf; rewrite Ep; by apply max_one_of_Z).
  assert (Hcl : limitPerPageOf rawLimit = Js.of_Z l)
    by (unfold limitPerPageOf; rewrite El; by apply max_one_of_Z).
  rewrite Hcp, Hcl. split; [reflexivity|]. split; [reflexivity|].
  split; [by apply offsetOf_integers | by apply window_of_integers].
Qed.

Lemma page_and_limit_raised_to_one_witness :
  limitPerPageOf (Some (QString "0")) = Js.of_Z 1
  ∧ Js.leb (Js.of_Z 1) (currentPageOf (Some (QString "-3"))) = true
  ∧ Orm.limitOffset (limitPerPageOf (Some (QString "2")))
      (offsetOf (currentPageOf (Some (QString "3"))) (limitPerPageOf (Some (QString "2"))))
      [10; 11; 12; 13; 14; 15; 16]%Z
    = Ok (take (Z.to_nat 2) (drop (Z.to_nat ((3 - 1) * 2)) [10; 11; 12; 13; 14; 15; 16]%Z)).
Proof.
  destruct (page_and_limit_raised_to_one anyMatch emptyDb "1" ∅ (Some (QString "0")))
    as (_ & _ & _ & _ & _ & H0 & _).
  destruct (page_and_limit_raised_to_one anyMatch emptyDb "1" ∅ (Some (QString "-3")))
    as (_ & _ & Hneg & _ & _ & _ & _ & _ & Hint & _).
  split; [apply H0; vm_compute; reflexivity|].
  split; [apply Hneg; vm_compute; reflexivity|].
  apply (Hint Z [10; 11; 12; 13; 14; 15; 16] (Some (QString "3")) (Some (QString "2")) 3 2).
  - vm_compute; reflexivity.
  - vm_compute; reflexivity.
  - split; [lia | reflexivity].
  - split; [lia | reflexivity].
  - reflexivity.
Defined.




(** C8.  When the insert of [POST /subjects] or [POST /classes] resolves to
    no row, [throw Error] reaches the [catch] block: the answer is 500 with
    an error body, and no 201 is sent. *)
Theorem insert_without_row_is_500
    (insertSubject : Db → SubjectValues → Result (list Created) * Db)
    (insertClass : Db → ClassValues → Result (list Created) * Db)
    (db db' : Db) (random : Js.number) (body : gmap string json) :
  (insertSubject db (subjectValues body) = (Ok [], db') →
     subjects_post insertSubject db body
       = (res_json 500 (ErrorBody "Failed to create subject"), db')
     ∧ status (subjects_post insertSubject db body).1 ≠ 201)
  ∧ (insertClass db (classValues body random) = (Ok [], db') →
     classes_post insertClass db random body
       = (res_json 500 (ErrorBody "Failed to create class"), db')
     ∧ status (classes_post insertClass db random body).1 ≠ 201).
Proof.
  split; intros E.
  - unfold subjects_post. rewrite E. simpl. split; [reflexivity | discriminate].
  - unfold classes_post. rewrite E. simpl. split; [reflexivity | discriminate].
Qed.

Lemma insert_without_row_is_500_witness :
  subjects_post noRowSubject emptyDb ∅
    = (res_json 500 (ErrorBody "Failed to create subject"), emptyDb)
  ∧ classes_post noRowClass emptyDb (Js.Number "0.5") ∅
    = (res_json 500 (ErrorBody "Failed to create class"), emptyDb).
Proof.
  destruct (insert_without_row_is_500 noRowSubject noRowClass emptyDb emptyDb
              (Js.Number "0.5") ∅) as [Hs Hc].
  split; [apply Hs | apply Hc]; reflexivity.
Defined.

(** C9.  [GET /users/:id], [GET /users/:id/departments] and
    [GET /users/:id/subjects] compare the id string as it is with the stored
    ids: an id no user has is answered with 404, an id some user has is
    found whatever it looks like, and none of the three routes answers 400. *)
Theorem users_routes_take_any_id (db : Db) (id : string) (query : gmap string qvalue) :
  ((∀ u, u ∈ user db → user_id u ≠ id) →
     users_get_id db id = res_json 404 (ErrorBody "User not found")
     ∧ users_get_id_departments db id query = res_json 404 (ErrorBody "User not found")
     ∧ users_get_id_subjects db id query = res_json 404 (ErrorBody "User not found"))
  ∧ (∀ u, u ∈ user db → user_id u = id → status (users_get_id db id) = 200)
  ∧ status (users_get_id db id) ≠ 400
  ∧ status (users_get_id_departments db id query) ≠ 400
  ∧ status (users_get_id_subjects db id query) ≠ 400.
Proof.
  split; [|split; [|split; [|split]]].
  - intros Hno.
    assert (E : Orm.where_ (λ u, bool_decide (user_id u = id)) (user db) = []).
    { apply where_nil. intros u Hu. apply bool_decide_eq_false. auto. }
    unfold users_get_id, users_get_id_departments, users_get_id_subjects.
    rewrite E. simpl. auto.
  - intros u Hu Hid.
    destruct (where_cons_of_elem (λ u, bool_decide (user_id u = id)) (user db) u Hu)
      as (b & l & E); [by apply bool_decide_eq_true|].
    unfold users_get_id. rewrite E. reflexivity.
  - unfold users_get_id. branches.
  - unfold users_get_id_departments, tryCatch. branches.
  - unfold users_get_id_subjects, tryCatch. branches.
Qed.

Lemma users_routes_take_any_id_witness :
  users_get_id sampleDb "not-a-number" = res_json 404 (ErrorBody "User not found")
  ∧ status (users_get_id sampleDb "t1") = 200.
Proof.
  destruct (users_routes_take_any_id sampleDb "not-a-number" ∅) as [H404 _].
  destruct (users_routes_take_any_id sampleDb "t1" ∅) as (_ & H200 & _).
  split.
  - apply H404. intros u Hu. unfold sampleDb in Hu. simpl in Hu.
    repeat (apply elem_of_cons in Hu as [->|Hu]); try discriminate.
    by apply elem_of_nil in Hu.
  - apply (H200 (sampleUser "t1" "teacher" 3)); [|reflexivity].
    unfold sampleDb. simpl. apply elem_of_cons. by left.
Defined.

(** C10.  [POST /classes] reads eight fields of the body and neither
    [inviteCode] nor [schedules]: two bodies that agree on every other key
    give the same values to the store, with the generated invite code and
    an empty schedule list, and the same answer. *)
Theorem post_classes_ignores_inviteCode_and_schedules
    (insertClass : Db → ClassValues → Result (list Created) * Db)
    (db : Db) (random : Js.number) (b1 b2 : gmap string json) :
  (∀ k, k ≠ "inviteCode" → k ≠ "schedules" → b1 !! k = b2 !! k) →
  classValues b1 random = classValues b2 random
  ∧ cv_inviteCode (classValues b1 random) = inviteCodeOf random
  ∧ cv_schedules (classValues b1 random) = []
  ∧ classes_post insertClass db random b1 = classes_post insertClass db random b2.
Proof.
  intros Hb.
  assert (E : classValues b1 random = classValues b2 random).
  { unfold classValues. rewrite !Hb by discriminate. reflexivity. }
  split; [exact E|]. split; [reflexivity|]. split; [reflexivity|].
  unfold classes_post. rewrite E. reflexivity.
Qed.

Lemma post_classes_ignores_inviteCode_and_schedules_witness :
  classValues {[ "name" := JString "Algebra I" ]} (Js.Number "0.5")
  = classValues (<[ "inviteCode" := JString "mine" ]>
                   (<[ "schedules" := JArray [JString "mon"] ]>
                      {[ "name" := JString "Algebra I" ]}))
      (Js.Number "0.5").
Proof.
  apply (post_classes_ignores_inviteCode_and_schedules noRowClass emptyDb).
  intros k H1 H2. rewrite !lookup_insert_ne by congruence. reflexivity.
Defined.



(** ** The order of the listings *)

Lemma descending_transitive {A} (col : A → Z) : Transitive (Orm.descending col).
Proof. intros x y z. unfold Orm.descending. lia. Qed.

Lemma descending_total {A} (col : A → Z) : Total (Orm.descending col).
Proof. intros x y. unfold Orm.descending. lia. Qed.

Lemma sublist_StronglySorted {A} (R : relation A) (l1 l2 : list A) :
  l1 `sublist_of` l2 → StronglySorted R l2 → StronglySorted R l1.
Proof.
  induction 1 as [|x l1 l2 Hs IH|x l1 l2 Hs IH]; intros H2.
  - constructor.
  - apply StronglySorted_inv in H2 as [H2 Hx]. constructor; [by apply IH|].
    rewrite Forall_forall in Hx |- *. intros y Hy. apply Hx.
    exact (elem_of_sublist _ _ _ Hy Hs).
  - apply StronglySorted_inv in H2 as [H2 _]. by apply IH.
Qed.

Lemma limitOffset_sorted {A} (col : A → Z) (lim off : Js.number) (rows data : list A) :
  Orm.limitOffset lim off (Orm.orderByDesc col rows) = Ok data →
  StronglySorted (Orm.descending col) data.
Proof.
  intros E. eapply sublist_StronglySorted; [eapply limitOffset_sublist, E|].
  unfold Orm.orderByDesc.
  apply (@StronglySorted_merge_sort _ (Orm.descending col) _
           (descending_transitive col) (descending_total col)).
Qed.

Ltac sorted_page :=
  intros data pag E;
  unfold tryCatch, mbind, Result_bind in E;
  repeat (simpl in *; simplify_eq; try done; case_match);
  simpl in *; simplify_eq;
  first [ by constructor | eapply limitOffset_sorted; eassumption ].

Lemma users_get_sorted ilike db query :
  ∀ data pag, users_get ilike db query = res_json 200 (ListBody data pag) →
    StronglySorted (Orm.descending user_createdAt) data.
Proof. unfold users_get. sorted_page. Qed.

Lemma users_get_id_departments_sorted db id query :
  ∀ data pag, users_get_id_departments db id query = res_json 200 (ListBody data pag) →
    StronglySorted (Orm.descending dept_createdAt) data.
Proof. unfold users_get_id_departments. sorted_page. Qed.

Lemma users_get_id_subjects_sorted db id query :
  ∀ data pag, users_get_id_subjects db id query = res_json 200 (ListBody data pag) →
    StronglySorted (Orm.descending (λ r : Subject * option Department, subj_createdAt r.1)) data.
Proof. unfold users_get_id_subjects. sorted_page. Qed.

Lemma subjects_get_sorted ilike db query :
  ∀ data pag, subjects_get ilike db query = res_json 200 (ListBody data pag) →
    StronglySorted (Orm.descending (λ r : Subject * option Department, subj_createdAt r.1)) data.
Proof. unfold subjects_get. sorted_page. Qed.

Lemma subjects_get_id_classes_sorted db id query :
  ∀ data pag, subjects_get_id_classes db id query = res_json 200 (ListBody data pag) →
    StronglySorted (Orm.descending (λ r : Class * option User, class_createdAt r.1)) data.
Proof. unfold subjects_get_id_classes. sorted_page. Qed.

Lemma subjects_get_id_users_sorted db id query :
  ∀ data pag, subjects_get_id_users db id query = res_json 200 (ListBody data pag) →
    StronglySorted (Orm.descending user_createdAt) data.
Proof. unfold subjects_get_id_users. sorted_page. Qed.

Lemma classes_get_sorted ilike db query :
  ∀ data pag, classes_get ilike db query = res_json 200 (ListBody data pag) →
    StronglySorted
      (Orm.descending (λ r : Class * option Subject * option User, class_createdAt r.1.1))
      data.
Proof. unfold classes_get. sorted_page. Qed.

Lemma classes_get_id_users_sorted db id query :
  ∀ data pag, classes_get_id_users db id query = res_json 200 (ListBody data pag) →
    StronglySorted (Orm.descending user_createdAt) data.
Proof. unfold classes_get_id_users. sorted_page. Qed.

Lemma StronglySorted_lookup {A} (R : relation A) (l : list A) (i j : nat) (x y : A) :
  StronglySorted R l → (i < j)%nat → l !! i = Some x → l !! j = Some y → R x y.
Proof.
  intros Hs. revert i j. induction Hs as [|a l Hs IH Ha]; intros i j Hij Hi Hj.
  - rewrite lookup_nil in Hi. discriminate.
  - destruct j as [|j]; [lia|]. destruct i as [|i]; simpl in *.
    + injection Hi as <-. rewrite Forall_forall in Ha. apply Ha.
      by eapply list_elem_of_lookup_2.
    + apply (IH i j); [lia | assumption | assumption].
Qed.

Lemma newestFirst_of_sorted {A} (col : A → Z) (r : Response A) :
  (∀ data pag, r = res_json 200 (ListBody data pag) →
     StronglySorted (Orm.descending col) data) →
  newestFirst col r.
Proof.
  intros H data pag E i j x y Hij Hi Hj.
  exact (StronglySorted_lookup (Orm.descending col) data i j x y (H data pag E) Hij Hi Hj).
Qed.


(** ** Rows of the detail routes *)

Lemma joined_partner {A B} (on : A → B → bool) (rows : list A) (table : list B)
    (a : A) (ob : option B) :
  (a, ob) ∈ Orm.leftJoin on rows table →
  match ob with
  | Some b => b ∈ table ∧ on a b = true
  | None => ∀ b, b ∈ table → on a b = false
  end.
Proof. rewrite elem_of_leftJoin. tauto. Qed.

Lemma where_decide {A} (P : A → Prop) `{∀ a, Decision (P a)} (rows : list A) :
  Orm.where_ (λ a, bool_decide (P a)) rows = filter P rows.
Proof.
  unfold Orm.where_. apply list_filter_iff. intros a.
  rewrite Is_true_true. apply bool_decide_eq_true.
Qed.


(** ** Rows of the top-level listings *)

Lemma elem_of_orderByDesc {A} (col : A → Z) (rows : list A) (a : A) :
  a ∈ Orm.orderByDesc col rows ↔ a ∈ rows.
Proof. unfold Orm.orderByDesc. by rewrite merge_sort_Permutation. Qed.

Lemma orderByDesc_Permutation {A} (col : A → Z) (rows : list A) :
  Orm.orderByDesc col rows ≡ₚ rows.
Proof. apply merge_sort_Permutation. Qed.

Lemma elem_of_whereOpt {A} (conds : list (A → bool)) (rows : list A) (a : A) :
  a ∈ whereOpt (whereClauseOf conds) rows ↔ a ∈ rows ∧ ∀ c, c ∈ conds → c a = true.
Proof.
  destruct conds as [|c0 conds].
  - simpl. split; [|tauto]. intros H. split; [done|]. intros c Hc. inversion Hc.
  - change (whereOpt (whereClauseOf (c0 :: conds)) rows)
      with (Orm.where_ (and_ (c0 :: conds)) rows).
    rewrite elem_of_where. unfold and_. rewrite forallb_forall. split.
    + intros [H1 H2]. split; [done|]. intros c Hc. apply H1. by apply list_elem_of_In.
    + intros [H1 H2]. split; [|done]. intros c Hc. apply H2. by apply list_elem_of_In.
Qed.

Lemma whereOpt_sublist {A} (clause : option (A → bool)) (rows : list A) :
  whereOpt clause rows `sublist_of` rows.
Proof. destruct clause; simpl; [apply sublist_filter | reflexivity]. Qed.

Lemma all_conds_2 {A} (b1 b2 : bool) (c1 c2 : A → bool) (a : A) :
  (∀ c, c ∈ ((if b1 then [c1] else []) ++ (if b2 then [c2] else []))%list → c a = true)
  ↔ (b1 = true → c1 a = true) ∧ (b2 = true → c2 a = true).
Proof.
  destruct b1, b2; simpl; split.
  all: try (intros H; split; intros _; apply H; set_solver).
  all: try (intros H; split; [discriminate || (intros _; apply H; set_solver)
                             | discriminate || (intros _; apply H; set_solver)]).
  all: intros [H1 H2] c Hc; set_unfold in Hc; destruct_or?; subst; auto; done.
Qed.

Lemma all_conds_3 {A} (b1 b2 b3 : bool) (c1 c2 c3 : A → bool) (a : A) :
  (∀ c, c ∈ ((if b1 then [c1] else []) ++ (if b2 then [c2] else [])
             ++ (if b3 then [c3] else []))%list → c a = true)
  ↔ (b1 = true → c1 a = true) ∧ (b2 = true → c2 a = true) ∧ (b3 = true → c3 a = true).
Proof.
  destruct b3.
  - destruct b1, b2; simpl; split.
    all: try (intros H; repeat split; try discriminate; intros _; apply H; set_solver).
    all: intros (H1 & H2 & H3) c Hc; set_unfold in Hc; destruct_or?; subst; auto; done.
  - rewrite app_nil_r, all_conds_2. intuition discriminate.
Qed.

Lemma role_condition (role : option string) (u : User) :
  (truthy (QString <$> role) = true →
     match QString <$> role with
     | Some (QString r) => bool_decide (user_role u = r)
     | _ => false
     end = true)
  ↔ (∀ r, role = Some r → r ≠ EmptyString → user_role u = r).
Proof.
  destruct role as [[|c r]|]; simpl; split.
  - intros _ r [= <-] Hr. done.
  - discriminate.
  - intros H r' [= <-] _. specialize (H eq_refl). by apply bool_decide_eq_true in H.
  - intros H _. apply bool_decide_eq_true. by apply H.
  - intros _ r [=].
  - discriminate.
Qed.

(** A left join on a key of the joined table keeps the rows as they are:
    every row finds at most one partner. *)
Lemma unique_partner {A B K} (on : A → B → bool) (kb : B → K) (f : A → K)
    (table : list B) (a : A) :
  NoDup (kb <$> table) → (∀ b, on a b = true → kb b = f a) →
  (length (filter (λ b, on a b) table) ≤ 1)%nat.
Proof.
  intros Hnd Hon.
  assert (Hs : NoDup (kb <$> filter (λ b, on a b) table)).
  { eapply sublist_NoDup; [exact Hnd|]. apply fmap_sublist, sublist_filter. }
  assert (Hk : ∀ b, b ∈ filter (λ b, on a b) table → kb b = f a).
  { intros b Hb. apply list_elem_of_filter in Hb as [Hb _].
    apply Hon. by apply Is_true_true. }
  destruct (filter (λ b, on a b) table) as [|b1 [|b2 l]]; simpl; try lia.
  exfalso. simpl in Hs. apply NoDup_cons in Hs as [Hs _]. apply Hs.
  rewrite (Hk b1) by set_solver. rewrite <- (Hk b2) by set_solver. set_solver.
Qed.

Lemma leftJoin_fst {A B K} (on : A → B → bool) (kb : B → K) (f : A → K)
    (rows : list A) (table : list B) :
  NoDup (kb <$> table) → (∀ a b, on a b = true → kb b = f a) →
  (Orm.leftJoin on rows table).*1 = rows.
Proof.
  intros Hnd Hon. unfold Orm.leftJoin.
  induction rows as [|a rows IH]; [reflexivity|].
  rewrite bind_cons, fmap_app, IH.
  pose proof (unique_partner on kb f table a Hnd (Hon a)) as Hlen.
  destruct (filter (λ b, on a b) table) as [|b1 [|b2 l]]; simpl in *; try lia;
    reflexivity.
Qed.

Lemma elem_of_leftJoin_key {A B K} `{EqDecision K} (f : A → K) (kb : B → K)
    (rows : list A) (table : list B) (a : A) (ob : option B) :
  (a, ob) ∈ Orm.leftJoin (λ a b, bool_decide (f a = kb b)) rows table ↔
  a ∈ rows ∧ match ob with
             | Some b => b ∈ table ∧ kb b = f a
             | None => ∀ b, b ∈ table → kb b ≠ f a
             end.
Proof.
  rewrite elem_of_leftJoin. apply and_iff_compat_l. destruct ob as [b|].
  - rewrite bool_decide_eq_true. intuition congruence.
  - split; intros H b Hb; specialize (H b Hb).
    + apply bool_decide_eq_false in H. congruence.
    + apply bool_decide_eq_false. congruence.
Qed.

Lemma ilikeNullable_true {A} (ilike : string → string → bool) (col : A → string)
    (o : option A) (pattern : string) :
  ilikeNullable ilike (col <$> o) pattern = true
  ↔ ∃ a, o = Some a ∧ ilike (col a) pattern = true.
Proof.
  destruct o as [a|]; simpl.
  - split; [eauto | by intros (a' & [= <-] & H)].
  - split; [discriminate | by intros (a' & [=] & _)].
Qed.

Lemma where_fst {A B} (cond : A → bool) (rows : list (A * B)) :
  (Orm.where_ (λ r, cond r.1) rows).*1 = Orm.where_ cond rows.*1.
Proof.
  unfold Orm.where_. induction rows as [|[a b] rows IH]; [reflexivity|].
  rewrite fmap_cons, !filter_cons. simpl.
  destruct (decide (cond a)); [rewrite fmap_cons|]; simpl; by rewrite IH.
Qed.


(** ** Decimal strings *)

Ltac digit_cases H :=
  match type of H with
  | 48 ≤ ?c ≤ 57 =>
      let Hc := fresh "Hc" in
      assert (c = 48 ∨ c = 49 ∨ c = 50 ∨ c = 51 ∨ c = 52 ∨ c = 53 ∨ c = 54
              ∨ c = 55 ∨ c = 56 ∨ c = 57) as Hc by lia;
      clear H; destruct_or! Hc; subst c
  end.

Lemma digitValue_char (d : N) :
  (d < 10)%N →
  48 ≤ Js.code (pretty_N_char d) ≤ 57
  ∧ Js.digitValue 10 (Js.code (pretty_N_char d)) = Some (Z.of_N d).
Proof.
  intros Hd.
  assert (d = 0 ∨ d = 1 ∨ d = 2 ∨ d = 3 ∨ d = 4 ∨ d = 5 ∨ d = 6 ∨ d = 7 ∨ d = 8
          ∨ d = 9)%N as Hc by lia.
  destruct_or! Hc; subst d; vm_compute; split; try split; congruence.
Qed.

Lemma readDigits_app (ds rest : list Z) (v k : Z) :
  (∀ a n r, Js.readDigits 10 a n (ds ++ r)%list = Js.readDigits 10 (a * 10 ^ k + v) (n + k) r) →
  0 ≤ k →
  ∀ (d c : Z), Js.digitValue 10 c = Some d →
  ∀ a n r, Js.readDigits 10 a n ((ds ++ [c]) ++ r)%list
           = Js.readDigits 10 (a * 10 ^ (k + 1) + (v * 10 + d)) (n + (k + 1)) r.
Proof.
  intros H Hk d c Hc a n r. rewrite <- app_assoc. simpl. rewrite H. simpl.
  rewrite Hc. f_equal; [|lia]. rewrite Z.pow_add_r by lia. ring.
Qed.

(** The digits that [pretty_N_go] writes in front of a string. *)
Lemma pretty_N_go_digits (x : N) :
  ∃ ds : list Z,
    Forall (λ c, 48 ≤ c ≤ 57) ds
    ∧ ((0 < x)%N → ds ≠ [])
    ∧ (∀ s, codes (pretty_N_go x s) = (ds ++ codes s)%list)
    ∧ (∀ a n r, Js.readDigits 10 a n (ds ++ r)%list
                = Js.readDigits 10 (a * 10 ^ Z.of_nat (length ds) + Z.of_N x)
                    (n + Z.of_nat (length ds)) r).
Proof.
  induction (N.lt_wf_0 x) as [x _ IH].
  destruct (N.eq_dec x 0%N) as [->|Hx].
  - exists []. split; [constructor|]. split; [lia|]. split; [reflexivity|].
    intros a n r. simpl. f_equal; lia.
  - assert (Hpos : (0 < x)%N) by lia.
    destruct (IH (x `div` 10)%N) as (ds & Hds & _ & Hcodes & Hread).
    { apply N.div_lt; lia. }
    destruct (digitValue_char (x `mod` 10)%N) as [Hrange Hval].
    { apply N.mod_lt. lia. }
    exists (ds ++ [Js.code (pretty_N_char (x `mod` 10))])%list.
    split; [apply Forall_app; split; [exact Hds | by constructor]|].
    split; [intros _; by destruct ds|].
    split.
    + intros s. rewrite pretty_N_go_step by exact Hpos. rewrite Hcodes.
      rewrite <- app_assoc. reflexivity.
    + intros a n r.
      rewrite (readDigits_app ds r (Z.of_N (x `div` 10)) (Z.of_nat (length ds)) Hread
                 ltac:(lia) _ _ Hval).
      rewrite length_app. simpl length.
      replace (Z.of_nat (length ds + 1)) with (Z.of_nat (length ds) + 1) by lia.
      f_equal. f_equal.
      rewrite N2Z.inj_div, N2Z.inj_mod. change (Z.of_N 10) with 10.
      pose proof (Z.div_mod (Z.of_N x) 10 ltac:(lia)). lia.
Qed.

Lemma strip_digit (c : Z) (r : list Z) :
  48 ≤ c ≤ 57 ∨ c = 45 → Js.stripWhiteSpace (c :: r) = None.
Proof. intros [H| ->]; [digit_cases H|]; reflexivity. Qed.

Lemma stripRev_digit (c : Z) (r : list Z) :
  48 ≤ c ≤ 57 →
  match r with [] => True | x :: _ => 48 ≤ x ≤ 57 ∨ x = 45 end →
  Js.stripWhiteSpaceRev (c :: r) = None.
Proof.
  intros Hc Hr. destruct r as [|x r].
  - digit_cases Hc; reflexivity.
  - destruct Hr as [Hx| ->]; [digit_cases Hx|]; digit_cases Hc; reflexivity.
Qed.

Lemma trim_digits (l : list Z) (sign : list Z) :
  Forall (λ c, 48 ≤ c ≤ 57) l → l ≠ [] → sign = [] ∨ sign = [45] →
  Js.trim (sign ++ l)%list = (sign ++ l)%list.
Proof.
  intros Hl Hne Hsign. unfold Js.trim.
  assert (Hstart : Js.trimStartFuel (length (sign ++ l)%list) (sign ++ l)%list
                   = (sign ++ l)%list).
  { destruct Hsign as [-> | ->]; cbn [app length].
    - destruct Hl as [|c r Hc Hr]; [done|]. cbn [length Js.trimStartFuel].
      rewrite strip_digit by auto. done.
    - cbn [Js.trimStartFuel]. rewrite strip_digit by auto. done. }
  rewrite Hstart.
  assert (Hrev : ∃ c r, rev (sign ++ l)%list = c :: r ∧ 48 ≤ c ≤ 57
                        ∧ match r with [] => True | x :: _ => 48 ≤ x ≤ 57 ∨ x = 45 end).
  { rewrite rev_app_distr.
    assert (Hrl : Forall (λ c, 48 ≤ c ≤ 57) (rev l)) by (by apply Forall_rev).
    destruct (rev l) as [|c r] eqn:E.
    { apply (f_equal (@rev Z)) in E. rewrite rev_involutive in E. done. }
    exists c, (r ++ rev sign)%list. split; [reflexivity|].
    apply Forall_cons in Hrl as [Hc Hr]. split; [exact Hc|].
    destruct Hr as [|x r Hx Hr]; simpl.
    - destruct Hsign as [-> | ->]; simpl; auto.
    - auto. }
  destruct Hrev as (c & r & Hrev & Hc & Hr).
  rewrite Hrev.
  assert (Hlen : length (sign ++ l)%list = S (length r)).
  { rewrite <- length_rev, Hrev. reflexivity. }
  rewrite Hlen. cbn [Js.trimEndFuel]. rewrite stripRev_digit by assumption.
  rewrite <- Hrev. apply rev_involutive.
Qed.

Lemma readPrefixed_digits (l : list Z) (sign : list Z) :
  Forall (λ c, 48 ≤ c ≤ 57) l → sign = [] ∨ sign = [45] →
  Js.readPrefixed (sign ++ l)%list = None.
Proof.
  intros Hl [-> | ->]; simpl; [|reflexivity].
  destruct Hl as [|c r Hc Hr]; [reflexivity|].
  destruct Hr as [|x r Hx Hr].
  - digit_cases Hc; reflexivity.
  - digit_cases Hc; try reflexivity. digit_cases Hx; reflexivity.
Qed.

Lemma readUnsigned_digits (s : bool) (l : list Z) (v k : Z) :
  Forall (λ c, 48 ≤ c ≤ 57) l →
  Js.readDigits 10 0 0 l = (v, k, []) → 0 < k →
  Js.readUnsigned s l = Js.ofDecimal s v 0.
Proof.
  intros Hl Hread Hk. unfold Js.readUnsigned.
  destruct (decide _) as [Heq|_].
  { exfalso. rewrite Heq in Hl. apply Forall_cons in Hl as [Hc _]. vm_compute in Hc.
    destruct Hc as [_ Hc]. by apply Hc. }
  rewrite Hread. simpl.
  rewrite (proj2 (Z.eqb_neq (k + 0) 0)) by lia.
  reflexivity.
Qed.

(** [Number] of the decimal digits of a natural number, and of the digits
    after a minus sign. *)
Lemma Number_of_digits (s : string) (l : list Z) (v k : Z) :
  codes s = l → Forall (λ c, 48 ≤ c ≤ 57) l → l ≠ [] →
  Js.readDigits 10 0 0 l = (v, k, []) → 0 < k →
  Js.Number s = Js.ofDecimal false v 0
  ∧ Js.Number (String "-" s) = Js.ofDecimal true v 0.
Proof.
  intros Hs Hl Hne Hread Hk. split.
  - unfold Js.Number. fold (codes s). rewrite Hs.
    pose proof (trim_digits l [] Hl Hne ltac:(auto)) as Ht. cbn [app] in Ht.
    rewrite Ht.
    pose proof (readPrefixed_digits l [] Hl ltac:(auto)) as Hp. cbn [app] in Hp.
    rewrite Hp.
    destruct Hl as [|c r Hc Hr]; [done|].
    rewrite <- (readUnsigned_digits false (c :: r) v k) by (auto; by constructor).
    digit_cases Hc; reflexivity.
  - unfold Js.Number. 
    change (map Js.code (list_ascii_of_string (String "-" s)))
      with ([45] ++ codes s)%list.
    rewrite Hs, (trim_digits l [45] Hl Hne ltac:(auto)).
    rewrite (readPrefixed_digits l [45] Hl ltac:(auto)). simpl.
    by apply readUnsigned_digits with (k := k).
Qed.

Lemma pretty_N_codes (x : N) :
  ∃ l k, codes (pretty x) = l ∧ Forall (λ c, 48 ≤ c ≤ 57) l ∧ l ≠ []
         ∧ Js.readDigits 10 0 0 l = (Z.of_N x, k, []) ∧ 0 < k.
Proof.
  unfold pretty, pretty_N. destruct (decide (x = 0%N)) as [->|Hx].
  - exists [48], 1. split; [reflexivity|]. split; [repeat constructor; lia|].
    split; [done|]. split; [reflexivity | lia].
  - destruct (pretty_N_go_digits x) as (ds & Hds & Hne & Hcodes & Hread).
    exists ds, (Z.of_nat (length ds)).
    split; [rewrite Hcodes; apply app_nil_r|]. split; [exact Hds|].
    assert (ds ≠ []) by (apply Hne; lia). split; [done|]. split.
    + specialize (Hread 0 0 []). rewrite app_nil_r in Hread. rewrite Hread.
      simpl. f_equal. 
    + destruct ds; [done|]. simpl length. lia.
Qed.

Lemma ofDecimal_integer (p : positive) :
  Js.ofDecimal false (Z.pos p) 0 = Js.of_Z (Z.pos p)
  ∧ Js.ofDecimal true (Z.pos p) 0 = Js.of_Z (Z.neg p).
Proof.
  unfold Js.ofDecimal, Js.of_Z. change (0 <=? 0) with true. cbv iota.
  change (10 ^ 0) with 1. rewrite Z.mul_1_r. split; reflexivity.
Qed.

Lemma Number_pretty (z : Z) : Js.Number (pretty z) = Js.of_Z z.
Proof.
  destruct z as [|p|p].
  - reflexivity.
  - change (pretty (Z.pos p)) with (pretty (N.pos p)).
    destruct (pretty_N_codes (N.pos p)) as (l & k & Hc & Hl & Hne & Hread & Hk).
    destruct (Number_of_digits _ l _ k Hc Hl Hne Hread Hk) as [-> _].
    apply (proj1 (ofDecimal_integer p)).
  - change (pretty (Z.neg p)) with (String "-" (pretty (N.pos p))).
    destruct (pretty_N_codes (N.pos p)) as (l & k & Hc & Hl & Hne & Hread & Hk).
    destruct (Number_of_digits _ l _ k Hc Hl Hne Hread Hk) as [_ ->].
    apply (proj2 (ofDecimal_integer p)).
Qed.

Lemma of_Z_negative (z : Z) :
  0 < z < 2 ^ 53 →
  Js.of_Z (- z)
  = S754_finite true (Z.to_pos (z * 2 ^ (53 - Zdigits2 z))) (Zdigits2 z - 53).
Proof.
  intros [Hz Hlt]. unfold Js.of_Z, binary_normalize.
  destruct z as [|p|p]; try lia. simpl Z.opp.
  apply (binary_round_exact true p (Z.pos p) 0); try lia.
  apply Zdigits2_le; lia.
Qed.

Lemma to_Z_of_Z_negative (z : Z) : 0 < z < 2 ^ 53 → Js.to_Z (Js.of_Z (- z)) = Some (- z).
Proof.
  intros Hz. pose proof (to_Z_canon z Hz) as Hc.
  rewrite of_Z_negative by exact Hz. unfold canon, Js.to_Z in *.
  destruct (0 <=? Zdigits2 z - 53).
  - injection Hc as Hc. simpl. by rewrite Hc.
  - destruct (_ =? 0); [|discriminate Hc]. injection Hc as Hc. simpl. by rewrite Hc.
Qed.

Lemma max_one_of_Z_any (z : Z) :
  - 2 ^ 53 < z < 2 ^ 53 → Js.Math_max (Js.of_Z 1) (Js.of_Z z) = Js.of_Z (Z.max 1 z).
Proof.
  intros Hz. destruct (Z_lt_le_dec z 1) as [Hlt|Hge].
  - rewrite Z.max_l by lia. apply max_one_below.
    destruct (Z.eq_dec z 0) as [->|Hne]; [reflexivity|].
    replace z with (- - z) by lia. rewrite of_Z_negative by lia.
    unfold Js.leb, SFleb. rewrite compare_with_one. reflexivity.
  - rewrite Z.max_r by lia. apply max_one_of_Z. lia.
Qed.

Lemma integerParam_of_Z (z : Z) :
  - 2 ^ 31 ≤ z < 2 ^ 31 → Orm.integerParam (Js.of_Z z) = Ok z.
Proof.
  intros Hz.
  assert (H31 : 2 ^ 31 < 2 ^ 53) by (apply Z.pow_lt_mono_r; lia).
  assert (Hto : Js.to_Z (Js.of_Z z) = Some z).
  { destruct (Z_lt_le_dec z 0).
    - replace z with (- - z) by lia. apply to_Z_of_Z_negative. lia.
    - apply to_Z_of_Z. lia. }
  unfold Orm.integerParam. rewrite Hto.
  rewrite (proj2 (Z.leb_le (- 2 ^ 31) z)), (proj2 (Z.ltb_lt z (2 ^ 31))) by lia.
  reflexivity.
Qed.


(** ** Numbers: the ceiling of a quotient of integers *)

Lemma div_eucl_pair (a b : Z) : Z.div_eucl a b = (a / b, a mod b).
Proof. unfold Z.div, Z.modulo. by destruct (Z.div_eucl a b). Qed.

(** The quotient that the division algorithm hands to the rounding: for
    [t] of [dt] digits and [l] of [dl] digits the integer quotient of
    [t * 2 ^ (53 + dl - dt)] by [l]. *)
Lemma div_core_integers (t l : Z) :
  0 < t < 2 ^ 53 → 0 < l < 2 ^ 53 →
  let K := 53 + Zdigits2 l - Zdigits2 t in
  let c := 2 ^ (53 - Zdigits2 l) in
  SFdiv_core_binary Js.prec Js.emax
    (t * 2 ^ (53 - Zdigits2 t)) (Zdigits2 t - 53) (l * c) (Zdigits2 l - 53)
  = ((t * 2 ^ K) / l, - K, new_location (l * c) ((t * 2 ^ K) mod l * c)).
Proof.
  intros Ht Hl K c.
  destruct (Zdigits2_bounds t ltac:(lia)) as [Hdt1 _].
  destruct (Zdigits2_bounds l ltac:(lia)) as [Hdl1 _].
  pose proof (Zdigits2_le t 53 ltac:(lia) ltac:(lia) ltac:(lia)) as Hdt.
  pose proof (Zdigits2_le l 53 ltac:(lia) ltac:(lia) ltac:(lia)) as Hdl.
  assert (Hc : 0 < c) by (apply Z.pow_pos_nonneg; lia).
  assert (Hd1 : Zdigits2 (t * 2 ^ (53 - Zdigits2 t)) = 53)
    by (rewrite Zdigits2_shift by lia; lia).
  assert (Hd2 : Zdigits2 (l * c) = 53)
    by (unfold c; rewrite Zdigits2_shift by lia; lia).
  unfold SFdiv_core_binary. rewrite Hd1, Hd2.
  assert (He : Z.min (fexp Js.prec Js.emax
                        (53 + (Zdigits2 t - 53) - (53 + (Zdigits2 l - 53))))
                 (Zdigits2 t - 53 - (Zdigits2 l - 53)) = - K).
  { unfold fexp, emin, Js.prec, Js.emax, K. lia. }
  rewrite He.
  replace (Zdigits2 t - 53 - (Zdigits2 l - 53) - - K) with 53 by (unfold K; lia).
  cbv iota beta zeta.
  rewrite Z.shiftl_mul_pow2 by lia.
  assert (Hm : t * 2 ^ (53 - Zdigits2 t) * 2 ^ 53 = t * 2 ^ K * c).
  { unfold K, c. rewrite <- !Z.mul_assoc, <- !Z.pow_add_r by lia. do 2 f_equal. lia. }
  rewrite Hm, div_eucl_pair.
  rewrite Z.div_mul_cancel_r by lia.
  rewrite Z.mul_mod_distr_r by lia.
  reflexivity.
Qed.

Lemma new_location_cases (nb k : Z) :
  (k = 0 → new_location nb k = loc_Exact)
  ∧ (k ≠ 0 → ∃ cmp, new_location nb k = loc_Inexact cmp).
Proof.
  unfold new_location, new_location_even, new_location_odd. split.
  - intros ->. destruct (Z.even nb); reflexivity.
  - intros Hk. apply Z.eqb_neq in Hk. destruct (Z.even nb); rewrite Hk; eauto.
Qed.

Lemma loc_of_record (m : Z) (loc : location) :
  loc_of_shr_record (shr_record_of_loc m loc) = loc.
Proof. destruct loc as [|[]]; reflexivity. Qed.

Lemma shr_1_record (q : Z) (loc : location) :
  1 < q →
  shr_1 (shr_record_of_loc q loc)
  = {| shr_m := q / 2; shr_r := Z.odd q;
       shr_s := match loc with loc_Exact => false | _ => true end |}.
Proof.
  intros Hq. destruct q as [|[p|p|]|]; try lia.
  - assert (E : Z.pos p~1 / 2 = Z.pos p).
    { symmetry. apply (Z.div_unique _ _ _ 1); lia. }
    rewrite E. destruct loc as [|[]]; reflexivity.
  - assert (E : Z.pos p~0 / 2 = Z.pos p).
    { symmetry. apply (Z.div_unique _ _ _ 0); lia. }
    rewrite E. destruct loc as [|[]]; reflexivity.
Qed.

Lemma shr_fexp_53 (q e : Z) (loc : location) :
  2 ^ 52 ≤ q < 2 ^ 53 → -1074 ≤ e →
  shr_fexp Js.prec Js.emax q e loc = (shr_record_of_loc q loc, e).
Proof.
  intros Hq He. unfold shr_fexp.
  rewrite (Zdigits2_unique q 53) by (change (53 - 1) with 52; lia).
  replace (fexp Js.prec Js.emax (53 + e) - e) with 0
    by (unfold fexp, emin, Js.prec, Js.emax; lia).
  reflexivity.
Qed.

Lemma shr_fexp_54 (q e : Z) (loc : location) :
  2 ^ 53 ≤ q < 2 ^ 54 → -1075 ≤ e →
  shr_fexp Js.prec Js.emax q e loc = (shr_1 (shr_record_of_loc q loc), e + 1).
Proof.
  intros Hq He. unfold shr_fexp.
  rewrite (Zdigits2_unique q 54) by (change (54 - 1) with 53; lia).
  replace (fexp Js.prec Js.emax (54 + e) - e) with 1
    by (unfold fexp, emin, Js.prec, Js.emax; lia).
  reflexivity.
Qed.

(** The first rounding of a quotient [q] of 53 or 54 digits that lies
    strictly above [lo] and at most at [hi], where [hi] is reached only by
    an exact quotient: the rounded mantissa stays in the interval. *)
Lemma round_nearest_keeps_bounds (q lo hi : Z) (loc : location) :
  lo < q ≤ hi → (q = hi → loc = loc_Exact) →
  lo < round_nearest_even q loc ≤ hi
  ∧ q ≤ round_nearest_even q loc ≤ q + 1.
Proof.
  intros Hq Hexact. unfold round_nearest_even.
  destruct loc as [|[]]; try lia.
  - assert (q ≠ hi) by (intros E; by specialize (Hexact E)).
    destruct (Z.even q); lia.
  - assert (q ≠ hi) by (intros E; by specialize (Hexact E)). lia.
Qed.

Lemma round_nearest_halved (q lo hi : Z) (loc : location) :
  1 < q → 2 * lo < q ≤ 2 * hi →
  (q = 2 * hi → loc = loc_Exact) →
  (q = 2 * lo + 1 → loc ≠ loc_Exact) →
  let mrs := shr_1 (shr_record_of_loc q loc) in
  lo < round_nearest_even (shr_m mrs) (loc_of_shr_record mrs) ≤ hi
  ∧ q / 2 ≤ round_nearest_even (shr_m mrs) (loc_of_shr_record mrs) ≤ q / 2 + 1.
Proof.
  intros H1 Hq Hexact Hinexact mrs. unfold mrs. rewrite shr_1_record by lia.
  cbn [shr_m loc_of_shr_record]. unfold round_nearest_even.
  pose proof (Z.div_mod q 2 ltac:(lia)) as Hdm.
  pose proof (Z.mod_pos_bound q 2 ltac:(lia)) as Hmod.
  destruct (Z.odd q) eqn:Eodd.
  - assert (Hq1 : q mod 2 = 1).
    { rewrite Zmod_odd, Eodd. reflexivity. }
    destruct loc as [|[]].
    + assert (q ≠ 2 * lo + 1) by (intros E; by apply (Hinexact E)).
      destruct (Z.even (q / 2)); lia.
    + lia.
    + lia.
    + lia.
  - assert (Hq0 : q mod 2 = 0).
    { rewrite Zmod_odd, Eodd. reflexivity. }
    destruct loc as [|[]]; lia.
Qed.

(** The second rounding step: a mantissa that rounding carried to [2 ^ 53]
    is renormalised. *)
Lemma round_finish (s : bool) (m1 e1 N : Z) :
  2 ^ 52 ≤ m1 ≤ 2 ^ 53 → -1074 ≤ e1 ≤ 0 →
  (N - 1) * 2 ^ (- e1) < m1 ≤ N * 2 ^ (- e1) → N < 2 ^ 53 →
  ∃ m e,
    (let '(mrs, e) := shr_fexp Js.prec Js.emax m1 e1 loc_Exact in
     match shr_m mrs with
     | 0 => S754_zero s
     | Z.pos m => if e <=? Js.emax - Js.prec then S754_finite s m e else S754_infinity s
     | Z.neg _ => S754_nan
     end) = S754_finite s m e
    ∧ e ≤ 0 ∧ 2 ^ 52 ≤ Z.pos m < 2 ^ 53
    ∧ (N - 1) * 2 ^ (- e) < Z.pos m ≤ N * 2 ^ (- e).
Proof.
  intros Hm He Hb HN.
  destruct (Z_lt_le_dec m1 (2 ^ 53)) as [Hlt|Hge].
  - rewrite shr_fexp_53 by lia. cbn [shr_record_of_loc shr_m].
    destruct m1 as [|m|m]; try lia.
    exists m, e1.
    rewrite (proj2 (Z.leb_le e1 (Js.emax - Js.prec))) by (unfold Js.emax, Js.prec; lia).
    split; [reflexivity|]. lia.
  - assert (m1 = 2 ^ 53) as -> by lia.
    assert (He1 : e1 < 0).
    { destruct (Z.eq_dec e1 0) as [->|]; [|lia]. change (2 ^ (- 0)) with 1 in Hb. lia. }
    rewrite shr_fexp_54 by lia.
    exists (Z.to_pos (2 ^ 52)), (e1 + 1).
    rewrite (proj2 (Z.leb_le (e1 + 1) (Js.emax - Js.prec)))
      by (unfold Js.emax, Js.prec; lia).
    split; [reflexivity|]. split; [lia|]. split; [change (Z.pos (Z.to_pos (2 ^ 52))) with (2 ^ 52); lia|].
    change (Z.pos (Z.to_pos (2 ^ 52))) with (2 ^ 52).
    replace (- e1) with (Z.succ (- (e1 + 1))) in Hb by lia.
    rewrite Z.pow_succ_r in Hb by lia.
    change (2 ^ 53) with (2 * 2 ^ 52) in Hb. lia.
Qed.

(** The quotient of two positive integers below [2 ^ 53], as the division
    rounds it: a binary64 value above [N - 1] and at most [N], where [N]
    is the integer ceiling of the quotient. *)
Lemma div_bounds (t l : Z) :
  0 < t < 2 ^ 53 → 0 < l < 2 ^ 53 →
  ∃ m e, Js.div (Js.of_Z t) (Js.of_Z l) = S754_finite false m e
    ∧ e ≤ 0 ∧ 2 ^ 52 ≤ Z.pos m < 2 ^ 53
    ∧ ((t + l - 1) / l - 1) * 2 ^ (- e) < Z.pos m ≤ (t + l - 1) / l * 2 ^ (- e).
Proof.
  intros Ht Hl.
  destruct (Zdigits2_bounds t ltac:(lia)) as (Hdt1 & Hdt2 & Hdt3).
  destruct (Zdigits2_bounds l ltac:(lia)) as (Hdl1 & Hdl2 & Hdl3).
  pose proof (Zdigits2_le t 53 ltac:(lia) ltac:(lia) ltac:(lia)) as Hdt.
  pose proof (Zdigits2_le l 53 ltac:(lia) ltac:(lia) ltac:(lia)) as Hdl.
  set (N := (t + l - 1) / l).
  set (K := 53 + Zdigits2 l - Zdigits2 t).
  assert (HK : 1 ≤ K ≤ 105) by (unfold K; lia).
  assert (HN : (N - 1) * l < t ≤ N * l).
  { pose proof (Z.div_mod (t + l - 1) l ltac:(lia)) as Hdm.
    pose proof (Z.mod_pos_bound (t + l - 1) l ltac:(lia)) as Hmod.
    fold N in Hdm. lia. }
  assert (HN1 : 1 ≤ N) by (apply Z.div_le_lower_bound; lia).
  assert (HN53 : N < 2 ^ 53).
  { assert ((N - 1) * 1 ≤ (N - 1) * l) by (apply Z.mul_le_mono_nonneg_l; lia). lia. }
  assert (HpK : 0 < 2 ^ K) by (apply Z.pow_pos_nonneg; lia).
  assert (H2K : l < 2 ^ K).
  { assert (2 ^ Zdigits2 l ≤ 2 ^ K) by (apply Z.pow_le_mono_r; unfold K; lia). lia. }
  assert (HtK : 2 ^ 52 * 2 ^ Zdigits2 l ≤ t * 2 ^ K < 2 ^ 53 * 2 ^ Zdigits2 l).
  { assert (E1 : 2 ^ 52 * 2 ^ Zdigits2 l = 2 ^ (Zdigits2 t - 1) * 2 ^ K).
    { rewrite <- !Z.pow_add_r by lia. f_equal. unfold K. lia. }
    assert (E2 : 2 ^ 53 * 2 ^ Zdigits2 l = 2 ^ Zdigits2 t * 2 ^ K).
    { rewrite <- !Z.pow_add_r by lia. f_equal. unfold K. lia. }
    rewrite E1, E2. split.
    - apply Z.mul_le_mono_nonneg_r; lia.
    - apply Z.mul_lt_mono_pos_r; lia. }
  assert (Hdl4 : 2 ^ Zdigits2 l = 2 * 2 ^ (Zdigits2 l - 1)).
  { rewrite <- Z.pow_succ_r by lia. f_equal. lia. }
  assert (HP1 : ((N - 1) * l + 1) * 2 ^ K ≤ t * 2 ^ K)
    by (apply Z.mul_le_mono_nonneg_r; lia).
  assert (HP2 : t * 2 ^ K ≤ N * l * 2 ^ K)
    by (apply Z.mul_le_mono_nonneg_r; lia).
  set (P := t * 2 ^ K) in *.
  pose proof (Z.div_mod P l ltac:(lia)) as Hdm.
  pose proof (Z.mod_pos_bound P l ltac:(lia)) as Hmod.
  set (q := P / l) in *. set (ρ := P mod l) in *.
  assert (Hlow : (N - 1) * 2 ^ K < q).
  { apply (Z.mul_lt_mono_pos_l l); [lia|]. clear - Hdm Hmod HP1 H2K. lia. }
  assert (Hhigh : q ≤ N * 2 ^ K).
  { apply (Z.mul_le_mono_pos_l _ _ l); [lia|]. clear - Hdm Hmod HP2. lia. }
  assert (Hq52 : 2 ^ 52 ≤ q).
  { apply Z.div_le_lower_bound; [lia|]. clear - HtK Hdl3 Hl. lia. }
  assert (Hq54 : q < 2 ^ 54).
  { apply Z.div_lt_upper_bound; [lia|]. change (2 ^ 54) with (2 * 2 ^ 53).
    clear - HtK Hdl2 Hdl4 Hl. lia. }
  assert (Htop : q = N * 2 ^ K → ρ = 0).
  { intros E. clear - E Hdm Hmod HP2. rewrite E in Hdm. lia. }
  assert (Hbot : q = (N - 1) * 2 ^ K + 1 → ρ ≠ 0).
  { intros E Hρ. clear - E Hρ Hdm HP1 H2K. rewrite E, Hρ in Hdm. lia. }
  rewrite (of_Z_canon t), (of_Z_canon l) by lia.
  unfold Js.div, canon, SFdiv.
  assert (Hpt : 0 < 2 ^ (53 - Zdigits2 t)) by (apply Z.pow_pos_nonneg; lia).
  assert (Hpl : 0 < 2 ^ (53 - Zdigits2 l)) by (apply Z.pow_pos_nonneg; lia).
  rewrite !Z2Pos.id by (apply Z.mul_pos_pos; lia).
  pose proof (div_core_integers t l Ht Hl) as Hcore. cbv zeta in Hcore.
  fold K in Hcore. fold P in Hcore. fold q ρ in Hcore.
  rewrite Hcore. cbn [xorb]. unfold binary_round_aux.
  destruct (new_location_cases (l * 2 ^ (53 - Zdigits2 l)) (ρ * 2 ^ (53 - Zdigits2 l)))
    as [Hex Hinex].
  set (loc := new_location (l * 2 ^ (53 - Zdigits2 l)) (ρ * 2 ^ (53 - Zdigits2 l))) in *.
  assert (Hexact : ρ = 0 → loc = loc_Exact) by (intros ->; by apply Hex).
  assert (Hinexact : ρ ≠ 0 → loc ≠ loc_Exact).
  { intros Hρ. destruct Hinex as [cmp ->]; [|discriminate].
    intros E. apply Z.mul_eq_0 in E. lia. }
  destruct (Z_lt_le_dec q (2 ^ 53)) as [Hlt|Hge].
  - rewrite shr_fexp_53 by lia. rewrite loc_of_record. cbn [shr_record_of_loc].
    replace (shr_m (shr_record_of_loc q loc)) with q by (by destruct loc as [|[]]).
    destruct (round_nearest_keeps_bounds q ((N - 1) * 2 ^ K) (N * 2 ^ K) loc)
      as [Hb Hr]; [lia | auto |].
    apply round_finish; [lia | lia | | lia].
    replace (- - K) with K by lia. exact Hb.
  - rewrite shr_fexp_54 by lia.
    assert (E2K : 2 ^ K = 2 * 2 ^ (K - 1)).
    { rewrite <- Z.pow_succ_r by lia. f_equal. lia. }
    destruct (round_nearest_halved q ((N - 1) * 2 ^ (K - 1)) (N * 2 ^ (K - 1)) loc)
      as [Hb Hr].
    + lia.
    + clear - Hlow Hhigh E2K. lia.
    + intros E. apply Hexact, Htop. clear - E E2K. lia.
    + intros E. apply Hinexact, Hbot. clear - E E2K. lia.
    + pose proof (Z.div_mod q 2 ltac:(lia)) as Hq2.
      pose proof (Z.mod_pos_bound q 2 ltac:(lia)) as Hq2m.
      apply round_finish; [| lia | | lia].
      * change (2 ^ 54) with (2 * 2 ^ 53) in Hq54.
        change (2 ^ 53) with (2 * 2 ^ 52) in Hge. clear - Hr Hq2 Hq2m Hq54 Hge.
        change (2 ^ 53) with (2 * 2 ^ 52). lia.
      * replace (- (- K + 1)) with (K - 1) by lia. exact Hb.
Qed.

Lemma ceil_of_bounds (m : positive) (e N : Z) :
  e ≤ 0 → 2 ^ 52 ≤ Z.pos m < 2 ^ 53 →
  (N - 1) * 2 ^ (- e) < Z.pos m ≤ N * 2 ^ (- e) →
  Js.Math_ceil (S754_finite false m e) = Js.of_Z N.
Proof.
  intros He Hm Hb. unfold Js.Math_ceil.
  destruct (Z.eq_dec e 0) as [->|Hne].
  - change (2 ^ (- 0)) with 1 in Hb. assert (N = Z.pos m) as -> by lia.
    change (0 <=? 0) with true. cbv iota.
    rewrite of_Z_canon by lia. unfold canon.
    rewrite (Zdigits2_unique (Z.pos m) 53) by (change (53 - 1) with 52; lia).
    change (2 ^ (53 - 53)) with 1. rewrite Z.mul_1_r. reflexivity.
  - rewrite (proj2 (Z.leb_gt 0 e)) by lia.
    assert (Hd : 0 < 2 ^ (- e)) by (apply Z.pow_pos_nonneg; lia).
    assert (E : (Z.pos m + 2 ^ (- e) - 1) / 2 ^ (- e) = N).
    { symmetry. apply (Z.div_unique _ _ _ (Z.pos m + 2 ^ (- e) - 1 - 2 ^ (- e) * N)); lia. }
    rewrite E. reflexivity.
Qed.

(** [Math.ceil(t / l)] for integers below [2 ^ 53] is the integer ceiling
    of the quotient. *)
Lemma ceil_div_of_Z (t l : Z) :
  0 ≤ t < 2 ^ 53 → 0 < l < 2 ^ 53 →
  Js.Math_ceil (Js.div (Js.of_Z t) (Js.of_Z l)) = Js.of_Z ((t + l - 1) / l).
Proof.
  intros Ht Hl. destruct (Z.eq_dec t 0) as [->|Hne].
  - rewrite (of_Z_canon l) by lia.
    rewrite Z.div_small by lia. reflexivity.
  - destruct (div_bounds t l ltac:(lia) Hl) as (m & e & -> & He & Hm & Hb).
    by apply ceil_of_bounds.
Qed.


(** ** Page counts *)

Lemma ceiling_is_least (n l : Z) :
  0 ≤ n → 0 < l →
  ((n + l - 1) / l - 1) * l < n ≤ (n + l - 1) / l * l.
Proof.
  intros Hn Hl.
  pose proof (Z.div_mod (n + l - 1) l ltac:(lia)) as Hdm.
  pose proof (Z.mod_pos_bound (n + l - 1) l ltac:(lia)) as Hmod. lia.
Qed.

Lemma counts_pages_of {A} (r : Response A) (query : gmap string qvalue) :
  answersPaged r query →
  (∀ data pag, r = res_json 200 (ListBody data pag) →
     ∃ n : nat, total pag = Js.of_Z (Z.of_nat n)) →
  countsPages r.
Proof.
  intros Hp Hc data pag E. split; [exact (Hc data pag E)|].
  intros n l Hn Hl Hn53 Hl1.
  assert (Hlim : Js.leb (Js.of_Z 1) (limit pag) = true)
    by (rewrite Hl; by apply leb_one_of_Z).
  destruct (Hp data pag E Hlim) as (_ & _ & Htp & _).
  exists ((n + l - 1) / l). split.
  - rewrite Htp, Hn, Hl. apply ceil_div_of_Z; lia.
  - apply ceiling_is_least; lia.
Qed.

Ltac total_count :=
  intros data pag E;
  unfold tryCatch, mbind, Result_bind in E;
  repeat (simpl in *; simplify_eq; try done; case_match);
  simpl in *; simplify_eq;
  first [ by (exists 0%nat) | eexists; reflexivity ].

Lemma users_get_counts ilike db query :
  ∀ data pag, users_get ilike db query = res_json 200 (ListBody data pag) →
    ∃ n : nat, total pag = Js.of_Z (Z.of_nat n).
Proof. unfold users_get. total_count. Qed.

Lemma users_get_id_departments_counts db id query :
  ∀ data pag, users_get_id_departments db id query = res_json 200 (ListBody data pag) →
    ∃ n : nat, total pag = Js.of_Z (Z.of_nat n).
Proof. unfold users_get_id_departments. total_count. Qed.

Lemma users_get_id_subjects_counts db id query :
  ∀ data pag, users_get_id_subjects db id query = res_json 200 (ListBody data pag) →
    ∃ n : nat, total pag = Js.of_Z (Z.of_nat n).
Proof. unfold users_get_id_subjects. total_count. Qed.

Lemma subjects_get_counts ilike db query :
  ∀ data pag, subjects_get ilike db query = res_json 200 (ListBody data pag) →
    ∃ n : nat, total pag = Js.of_Z (Z.of_nat n).
Proof. unfold subjects_get. total_count. Qed.

Lemma subjects_get_id_classes_counts db id query :
  ∀ data pag, subjects_get_id_classes db id query = res_json 200 (ListBody data pag) →
    ∃ n : nat, total pag = Js.of_Z (Z.of_nat n).
Proof. unfold subjects_get_id_classes. total_count. Qed.

Lemma subjects_get_id_users_counts db id query :
  ∀ data pag, subjects_get_id_users db id query = res_json 200 (ListBody data pag) →
    ∃ n : nat, total pag = Js.of_Z (Z.of_nat n).
Proof. unfold subjects_get_id_users. total_count. Qed.

Lemma classes_get_counts ilike db query :
  ∀ data pag, classes_get ilike db query = res_json 200 (ListBody data pag) →
    ∃ n : nat, total pag = Js.of_Z (Z.of_nat n).
Proof. unfold classes_get. total_count. Qed.

Lemma classes_get_id_users_counts db id query :
  ∀ data pag, classes_get_id_users db id query = res_json 200 (ListBody data pag) →
    ∃ n : nat, total pag = Js.of_Z (Z.of_nat n).
Proof. unfold classes_get_id_users. total_count. Qed.


(** ** Walking the pages *)






Lemma length_orderByDesc {A} (col : A → Z) (rows : list A) :
  length (Orm.orderByDesc col rows) = length rows.
Proof. unfold Orm.orderByDesc. by rewrite merge_sort_Permutation. Qed.











(** ** A limit that is no number *)

Lemma mul_NaN (x : Js.number) : Js.mul x Js.NaN = Js.NaN.
Proof. by destruct x. Qed.

Lemma div_NaN (x : Js.number) : Js.div x Js.NaN = Js.NaN.
Proof. by destruct x. Qed.

Lemma limitPerPageOf_NaN (v : option qvalue) :
  Js.isNaN (unaryPlus v 10) = true → limitPerPageOf v = Js.NaN.
Proof.
  unfold limitPerPageOf. destruct (unaryPlus v 10); try discriminate. reflexivity.
Qed.

Lemma limitOffset_NaN {A} (cp : Js.number) (rows : list A) :
  Orm.limitOffset Js.NaN (offsetOf cp Js.NaN) rows = Ok rows.
Proof. unfold offsetOf. rewrite mul_NaN. reflexivity. Qed.

Ltac no_limit col :=
  intros Hnan; apply limitPerPageOf_NaN in Hnan;
  rewrite Hnan, limitOffset_NaN;
  unfold tryCatch, mbind, Result_bind;
  do 2 eexists; split; [reflexivity|]; cbn [total limit totalPages];
  split; [|split; [reflexivity | by rewrite div_NaN]];
  unfold firstCount, Orm.count; by rewrite (length_orderByDesc col).


(** ** Teachers of a class *)

Lemma NoDup_all_equal {A} (l : list A) (a : A) :
  NoDup l → (∀ x, x ∈ l → x = a) → (length l ≤ 1)%nat.
Proof.
  intros Hnd Hall. destruct l as [|x [|y l]]; simpl; try lia.
  exfalso. apply NoDup_cons in Hnd as [Hx _]. apply Hx.
  rewrite (Hall x) by set_solver. rewrite (Hall y) by set_solver. set_solver.
Qed.


(** ** A page that is no number *)

Lemma sub_NaN (x : Js.number) : Js.sub Js.NaN x = Js.NaN.
Proof. by destruct x. Qed.

Lemma mul_NaN_l (x : Js.number) : Js.mul Js.NaN x = Js.NaN.
Proof. by destruct x. Qed.

Lemma currentPageOf_NaN (v : option qvalue) :
  Js.isNaN (unaryPlus v 1) = true → currentPageOf v = Js.NaN.
Proof.
  unfold currentPageOf. destruct (unaryPlus v 1); try discriminate. reflexivity.
Qed.

(** Neither the offset of page 1 nor the offset of a page that is NaN is
    written into the query. *)
Lemma offset_of_first_page (lim : Js.number) :
  Js.truthy (offsetOf (Js.of_Z 1) lim) = false
  ∧ Js.truthy (offsetOf Js.NaN lim) = false.
Proof.
  unfold offsetOf. rewrite sub_NaN, mul_NaN_l. split; [|reflexivity].
  change (Js.sub (Js.of_Z 1) (Js.of_Z 1)) with (S754_zero false).
  by destruct lim as [[]|[]| |[] m e].
Qed.

Lemma limitOffset_first_page {A} (lim : Js.number) (rows : list A) :
  Orm.limitOffset lim (offsetOf Js.NaN lim) rows
  = Orm.limitOffset lim (offsetOf (Js.of_Z 1) lim) rows.
Proof.
  destruct (offset_of_first_page lim) as [H1 H2].
  unfold Orm.limitOffset. by rewrite H1, H2.
Qed.

Ltac first_page :=
  intros Hnan; apply currentPageOf_NaN in Hnan;
  rewrite lookup_delete_eq, ?lookup_delete_ne by discriminate;
  rewrite Hnan; change (currentPageOf None) with (Js.of_Z 1);
  rewrite limitOffset_first_page;
  unfold tryCatch, mbind, Result_bind;
  match goal with
  | |- context [Orm.limitOffset ?a ?b ?c] => destruct (Orm.limitOffset a b c)
  end;
  (split; [reflexivity|]; split; [reflexivity|]);
  intros data pag E; simplify_eq; simpl;
  (split; [reflexivity|]); eexists; split; [reflexivity|]; simpl; auto.


(** ** A parameter given more than once *)

(** A comma is no white space, no digit and no part of a number. *)
Ltac drop_head H :=
  repeat (apply elem_of_cons in H as [H|H]; [try discriminate; try lia|]).

(** What is left of a sequence with a comma after heads that are none. *)
Ltac comma_from H :=
  solve [ exact H
        | apply elem_of_cons in H as [H|H];
          [ first [ discriminate H | by simplify_eq | simplify_eq; by left ]
          | first [ comma_from H | right; comma_from H ] ] ].

Lemma strip_keeps_comma (l r : list Z) :
  Js.stripWhiteSpace l = Some r → 44 ∈ l → 44 ∈ r.
Proof.
  unfold Js.stripWhiteSpace. intros E H.
  repeat (case_match; try discriminate); simplify_eq; drop_head H; try done.
  all: by simplify_eq.
Qed.

Lemma stripRev_keeps_comma (l r : list Z) :
  Js.stripWhiteSpaceRev l = Some r → 44 ∈ l → 44 ∈ r.
Proof.
  unfold Js.stripWhiteSpaceRev. intros E H.
  repeat (case_match; try discriminate); simplify_eq; drop_head H; try done.
  all: by simplify_eq.
Qed.

Lemma trimStart_keeps_comma (fuel : nat) (l : list Z) :
  44 ∈ l → 44 ∈ Js.trimStartFuel fuel l.
Proof.
  revert l. induction fuel as [|fuel IH]; intros l H; simpl; [done|].
  destruct (Js.stripWhiteSpace l) as [r|] eqn:E; [|done].
  by apply IH, (strip_keeps_comma l).
Qed.

Lemma trimEnd_keeps_comma (fuel : nat) (l : list Z) :
  44 ∈ l → 44 ∈ Js.trimEndFuel fuel l.
Proof.
  revert l. induction fuel as [|fuel IH]; intros l H; simpl; [done|].
  destruct (Js.stripWhiteSpaceRev l) as [r|] eqn:E; [|done].
  by apply IH, (stripRev_keeps_comma l).
Qed.

Lemma elem_of_rev {A} (x : A) (l : list A) : x ∈ rev l ↔ x ∈ l.
Proof. rewrite !list_elem_of_In. symmetry. apply in_rev. Qed.

Lemma trim_keeps_comma (l : list Z) : 44 ∈ l → 44 ∈ Js.trim l.
Proof.
  intros H. unfold Js.trim. apply elem_of_rev, trimEnd_keeps_comma,
    elem_of_rev, trimStart_keeps_comma, H.
Qed.

Lemma digitValue_comma (radix : Z) : Js.digitValue radix 44 = None.
Proof. reflexivity. Qed.

(** Reading digits stops at a comma or before it. *)
Lemma readDigits_keeps_comma (radix acc n : Z) (l : list Z) :
  44 ∈ l → 44 ∈ (Js.readDigits radix acc n l).2.
Proof.
  revert acc n. induction l as [|c r IH]; intros acc n H; [done|].
  simpl. destruct (Js.digitValue radix c) as [d|] eqn:E; [|done].
  apply IH. apply elem_of_cons in H as [<-|H]; [|done].
  by rewrite digitValue_comma in E.
Qed.

Lemma readDigits_rest_comma (radix acc n : Z) (l : list Z) v k rest :
  44 ∈ l → Js.readDigits radix acc n l = (v, k, rest) → 44 ∈ rest.
Proof.
  intros H E. pose proof (readDigits_keeps_comma radix acc n l H) as K.
  by rewrite E in K.
Qed.

Lemma readExponent_comma (l : list Z) : 44 ∈ l → Js.readExponent l = None.
Proof.
  intros H. unfold Js.readExponent.
  repeat (case_match; try reflexivity); simplify_eq;
    try (by apply elem_of_nil in H);
    match goal with
    | E : Js.readDigits _ _ _ _ = (_, _, []) |- _ =>
        apply readDigits_rest_comma in E; [by apply elem_of_nil in E|]
    end; comma_from H.
Qed.

Lemma readUnsigned_comma (s : bool) (l : list Z) :
  44 ∈ l → Js.readUnsigned s l = Js.NaN.
Proof.
  intros H. unfold Js.readUnsigned.
  destruct (decide _) as [->|_].
  { exfalso. vm_compute in H. drop_head H. by apply elem_of_nil in H. }
  destruct (Js.readDigits 10 0 0 l) as [[ip ni] r1] eqn:E1.
  apply readDigits_rest_comma in E1; [|done].
  assert (∀ fp nf r2, (match r1 with
                       | 46 :: r => Js.readDigits 10 ip 0 r
                       | _ => (ip, 0, r1)
                       end) = (fp, nf, r2) → 44 ∈ r2) as K.
  { intros fp nf r2 E2.
    repeat (case_match; simplify_eq; try done);
      (eapply readDigits_rest_comma; [|exact E2]); comma_from E1. }
  destruct (match r1 with 46 :: r => _ | _ => _ end) as [[fp nf] r2].
  rewrite (readExponent_comma r2 (K _ _ _ eq_refl)).
  by destruct (ni + nf =? 0).
Qed.

Lemma readPrefixed_comma (l : list Z) :
  44 ∈ l → Js.readPrefixed l = None ∨ Js.readPrefixed l = Some Js.NaN.
Proof.
  intros H. unfold Js.readPrefixed.
  repeat (case_match; try (by left); try (by right)); simplify_eq;
    match goal with
    | E : Js.readDigits _ _ _ _ = (_, _, []) |- _ =>
        apply readDigits_rest_comma in E; [by apply elem_of_nil in E|]
    end; comma_from H.
Qed.

(** A string with a comma in it is no numeric literal. *)
Lemma Number_comma (s : string) : 44 ∈ codes s → Js.Number s = Js.NaN.
Proof.
  intros H. apply trim_keeps_comma in H. unfold Js.Number.
  fold (codes s). destruct (Js.trim (codes s)) as [|c r] eqn:E.
  { by apply elem_of_nil in H. }
  destruct (readPrefixed_comma _ H) as [-> | ->]; [|done].
  repeat case_match; simplify_eq; apply readUnsigned_comma; comma_from H.
Qed.

Lemma codes_app (s t : string) : codes (s ++ t) = (codes s ++ codes t)%list.
Proof.
  unfold codes. induction s as [|a s IH]; [done|]. simpl. by rewrite IH.
Qed.

Lemma ToString_repeated (v1 v2 : qvalue) (vs : list qvalue) :
  44 ∈ codes (ToString (QArray (v1 :: v2 :: vs))).
Proof.
  change (ToString (QArray (v1 :: v2 :: vs)))
    with (ToString v1 ++ "," ++ String.concat "," (map ToString (v2 :: vs))).
  rewrite !codes_app. apply elem_of_app. right. apply elem_of_app. left.
  simpl. left.
Qed.


(** ** Further properties of the handlers *)

(** X1.  Every list route answers newest first: in the data of a 200
    response no row stands before a row with a later [createdAt], the time
    stamp of the user, department, subject or class that the route orders
    by. *)
Theorem listings_are_newest_first (ilike : string → string → bool) (db : Db)
    (id : string) (query : gmap string qvalue) :
  newestFirst user_createdAt (users_get ilike db query)
  ∧ newestFirst dept_createdAt (users_get_id_departments db id query)
  ∧ newestFirst (λ r, subj_createdAt r.1) (users_get_id_subjects db id query)
  ∧ newestFirst (λ r, subj_createdAt r.1) (subjects_get ilike db query)
  ∧ newestFirst (λ r, class_createdAt r.1) (subjects_get_id_classes db id query)
  ∧ newestFirst user_createdAt (subjects_get_id_users db id query)
  ∧ newestFirst (λ r, class_createdAt r.1.1) (classes_get ilike db query)
  ∧ newestFirst user_createdAt (classes_get_id_users db id query).
Proof.
  split; [apply newestFirst_of_sorted, users_get_sorted|].
  split; [apply newestFirst_of_sorted, users_get_id_departments_sorted|].
  split; [apply newestFirst_of_sorted, users_get_id_subjects_sorted|].
  split; [apply newestFirst_of_sorted, subjects_get_sorted|].
  split; [apply newestFirst_of_sorted, subjects_get_id_classes_sorted|].
  split; [apply newestFirst_of_sorted, subjects_get_id_users_sorted|].
  split; [apply newestFirst_of_sorted, classes_get_sorted|].
  apply newestFirst_of_sorted, classes_get_id_users_sorted.
Qed.

(** The three subjects of the sample store come back latest first. *)
Lemma listings_are_newest_first_witness :
  subj_createdAt (sampleSubject 2 1) ≤ subj_createdAt (sampleSubject 3 1).
Proof.
  assert (E : subjects_get anyMatch sampleDb ∅
              = res_json 200 (ListBody
                  [(sampleSubject 3 1, Some (sampleDepartment 1));
                   (sampleSubject 2 1, Some (sampleDepartment 1));
                   (sampleSubject 1 1, Some (sampleDepartment 1))]
                  (samplePage 3 1)))
    by (vm_compute; reflexivity).
  pose proof (listings_are_newest_first anyMatch sampleDb "t1" ∅)
    as (_ & _ & _ & H & _).
  exact (H _ _ E 0%nat 1%nat _ _ ltac:(lia) eq_refl eq_refl).
Defined.

(** X2.  [GET /users]: every user of a 200 response is a stored user that
    matches the search in its name or its email, when a search is given,
    and has the role asked for, when [role] is a non-empty string.  The
    data are a page of a list that holds exactly the stored users that
    match, and [total] is the length of that list, whatever the page. *)
Theorem users_listing_applies_the_filters (ilike : string → string → bool) (db : Db)
    (query : gmap string qvalue) (role : option string)
    (data : list User) (pag : Pagination) :
  query !! "role" = QString <$> role →
  users_get ilike db query = res_json 200 (ListBody data pag) →
  let wanted (u : User) : Prop :=
    (truthy (query !! "search") = true →
       ilike (user_name u) (contains (query !! "search")) = true
       ∨ ilike (user_email u) (contains (query !! "search")) = true)
    ∧ (∀ r, role = Some r → r ≠ EmptyString → user_role u = r) in
  (∀ u, u ∈ data → u ∈ user db ∧ wanted u)
  ∧ ∃ all : list User,
      Orm.limitOffset (limit pag) (offsetOf (page pag) (limit pag)) all = Ok data
      ∧ total pag = Js.of_Z (Z.of_nat (length all))
      ∧ (∀ u, u ∈ all ↔ u ∈ user db ∧ wanted u)
      ∧ (NoDup (user db) → NoDup all).
Proof.
  intros Hrole E wanted.
  unfold users_get, tryCatch, mbind, Result_bind in E. cbv zeta in E.
  match type of E with
  | context [Orm.limitOffset ?a ?b ?c] =>
      destruct (Orm.limitOffset a b c) eqn:Ew; [|discriminate E]
  end.
  injection E as <- <-. cbn [page limit total].
  match type of Ew with
  | Orm.limitOffset _ _ (Orm.orderByDesc _ (whereOpt (whereClauseOf ?cs) _)) = _ =>
      set (conds := cs) in *
  end.
  assert (Hall : ∀ u, u ∈ Orm.orderByDesc user_createdAt
                        (whereOpt (whereClauseOf conds) (user db))
                      ↔ u ∈ user db ∧ wanted u).
  { intros u. rewrite elem_of_orderByDesc, elem_of_whereOpt.
    apply and_iff_compat_l. unfold conds, wanted.
    rewrite all_conds_2. rewrite Hrole, role_condition.
    apply and_iff_compat_r. unfold or_. by rewrite orb_true_iff. }
  split.
  - intros u Hu. apply Hall. eapply elem_of_sublist; [exact Hu|].
    eapply limitOffset_sublist, Ew.
  - eexists. split; [exact Ew|]. split; [|split; [exact Hall|]].
    + unfold firstCount, Orm.count. do 2 f_equal.
      by rewrite orderByDesc_Permutation.
    + intros Hnd. rewrite orderByDesc_Permutation.
      eapply sublist_NoDup; [exact Hnd | apply whereOpt_sublist].
Qed.

Lemma users_listing_applies_the_filters_witness :
  sampleUser "t1" "teacher" 3 ∈ user sampleDb
  ∧ user_role (sampleUser "t1" "teacher" 3) = "teacher".
Proof.
  assert (Hq : ({[ "role" := QString "teacher" ]} : gmap string qvalue) !! "role"
               = QString <$> Some "teacher") by (vm_compute; reflexivity).
  assert (E : users_get anyMatch sampleDb {[ "role" := QString "teacher" ]}
              = res_json 200 (ListBody [sampleUser "t1" "teacher" 3] (samplePage 1 1)))
    by (vm_compute; reflexivity).
  pose proof (users_listing_applies_the_filters anyMatch sampleDb _ _ _ _ Hq E) as [H _].
  destruct (H (sampleUser "t1" "teacher" 3) ltac:(left)) as (Hin & _ & Hr).
  split; [exact Hin | by apply Hr].
Defined.

(** X3.  [GET /subjects]: every row of a 200 response is a stored subject
    with the department that its [departmentId] names, or with none when no
    department has that id; it matches the search in its name or its code,
    and under a department filter it has a department whose name matches.
    The data are a page of a list that holds exactly these rows, and
    [total] is its length.  With unique department ids no subject is there
    twice, and without filters every subject is there. *)
Theorem subjects_listing_applies_the_filters (ilike : string → string → bool) (db : Db)
    (query : gmap string qvalue)
    (data : list (Subject * option Department)) (pag : Pagination) :
  subjects_get ilike db query = res_json 200 (ListBody data pag) →
  let search := query !! "search" in
  let department := query !! "department" in
  let joined (r : Subject * option Department) : Prop :=
    r.1 ∈ subjects db
    ∧ match r.2 with
      | Some d => d ∈ departments db ∧ dept_id d = subj_departmentId r.1
      | None => ∀ d, d ∈ departments db → dept_id d ≠ subj_departmentId r.1
      end in
  let wanted (r : Subject * option Department) : Prop :=
    (truthy search = true →
       ilike (subj_name r.1) (contains search) = true
       ∨ ilike (subj_code r.1) (contains search) = true)
    ∧ (truthy department = true →
       ∃ d, r.2 = Some d ∧ ilike (dept_name d) (contains department) = true) in
  (∀ r, r ∈ data → joined r ∧ wanted r)
  ∧ ∃ all : list (Subject * option Department),
      Orm.limitOffset (limit pag) (offsetOf (page pag) (limit pag)) all = Ok data
      ∧ total pag = Js.of_Z (Z.of_nat (length all))
      ∧ (∀ r, r ∈ all ↔ joined r ∧ wanted r)
      ∧ (NoDup (dept_id <$> departments db) → NoDup (subj_id <$> subjects db) →
         NoDup (subj_id <$> all.*1))
      ∧ (NoDup (dept_id <$> departments db) →
         truthy search = false → truthy department = false →
         all.*1 ≡ₚ subjects db).
Proof.
  intros E search department joined wanted.
  unfold subjects_get, tryCatch, mbind, Result_bind in E. cbv zeta in E.
  match type of E with
  | context [Orm.limitOffset ?a ?b ?c] =>
      destruct (Orm.limitOffset a b c) eqn:Ew; [|discriminate E]
  end.
  injection E as <- <-. cbn [page limit total].
  match type of Ew with
  | Orm.limitOffset _ _ (Orm.orderByDesc _ (whereOpt (whereClauseOf ?cs) ?j)) = _ =>
      set (conds := cs) in *; set (rows := j) in *
  end.
  assert (Hall : ∀ r, r ∈ Orm.orderByDesc (λ r : Subject * option Department,
                                             subj_createdAt r.1)
                        (whereOpt (whereClauseOf conds) rows)
                      ↔ joined r ∧ wanted r).
  { intros [s od]. rewrite elem_of_orderByDesc, elem_of_whereOpt.
    unfold rows. rewrite (elem_of_leftJoin_key subj_departmentId dept_id).
    unfold joined, wanted, conds. simpl. apply and_iff_compat_l.
    rewrite all_conds_2. fold search department. unfold or_. simpl.
    rewrite orb_true_iff, (ilikeNullable_true ilike dept_name). reflexivity. }
  assert (Hfst : NoDup (dept_id <$> departments db) → rows.*1 = subjects db).
  { intros Hpk. unfold rows.
    apply (leftJoin_fst _ dept_id subj_departmentId); [exact Hpk|].
    intros s d Hon. apply bool_decide_eq_true in Hon. congruence. }
  split.
  - intros r Hr. apply Hall. eapply elem_of_sublist; [exact Hr|].
    eapply limitOffset_sublist, Ew.
  - eexists. split; [exact Ew|]. split; [|split; [exact Hall|split]].
    + unfold firstCount, Orm.count. do 2 f_equal.
      by rewrite orderByDesc_Permutation.
    + intros Hd Hs. rewrite orderByDesc_Permutation.
      eapply sublist_NoDup; [exact Hs|]. rewrite <- (Hfst Hd).
      do 2 apply fmap_sublist. apply whereOpt_sublist.
    + intros Hd Es Ed. rewrite orderByDesc_Permutation.
      unfold conds. fold search department. rewrite Es, Ed. simpl.
      by rewrite (Hfst Hd).
Qed.

Lemma subjects_listing_applies_the_filters_witness :
  sampleSubject 3 1 ∈ subjects sampleDb
  ∧ dept_id (sampleDepartment 1) = subj_departmentId (sampleSubject 3 1).
Proof.
  assert (E : subjects_get anyMatch sampleDb ∅
              = res_json 200 (ListBody
                  [(sampleSubject 3 1, Some (sampleDepartment 1));
                   (sampleSubject 2 1, Some (sampleDepartment 1));
                   (sampleSubject 1 1, Some (sampleDepartment 1))]
                  (samplePage 3 1)))
    by (vm_compute; reflexivity).
  pose proof (subjects_listing_applies_the_filters anyMatch sampleDb ∅ _ _ E) as [H _].
  destruct (H (sampleSubject 3 1, Some (sampleDepartment 1)) ltac:(left))
    as ((Hin & _ & Hd) & _).
  split; [exact Hin | exact Hd].
Defined.

(** X4.  [GET /classes]: every row of a 200 response is a stored class with
    the subject that its [subjectId] names and the user that its
    [teacherId] names, each absent when no such row is stored; it matches
    the search in its name or its invite code, and under a subject or a
    teacher filter it has a subject or a teacher whose name matches.  The
    data are a page of a list that holds exactly these rows, and [total]
    is its length.  With unique subject and user ids no class is there
    twice, and without filters every class is there. *)
Theorem classes_listing_applies_the_filters (ilike : string → string → bool) (db : Db)
    (query : gmap string qvalue)
    (data : list (Class * option Subject * option User)) (pag : Pagination) :
  classes_get ilike db query = res_json 200 (ListBody data pag) →
  let search := query !! "search" in
  let subject := query !! "subject" in
  let teacher := query !! "teacher" in
  let joined (r : Class * option Subject * option User) : Prop :=
    r.1.1 ∈ classes db
    ∧ match r.1.2 with
      | Some s => s ∈ subjects db ∧ subj_id s = class_subjectId r.1.1
      | None => ∀ s, s ∈ subjects db → subj_id s ≠ class_subjectId r.1.1
      end
    ∧ match r.2 with
      | Some u => u ∈ user db ∧ user_id u = class_teacherId r.1.1
      | None => ∀ u, u ∈ user db → user_id u ≠ class_teacherId r.1.1
      end in
  let wanted (r : Class * option Subject * option User) : Prop :=
    (truthy search = true →
       ilike (class_name r.1.1) (contains search) = true
       ∨ ilike (class_inviteCode r.1.1) (contains search) = true)
    ∧ (truthy subject = true →
       ∃ s, r.1.2 = Some s ∧ ilike (subj_name s) (contains subject) = true)
    ∧ (truthy teacher = true →
       ∃ u, r.2 = Some u ∧ ilike (user_name u) (contains teacher) = true) in
  (∀ r, r ∈ data → joined r ∧ wanted r)
  ∧ ∃ all : list (Class * option Subject * option User),
      Orm.limitOffset (limit pag) (offsetOf (page pag) (limit pag)) all = Ok data
      ∧ total pag = Js.of_Z (Z.of_nat (length all))
      ∧ (∀ r, r ∈ all ↔ joined r ∧ wanted r)
      ∧ (NoDup (subj_id <$> subjects db) → NoDup (user_id <$> user db) →
         NoDup (class_id <$> classes db) → NoDup (class_id <$> all.*1.*1))
      ∧ (NoDup (subj_id <$> subjects db) → NoDup (user_id <$> user db) →
         truthy search = false → truthy subject = false → truthy teacher = false →
         all.*1.*1 ≡ₚ classes db).
Proof.
  intros E search subject teacher joined wanted.
  unfold classes_get, tryCatch, mbind, Result_bind in E. cbv zeta in E.
  match type of E with
  | context [Orm.limitOffset ?a ?b ?c] =>
      destruct (Orm.limitOffset a b c) eqn:Ew; [|discriminate E]
  end.
  injection E as <- <-. cbn [page limit total].
  match type of Ew with
  | Orm.limitOffset _ _ (Orm.orderByDesc _ (whereOpt (whereClauseOf ?cs) ?j)) = _ =>
      set (conds := cs) in *; set (rows := j) in *
  end.
  assert (Hall : ∀ r, r ∈ Orm.orderByDesc
                        (λ r : Class * option Subject * option User,
                           class_createdAt r.1.1)
                        (whereOpt (whereClauseOf conds) rows)
                      ↔ joined r ∧ wanted r).
  { intros [[c os] ou]. rewrite elem_of_orderByDesc, elem_of_whereOpt.
    unfold rows.
    rewrite (elem_of_leftJoin_key (λ r : Class * option Subject, class_teacherId r.1)
               user_id).
    rewrite (elem_of_leftJoin_key class_subjectId subj_id).
    unfold joined, wanted, conds. simpl.
    rewrite all_conds_3. fold search subject teacher. unfold or_. simpl.
    rewrite orb_true_iff, (ilikeNullable_true ilike subj_name),
      (ilikeNullable_true ilike user_name). tauto. }
  assert (Hfst : NoDup (subj_id <$> subjects db) → NoDup (user_id <$> user db) →
                 rows.*1.*1 = classes db).
  { intros Hs Hu. unfold rows.
    rewrite (leftJoin_fst _ user_id (λ r : Class * option Subject, class_teacherId r.1));
      [|exact Hu|].
    - apply (leftJoin_fst _ subj_id class_subjectId); [exact Hs|].
      intros c s Hon. apply bool_decide_eq_true in Hon. congruence.
    - intros r u Hon. apply bool_decide_eq_true in Hon. congruence. }
  split.
  - intros r Hr. apply Hall. eapply elem_of_sublist; [exact Hr|].
    eapply limitOffset_sublist, Ew.
  - eexists. split; [exact Ew|]. split; [|split; [exact Hall|split]].
    + unfold firstCount, Orm.count. do 2 f_equal.
      by rewrite orderByDesc_Permutation.
    + intros Hs Hu Hc. rewrite orderByDesc_Permutation.
      eapply sublist_NoDup; [exact Hc|]. rewrite <- (Hfst Hs Hu).
      do 3 apply fmap_sublist. apply whereOpt_sublist.
    + intros Hs Hu Es Esub Et. rewrite orderByDesc_Permutation.
      unfold conds. fold search subject teacher. rewrite Es, Esub, Et. simpl.
      by rewrite (Hfst Hs Hu).
Qed.

Lemma classes_listing_applies_the_filters_witness :
  sampleClass 6 3 "t1" ∈ classes sampleDb
  ∧ user_id (sampleUser "t1" "teacher" 3) = class_teacherId (sampleClass 6 3 "t1").
Proof.
  assert (E : classes_get anyMatch sampleDb {[ "limit" := QString "1" ]}
              = res_json 200 (ListBody
                  [(sampleClass 6 3 "t1", Some (sampleSubject 3 1),
                    Some (sampleUser "t1" "teacher" 3))]
                  {| page := Js.of_Z 1; limit := Js.of_Z 1; total := Js.of_Z 6;
                     totalPages := Js.of_Z 6 |}))
    by (vm_compute; reflexivity).
  pose proof (classes_listing_applies_the_filters anyMatch sampleDb _ _ _ E) as [H _].
  destruct (H _ ltac:(left)) as ((Hin & _ & _ & Hu) & _).
  split; [exact Hin | exact Hu].
Defined.

(** X5.  [GET /subjects/:id/classes]: [total] is the number of stored
    classes of the subject, and every row is such a class with the user its
    [teacherId] names.  The count query does not join the users: it is with
    unique user ids that the full result holds every class of the subject
    once and that [total] is its length.  The class count that
    [GET /subjects/:id] reports for the same id is this [total]. *)
Theorem subject_classes_listing (db : Db) (id : string) (query : gmap string qvalue)
    (data : list (Class * option User)) (pag : Pagination) :
  subjects_get_id_classes db id query = res_json 200 (ListBody data pag) →
  ∃ z, Orm.integerParam (Js.Number id) = Ok z
    ∧ total pag
      = Js.of_Z (Z.of_nat (length (filter (λ c, class_subjectId c = z) (classes db))))
    ∧ (∀ c ou, (c, ou) ∈ data →
         c ∈ classes db ∧ class_subjectId c = z
         ∧ match ou with
           | Some u => u ∈ user db ∧ user_id u = class_teacherId c
           | None => ∀ u, u ∈ user db → user_id u ≠ class_teacherId c
           end)
    ∧ ∃ all : list (Class * option User),
        Orm.limitOffset (limit pag) (offsetOf (page pag) (limit pag)) all = Ok data
        ∧ (∀ c, c ∈ all.*1 ↔ c ∈ classes db ∧ class_subjectId c = z)
        ∧ (NoDup (user_id <$> user db) →
           all.*1 ≡ₚ filter (λ c, class_subjectId c = z) (classes db)
           ∧ total pag = Js.of_Z (Z.of_nat (length all)))
        ∧ (∀ s od n, subjects_get_id db id = res_json 200 (DataBody (s, od, n)) →
             n = total pag).
Proof.
  intros E. unfold subjects_get_id_classes in E.
  destruct (negb (Js.isFinite (Js.Number id))) eqn:Hfin; [discriminate E|].
  unfold tryCatch, mbind, Result_bind in E. cbv zeta in E.
  destruct (Orm.integerParam (Js.Number id)) as [z|] eqn:Hparam; [|discriminate E].
  match type of E with
  | context [Orm.limitOffset ?a ?b ?c] =>
      destruct (Orm.limitOffset a b c) eqn:Ew; [|discriminate E]
  end.
  injection E as <- <-. cbn [page limit total].
  exists z. split; [reflexivity|].
  assert (Hcount : firstCount [Orm.count (Orm.where_ (λ c, bool_decide (class_subjectId c = z))
                                (classes db))]
          = Js.of_Z (Z.of_nat (length (filter (λ c, class_subjectId c = z) (classes db))))).
  { unfold firstCount, Orm.count. by rewrite (where_decide (λ c, class_subjectId c = z)). }
  split; [exact Hcount|].
  match type of Ew with
  | Orm.limitOffset _ _ (Orm.orderByDesc _ (Orm.where_ _ ?j)) = _ => set (rows := j) in *
  end.
  assert (Hrow : ∀ c ou,
    (c, ou) ∈ Orm.orderByDesc (λ r : Class * option User, class_createdAt r.1)
                (Orm.where_ (λ r : Class * option User,
                               bool_decide (class_subjectId r.1 = z)) rows)
    ↔ (c ∈ classes db
       ∧ match ou with
         | Some u => u ∈ user db ∧ user_id u = class_teacherId c
         | None => ∀ u, u ∈ user db → user_id u ≠ class_teacherId c
         end)
      ∧ class_subjectId c = z).
  { intros c ou. rewrite elem_of_orderByDesc, elem_of_where. unfold rows.
    rewrite (elem_of_leftJoin_key class_teacherId user_id). simpl.
    rewrite bool_decide_eq_true. tauto. }
  split.
  { intros c ou Hin.
    assert (Hin' : (c, ou) ∈ Orm.orderByDesc (λ r : Class * option User, class_createdAt r.1)
                     (Orm.where_ (λ r : Class * option User,
                                    bool_decide (class_subjectId r.1 = z)) rows)).
    { eapply elem_of_sublist; [exact Hin|]. eapply limitOffset_sublist, Ew. }
    apply Hrow in Hin'. tauto. }
  eexists. split; [exact Ew|]. split; [|split].
  - intros c. rewrite list_elem_of_fmap. split.
    + intros ([c' ou] & -> & Hin). apply Hrow in Hin. simpl. tauto.
    + intros [Hc Hz].
      destruct (leftJoin_total (λ c u, bool_decide (class_teacherId c = user_id u))
                  (classes db) (user db) c Hc) as [ou Hou].
      exists (c, ou). split; [reflexivity|].
      rewrite elem_of_orderByDesc, elem_of_where. simpl.
      split; [by apply bool_decide_eq_true | exact Hou].
  - intros Hpk.
    assert (Hfst : rows.*1 = classes db).
    { unfold rows. apply (leftJoin_fst _ user_id class_teacherId); [exact Hpk|].
      intros c u Hon. apply bool_decide_eq_true in Hon. congruence. }
    assert (Hperm : (Orm.orderByDesc (λ r : Class * option User, class_createdAt r.1)
                       (Orm.where_ (λ r : Class * option User,
                                      bool_decide (class_subjectId r.1 = z)) rows)).*1
                    ≡ₚ filter (λ c, class_subjectId c = z) (classes db)).
    { rewrite orderByDesc_Permutation.
      pose proof (where_fst (λ c, bool_decide (class_subjectId c = z)) rows) as Hw.
      cbv beta in Hw. rewrite Hw, Hfst.
      by rewrite (where_decide (λ c, class_subjectId c = z)). }
    split; [exact Hperm|]. etrans; [exact Hcount|]. do 2 f_equal.
    rewrite <- Hperm. by rewrite length_fmap.
  - intros s od n Ed. unfold subjects_get_id in Ed.
    rewrite Hfin in Ed. unfold tryCatch, mbind, Result_bind in Ed. cbv zeta in Ed.
    rewrite Hparam in Ed.
    match type of Ed with
    | context [match ?w with [] => _ | _ :: _ => _ end] =>
        destruct w as [|row l0]; [discriminate Ed|]
    end.
    by injection Ed as _ <-.
Qed.

Lemma subject_classes_listing_witness :
  Js.of_Z 2
  = Js.of_Z (Z.of_nat (length (filter (λ c, class_subjectId c = 1) (classes sampleDb)))).
Proof.
  assert (E : subjects_get_id_classes sampleDb "1" ∅
              = res_json 200 (ListBody
                  [(sampleClass 2 1 "t1", Some (sampleUser "t1" "teacher" 3));
                   (sampleClass 1 1 "t1", Some (sampleUser "t1" "teacher" 3))]
                  (samplePage 2 1)))
    by (vm_compute; reflexivity).
  destruct (subject_classes_listing sampleDb "1" ∅ _ _ E) as (z & Hz & Htotal & _).
  vm_compute in Hz. injection Hz as <-. exact Htotal.
Defined.

(** X6.  [GET /users/:id]: the user of a 200 response is a stored user
    whose id is the requested string, and with unique ids a stored user
    with that id is the one returned. *)
Theorem user_detail_is_the_stored_user (db : Db) (id : string) :
  (∀ u, users_get_id db id = res_json 200 (DataBody u) → u ∈ user db ∧ user_id u = id)
  ∧ (NoDup (user_id <$> user db) →
     ∀ u, u ∈ user db → user_id u = id →
       users_get_id db id = res_json 200 (DataBody u)).
Proof.
  split.
  - intros u E. unfold users_get_id in E. simpl in E.
    destruct (Orm.where_ _ (user db)) as [|b l] eqn:Ew; simpl in E; simplify_eq.
    destruct (where_head _ _ _ _ Ew) as [Hid Hin].
    apply bool_decide_eq_true in Hid. done.
  - intros Hpk u Hu Hid.
    destruct (where_cons_of_elem (λ u, bool_decide (user_id u = id)) (user db) u Hu)
      as (b & l & E); [by apply bool_decide_eq_true|].
    destruct (where_head _ _ _ _ E) as [Hb Hin]. apply bool_decide_eq_true in Hb.
    assert (b = u) as ->
      by (eapply (NoDup_fmap_inj_on user_id); eauto; congruence).
    unfold users_get_id. simpl. rewrite E. reflexivity.
Qed.

Lemma user_detail_is_the_stored_user_witness :
  sampleUser "s1" "student" 1 ∈ user sampleDb
  ∧ user_id (sampleUser "s1" "student" 1) = "s1".
Proof.
  assert (E : users_get_id sampleDb "s1" = res_json 200 (DataBody (sampleUser "s1" "student" 1)))
    by (vm_compute; reflexivity).
  destruct (user_detail_is_the_stored_user sampleDb "s1") as [H _].
  exact (H _ E).
Defined.

(** X7.  [GET /subjects/:id]: a 200 response carries a stored subject with
    the requested id, the department that its [departmentId] names (none
    when no department has that id), and the number of stored classes of
    the subject; with unique ids a stored subject with that id is the one
    returned. *)
Theorem subject_detail_is_the_stored_subject (db : Db) (id : string) :
  (∀ s od n, subjects_get_id db id = res_json 200 (DataBody (s, od, n)) →
     ∃ z, Orm.integerParam (Js.Number id) = Ok z
       ∧ s ∈ subjects db ∧ subj_id s = z
       ∧ match od with
         | Some d => d ∈ departments db ∧ dept_id d = subj_departmentId s
         | None => ∀ d, d ∈ departments db → dept_id d ≠ subj_departmentId s
         end
       ∧ n = Js.of_Z (Z.of_nat (length (filter (λ c, class_subjectId c = z) (classes db)))))
  ∧ (NoDup (subj_id <$> subjects db) →
     ∀ z s, Orm.integerParam (Js.Number id) = Ok z →
       s ∈ subjects db → subj_id s = z →
       ∃ od n, subjects_get_id db id = res_json 200 (DataBody (s, od, n))).
Proof.
  split.
  - intros s od n E. unfold subjects_get_id in E.
    destruct (negb (Js.isFinite (Js.Number id))); [discriminate E|].
    unfold tryCatch, mbind, Result_bind in E.
    destruct (Orm.integerParam (Js.Number id)) as [z|]; [|discriminate E].
    exists z. split; [reflexivity|].
    destruct (Orm.where_ _ _) as [|[s' od'] l] eqn:Ew; [discriminate E|].
    injection E as -> -> <-.
    destruct (where_head _ _ _ _ Ew) as [Hid Hin]. simpl in Hid.
    apply bool_decide_eq_true in Hid.
    pose proof (elem_of_leftJoin_l _ _ _ _ Hin) as Hs. simpl in Hs.
    apply joined_partner in Hin.
    split; [exact Hs|]. split; [exact Hid|]. split.
    + destruct od as [d|].
      * destruct Hin as [Hd Hon]. apply bool_decide_eq_true in Hon. auto.
      * intros d Hd Heq. specialize (Hin d Hd). apply bool_decide_eq_false in Hin. auto.
    + simpl. unfold Orm.count. by rewrite (where_decide (λ c, class_subjectId c = z)).
  - intros Hpk z s Hz Hs Hid.
    assert (Hfin : Js.isFinite (Js.Number id) = true).
    { unfold Orm.integerParam, Js.to_Z in Hz.
      destruct (Js.Number id); simpl; try reflexivity; discriminate. }
    destruct (leftJoin_total (λ s d, bool_decide (subj_departmentId s = dept_id d))
                (subjects db) (departments db) s Hs) as [od Hod].
    destruct (where_cons_of_elem (λ r : Subject * option Department,
                                    bool_decide (subj_id r.1 = z)) _ _ Hod)
      as ([s' od'] & l & E); [by apply bool_decide_eq_true|].
    destruct (where_head _ _ _ _ E) as [Hb Hin]. simpl in Hb.
    apply bool_decide_eq_true in Hb.
    apply elem_of_leftJoin_l in Hin. simpl in Hin.
    assert (s' = s) as ->
      by (eapply (NoDup_fmap_inj_on subj_id); eauto; congruence).
    unfold subjects_get_id. rewrite Hfin, Hz. simpl. rewrite E. eauto.
Qed.

Lemma subject_detail_is_the_stored_subject_witness :
  sampleSubject 2 1 ∈ subjects sampleDb
  ∧ Js.of_Z 2
    = Js.of_Z (Z.of_nat (length (filter (λ c, class_subjectId c = 2) (classes sampleDb)))).
Proof.
  assert (E : subjects_get_id sampleDb "2"
              = res_json 200 (DataBody (sampleSubject 2 1, Some (sampleDepartment 1),
                                        Js.of_Z 2)))
    by (vm_compute; reflexivity).
  destruct (subject_detail_is_the_stored_subject sampleDb "2") as [H _].
  destruct (H _ _ _ E) as (z & Hz & Hin & Hid & _ & Hn).
  simpl in Hid. subst z. split; [exact Hin | exact Hn].
Defined.

(** X8.  [GET /classes/:id]: a 200 response carries a stored class with the
    requested id, the subject its [subjectId] names, the department of
    that subject and the user its [teacherId] names, each absent when no
    such row is stored.  A stored class is found whether or not these rows
    exist, and with unique ids it is the one returned. *)
Theorem class_detail_is_the_stored_class (db : Db) (id : string) :
  (∀ c os od ou, classes_get_id db id = res_json 200 (DataBody (c, os, od, ou)) →
     ∃ z, Orm.integerParam (Js.Number id) = Ok z
       ∧ c ∈ classes db ∧ class_id c = z
       ∧ match os with
         | Some s => s ∈ subjects db ∧ subj_id s = class_subjectId c
         | None => ∀ s, s ∈ subjects db → subj_id s ≠ class_subjectId c
         end
       ∧ match od with
         | Some d => d ∈ departments db
                     ∧ ∃ s, os = Some s ∧ dept_id d = subj_departmentId s
         | None => ∀ s d, os = Some s → d ∈ departments db →
                          dept_id d ≠ subj_departmentId s
         end
       ∧ match ou with
         | Some u => u ∈ user db ∧ user_id u = class_teacherId c
         | None => ∀ u, u ∈ user db → user_id u ≠ class_teacherId c
         end)
  ∧ (∀ z c, Orm.integerParam (Js.Number id) = Ok z →
       c ∈ classes db → class_id c = z →
       status (classes_get_id db id) = 200)
  ∧ (NoDup (class_id <$> classes db) →
     ∀ z c, Orm.integerParam (Js.Number id) = Ok z →
       c ∈ classes db → class_id c = z →
       ∃ os od ou, classes_get_id db id = res_json 200 (DataBody (c, os, od, ou))).
Proof.
  assert (Hfound : ∀ z c, Orm.integerParam (Js.Number id) = Ok z →
            c ∈ classes db → class_id c = z →
            ∃ c' os od ou, c' ∈ classes db ∧ class_id c' = z
              ∧ classes_get_id db id = res_json 200 (DataBody (c', os, od, ou))).
  { intros z c Hz Hc Hid.
    assert (Hfin : Js.isFinite (Js.Number id) = true).
    { unfold Orm.integerParam, Js.to_Z in Hz.
      destruct (Js.Number id); simpl; try reflexivity; discriminate. }
    destruct (leftJoin_total (λ c s, bool_decide (class_subjectId c = subj_id s))
                (classes db) (subjects db) c Hc) as [os Hos].
    destruct (leftJoin_total (λ (r : Class * option Subject) d,
                 bool_decide (subj_departmentId <$> r.2 = Some (dept_id d)))
                _ (departments db) _ Hos) as [od Hod].
    destruct (leftJoin_total (λ (r : Class * option Subject * option Department) u,
                 bool_decide (class_teacherId r.1.1 = user_id u))
                _ (user db) _ Hod) as [ou Hou].
    destruct (where_cons_of_elem
                (λ r : Class * option Subject * option Department * option User,
                   bool_decide (class_id r.1.1.1 = z)) _ _ Hou)
      as ([[[c' os'] od'] ou'] & l & E); [by apply bool_decide_eq_true|].
    destruct (where_head _ _ _ _ E) as [Hb Hin]. simpl in Hb.
    apply bool_decide_eq_true in Hb.
    do 3 apply elem_of_leftJoin_l in Hin. simpl in Hin.
    exists c', os', od', ou'. split; [exact Hin|]. split; [exact Hb|].
    unfold classes_get_id. rewrite Hfin, Hz. simpl. rewrite E. reflexivity. }
  split; [|split].
  - intros c os od ou E. unfold classes_get_id in E.
    destruct (negb (Js.isFinite (Js.Number id))); [discriminate E|].
    unfold tryCatch, mbind, Result_bind in E.
    destruct (Orm.integerParam (Js.Number id)) as [z|]; [|discriminate E].
    exists z. split; [reflexivity|].
    destruct (Orm.where_ _ _) as [|[[[c' os'] od'] ou'] l] eqn:Ew; [discriminate E|].
    injection E as -> -> -> ->.
    destruct (where_head _ _ _ _ Ew) as [Hid Hin]. simpl in Hid.
    apply bool_decide_eq_true in Hid.
    apply elem_of_leftJoin in Hin as [Hin Hu].
    apply elem_of_leftJoin in Hin as [Hin Hd].
    apply elem_of_leftJoin in Hin as [Hc Hs]. simpl in *.
    split; [exact Hc|]. split; [exact Hid|]. split; [|split].
    + destruct os as [s|].
      * destruct Hs as [Hs Hon]. apply bool_decide_eq_true in Hon. auto.
      * intros s Hs' Heq. specialize (Hs s Hs'). apply bool_decide_eq_false in Hs. auto.
    + destruct od as [d|].
      * destruct Hd as [Hd Hon]. apply bool_decide_eq_true in Hon.
        split; [exact Hd|]. destruct os as [s|]; [|discriminate Hon].
        injection Hon as Hon. eauto.
      * intros s d -> Hd' Heq. specialize (Hd d Hd').
        apply bool_decide_eq_false in Hd. simpl in Hd. congruence.
    + destruct ou as [u|].
      * destruct Hu as [Hu Hon]. apply bool_decide_eq_true in Hon. auto.
      * intros u Hu' Heq. specialize (Hu u Hu'). apply bool_decide_eq_false in Hu. auto.
  - intros z c Hz Hc Hid.
    destruct (Hfound z c Hz Hc Hid) as (c' & os & od & ou & _ & _ & E).
    rewrite E. reflexivity.
  - intros Hpk z c Hz Hc Hid.
    destruct (Hfound z c Hz Hc Hid) as (c' & os & od & ou & Hc' & Hid' & E).
    assert (c' = c) as ->
      by (eapply (NoDup_fmap_inj_on class_id); eauto; congruence).
    eauto.
Qed.

Lemma class_detail_is_the_stored_class_witness :
  sampleClass 3 2 "t1" ∈ classes sampleDb
  ∧ status (classes_get_id sampleDb "3") = 200.
Proof.
  assert (E : classes_get_id sampleDb "3"
              = res_json 200 (DataBody (sampleClass 3 2 "t1", Some (sampleSubject 2 1),
                                        Some (sampleDepartment 1),
                                        Some (sampleUser "t1" "teacher" 3))))
    by (vm_compute; reflexivity).
  assert (Hz : Orm.integerParam (Js.Number "3") = Ok 3) by (vm_compute; reflexivity).
  destruct (class_detail_is_the_stored_class sampleDb "3") as (H1 & H2 & _).
  destruct (H1 _ _ _ _ E) as (z & _ & Hin & _).
  split; [exact Hin|]. exact (H2 3 _ Hz Hin eq_refl).
Defined.

(** X9.  [POST /subjects] and [POST /classes] answer 201 with the first
    returned row when the insert resolves to at least one row, and 500 with
    the fixed message when the insert is rejected.  There is no other
    answer: no body is turned away with a 400, and a 201 is sent only for
    an insert that returned a row.  The store is left as the insert left
    it. *)
Theorem post_answers_201_or_500
    (insertSubject : Db → SubjectValues → Result (list Created) * Db)
    (insertClass : Db → ClassValues → Result (list Created) * Db)
    (db : Db) (random : Js.number) (body : gmap string json) :
  let s := subjects_post insertSubject db body in
  let c := classes_post insertClass db random body in
  (∀ row rest, (insertSubject db (subjectValues body)).1 = Ok (row :: rest) →
     s.1 = res_json 201 (DataBody row))
  ∧ (∀ row rest, (insertClass db (classValues body random)).1 = Ok (row :: rest) →
     c.1 = res_json 201 (DataBody row))
  ∧ (∀ e, (insertSubject db (subjectValues body)).1 = Throw e →
     s.1 = res_json 500 (ErrorBody "Failed to create subject"))
  ∧ (∀ e, (insertClass db (classValues body random)).1 = Throw e →
     c.1 = res_json 500 (ErrorBody "Failed to create class"))
  ∧ (status s.1 = 201 ∨ s.1 = res_json 500 (ErrorBody "Failed to create subject"))
  ∧ (status c.1 = 201 ∨ c.1 = res_json 500 (ErrorBody "Failed to create class"))
  ∧ (status s.1 = 201 →
     ∃ row rest, (insertSubject db (subjectValues body)).1 = Ok (row :: rest))
  ∧ (status c.1 = 201 →
     ∃ row rest, (insertClass db (classValues body random)).1 = Ok (row :: rest))
  ∧ s.2 = (insertSubject db (subjectValues body)).2
  ∧ c.2 = (insertClass db (classValues body random)).2.
Proof.
  unfold subjects_post, classes_post.
  destruct (insertSubject db (subjectValues body)) as [[[|row rest]|e] db1];
    destruct (insertClass db (classValues body random)) as [[[|row' rest']|e'] db2];
    simpl; repeat split; intros; simplify_eq; eauto; try discriminate.
Qed.

Lemma post_answers_201_or_500_witness :
  (subjects_post rejectingSubject emptyDb ∅).1
  = res_json 500 (ErrorBody "Failed to create subject")
  ∧ (classes_post oneRowClass emptyDb (Js.Number "0.5") ∅).1
    = res_json 201 (DataBody {| created_id := 1 |}).
Proof.
  pose proof (post_answers_201_or_500 rejectingSubject oneRowClass emptyDb
                (Js.Number "0.5") ∅) as (_ & Hc & Hs & _).
  split; [exact (Hs QueryError eq_refl) | exact (Hc _ [] eq_refl)].
Defined.

(** X10.  [POST /subjects] reads [departmentId], [name], [code] and
    [description] and nothing else: two bodies that agree on these four
    keys hand the same values to the store and get the same answer. *)
Theorem post_subjects_reads_four_fields
    (insertSubject : Db → SubjectValues → Result (list Created) * Db)
    (db : Db) (b1 b2 : gmap string json) :
  (∀ k, k ∈ ["departmentId"; "name"; "code"; "description"] → b1 !! k = b2 !! k) →
  subjectValues b1 = subjectValues b2
  ∧ subjects_post insertSubject db b1 = subjects_post insertSubject db b2.
Proof.
  intros Hb.
  assert (E : subjectValues b1 = subjectValues b2).
  { unfold subjectValues. rewrite !Hb; [reflexivity|..]; set_solver. }
  split; [exact E|]. unfold subjects_post. rewrite E. reflexivity.
Qed.

Lemma post_subjects_reads_four_fields_witness :
  subjectValues {[ "name" := JString "Algebra" ]}
  = subjectValues (<[ "id" := JNumber (Js.of_Z 7) ]> {[ "name" := JString "Algebra" ]}).
Proof.
  apply (post_subjects_reads_four_fields noRowSubject emptyDb).
  intros k Hk. rewrite lookup_insert_ne; [reflexivity|].
  intros <-. set_unfold in Hk. destruct_or!; discriminate.
Defined.

(** X11.  An empty [search], [role], [department], [subject] or [teacher]
    parameter is no filter: the three top-level listings answer a query
    with the empty value as they answer the query without the key. *)
Theorem empty_filters_are_ignored (ilike : string → string → bool) (db : Db)
    (query : gmap string qvalue) (k : string) :
  query !! k = Some (QString EmptyString) →
  (k = "search" ∨ k = "role" →
     users_get ilike db query = users_get ilike db (delete k query))
  ∧ (k = "search" ∨ k = "department" →
     subjects_get ilike db query = subjects_get ilike db (delete k query))
  ∧ (k = "search" ∨ k = "subject" ∨ k = "teacher" →
     classes_get ilike db query = classes_get ilike db (delete k query)).
Proof.
  intros Hk.
  split; [|split]; intros Hcase;
    unfold users_get, subjects_get, classes_get;
    repeat destruct Hcase as [Hcase|Hcase]; subst k;
    rewrite ?lookup_delete_eq, ?lookup_delete_ne by discriminate;
    rewrite Hk; reflexivity.
Qed.

Lemma empty_filters_are_ignored_witness :
  users_get anyMatch sampleDb {[ "search" := QString EmptyString ]}
  = users_get anyMatch sampleDb (delete "search" {[ "search" := QString EmptyString ]}).
Proof.
  apply (empty_filters_are_ignored anyMatch sampleDb _ "search").
  - vm_compute; reflexivity.
  - by left.
Defined.

(** X12.  A page, a limit or an id written in decimal digits, with a minus
    sign for a negative number, is read as the integer it spells: unary
    plus gives that integer, page and limit are that integer raised to 1,
    and an id in the range of the integer column is bound as that
    integer. *)
Theorem decimal_parameters_are_read_as_integers (z dflt : Z) :
  unaryPlus (Some (QString (pretty z))) dflt = Js.of_Z z
  ∧ (- 2 ^ 53 < z < 2 ^ 53 →
       currentPageOf (Some (QString (pretty z))) = Js.of_Z (Z.max 1 z)
       ∧ limitPerPageOf (Some (QString (pretty z))) = Js.of_Z (Z.max 1 z))
  ∧ (- 2 ^ 31 ≤ z < 2 ^ 31 → Orm.integerParam (Js.Number (pretty z)) = Ok z).
Proof.
  split; [apply Number_pretty|]. split.
  - intros Hz. unfold currentPageOf, limitPerPageOf, unaryPlus. simpl ToString.
    rewrite Number_pretty. split; by apply max_one_of_Z_any.
  - intros Hz. rewrite Number_pretty. by apply integerParam_of_Z.
Qed.

Lemma decimal_parameters_are_read_as_integers_witness :
  currentPageOf (Some (QString (pretty (-3)))) = Js.of_Z (Z.max 1 (-3))
  ∧ Orm.integerParam (Js.Number (pretty 42)) = Ok 42.
Proof.
  destruct (decimal_parameters_are_read_as_integers (-3) 1) as (_ & Hp & _).
  destruct (decimal_parameters_are_read_as_integers 42 1) as (_ & _ & Hi).
  split; [apply Hp | apply Hi]; split; (lia || reflexivity || discriminate).
Defined.



(** X14.  On every list route the [total] of a 200 response is a row
    count, and for an integer limit [l] of at least 1 (both below 2^53)
    [totalPages] is the integer [k] with [(k - 1) * l < total <= k * l]:
    the division and [Math.ceil] lose nothing to rounding. *)
Theorem total_pages_is_the_integer_ceiling (ilike : string → string → bool) (db : Db)
    (id : string) (query : gmap string qvalue) :
  countsPages (users_get ilike db query)
  ∧ countsPages (users_get_id_departments db id query)
  ∧ countsPages (users_get_id_subjects db id query)
  ∧ countsPages (subjects_get ilike db query)
  ∧ countsPages (subjects_get_id_classes db id query)
  ∧ countsPages (subjects_get_id_users db id query)
  ∧ countsPages (classes_get ilike db query)
  ∧ countsPages (classes_get_id_users db id query).
Proof.
  destruct (every_list_route_is_paged ilike db id query)
    as (H1 & H2 & H3 & H4 & H5 & H6 & H7 & H8).
  split; [exact (counts_pages_of _ _ H1 (users_get_counts ilike db query))|].
  split; [exact (counts_pages_of _ _ H2 (users_get_id_departments_counts db id query))|].
  split; [exact (counts_pages_of _ _ H3 (users_get_id_subjects_counts db id query))|].
  split; [exact (counts_pages_of _ _ H4 (subjects_get_counts ilike db query))|].
  split; [exact (counts_pages_of _ _ H5 (subjects_get_id_classes_counts db id query))|].
  split; [exact (counts_pages_of _ _ H6 (subjects_get_id_users_counts db id query))|].
  split; [exact (counts_pages_of _ _ H7 (classes_get_counts ilike db query))|].
  exact (counts_pages_of _ _ H8 (classes_get_id_users_counts db id query)).
Qed.

(** Six classes in pages of two are three pages. *)
Lemma total_pages_is_the_integer_ceiling_witness :
  ∃ k, Js.of_Z 3 = Js.of_Z k ∧ (k - 1) * 2 < 6 ≤ k * 2.
Proof.
  assert (E : classes_get anyMatch sampleDb {[ "limit" := QString "2" ]}
              = res_json 200 (ListBody
                  [(sampleClass 6 3 "t1", Some (sampleSubject 3 1),
                    Some (sampleUser "t1" "teacher" 3));
                   (sampleClass 5 3 "t1", Some (sampleSubject 3 1),
                    Some (sampleUser "t1" "teacher" 3))]
                  {| page := Js.of_Z 1; limit := Js.of_Z 2; total := Js.of_Z 6;
                     totalPages := Js.of_Z 3 |}))
    by (vm_compute; reflexivity).
  pose proof (total_pages_is_the_integer_ceiling anyMatch sampleDb "1"
                {[ "limit" := QString "2" ]}) as (_ & _ & _ & _ & _ & _ & H & _).
  destruct (H _ _ E) as [_ Hk].
  apply (Hk 6 2); [reflexivity | reflexivity | split; [lia | reflexivity]
                  | split; [lia | reflexivity]].
Defined.

(** X15.  When [limit] does not coerce to a number, so that [+limit] is
    NaN, [GET /users], [GET /subjects] and [GET /classes] answer 200 with
    every row that matches: the data have as many rows as [total] says,
    and [limit] and [totalPages] are NaN. *)
Theorem limit_that_is_no_number_lifts_the_limit (ilike : string → string → bool)
    (db : Db) (query : gmap string qvalue) :
  Js.isNaN (unaryPlus (query !! "limit") 10) = true →
  unlimited (users_get ilike db query)
  ∧ unlimited (subjects_get ilike db query)
  ∧ unlimited (classes_get ilike db query).
Proof.
  intros H. split; [|split]; revert H; unfold unlimited.
  - unfold users_get. no_limit user_createdAt.
  - unfold subjects_get.
    no_limit (λ r : Subject * option Department, subj_createdAt r.1).
  - unfold classes_get.
    no_limit (λ r : Class * option Subject * option User, class_createdAt r.1.1).
Qed.

(** [limit=abc] on the sample store. *)
Lemma limit_that_is_no_number_lifts_the_limit_witness :
  unlimited (users_get anyMatch sampleDb {[ "limit" := QString "abc" ]}).
Proof.
  apply (limit_that_is_no_number_lifts_the_limit anyMatch sampleDb).
  vm_compute; reflexivity.
Defined.

(** X16.  [GET /classes/:id/users] with [role=teacher], under unique class
    and user ids: every listed user is the user that the class's
    [teacherId] names and has the stored role teacher, so at most one user
    is listed; when that user's stored role is not teacher the list is
    empty and [total] is 0. *)
Theorem class_lists_at_most_one_teacher (db : Db) (id : string)
    (query : gmap string qvalue) (data : list User) (pag : Pagination)
    (z : Z) (c : Class) :
  classes_get_id_users db id query = res_json 200 (ListBody data pag) →
  Orm.integerParam (Js.Number id) = Ok z →
  query !! "role" = Some (QString "teacher") →
  NoDup (class_id <$> classes db) → NoDup (user_id <$> user db) →
  c ∈ classes db → class_id c = z →
  (∀ u, u ∈ data →
     u ∈ user db ∧ user_id u = class_teacherId c ∧ user_role u = "teacher")
  ∧ (length data ≤ 1)%nat
  ∧ ((∀ u, u ∈ user db → user_id u = class_teacherId c → user_role u ≠ "teacher") →
     data = [] ∧ total pag = Js.of_Z 0).
Proof.
  intros E Hz Hrole Hck Huk Hc Hid.
  destruct (class_users_total db id query data pag z E Hz) as [Ht _].
  destruct (Ht Hrole) as (Htotal & all & Hw & Hnd & Hall).
  assert (Hmem : ∀ u, u ∈ teachersWhere db "teacher" (λ c, bool_decide (class_id c = z))
                 ↔ u ∈ user db ∧ user_id u = class_teacherId c ∧ user_role u = "teacher").
  { intros u. unfold teachersWhere, teaches. rewrite elem_of_filter_bool.
    rewrite andb_true_iff, bool_decide_eq_true, existsb_elem_of. split.
    - intros (Hu & Hr & c' & Hc' & Hcond).
      apply andb_true_iff in Hcond as [Ht1 Ht2].
      apply bool_decide_eq_true in Ht1, Ht2.
      assert (c' = c) as -> by (eapply (NoDup_fmap_inj_on class_id); eauto; congruence).
      auto.
    - intros (Hu & Hi & Hr). split; [done|]. split; [done|].
      exists c. split; [done|]. apply andb_true_iff.
      split; by apply bool_decide_eq_true. }
  assert (Hsub : data `sublist_of` all) by (eapply limitOffset_sublist, Hw).
  assert (Hdata : ∀ u, u ∈ data →
            u ∈ user db ∧ user_id u = class_teacherId c ∧ user_role u = "teacher").
  { intros u Hu. apply Hmem, Hall. by eapply elem_of_sublist. }
  split; [exact Hdata|]. split.
  - destruct data as [|u0 data'] eqn:Ed; [simpl; lia|]. rewrite <- Ed in *.
    apply (NoDup_all_equal data u0); [eapply sublist_NoDup; eauto|].
    intros x Hx. destruct (Hdata x Hx) as (Hx1 & Hx2 & _).
    destruct (Hdata u0 ltac:(rewrite Ed; left)) as (H01 & H02 & _).
    eapply (NoDup_fmap_inj_on user_id); eauto. congruence.
  - intros Hno.
    assert (Hempty : teachersWhere db "teacher" (λ c, bool_decide (class_id c = z)) = []).
    { assert (Hnone : ∀ u, u ∉ teachersWhere db "teacher"
                                   (λ c, bool_decide (class_id c = z))).
      { intros u Hu. apply Hmem in Hu as (Hu & Hi & Hr). by apply (Hno u). }
      clear - Hnone.
      destruct (teachersWhere db "teacher" (λ c, bool_decide (class_id c = z)))
        as [|u l]; [reflexivity|]. exfalso. apply (Hnone u). left. }
    split.
    + destruct data as [|u0 data']; [reflexivity|]. exfalso.
      destruct (Hdata u0 ltac:(left)) as (Hu & Hi & Hr). by apply (Hno u0).
    + rewrite Htotal, Hempty. reflexivity.
Qed.

Lemma class_lists_at_most_one_teacher_witness :
  (length [sampleUser "t1" "teacher" 3] ≤ 1)%nat.
Proof.
  assert (E : classes_get_id_users sampleDb "4" {[ "role" := QString "teacher" ]}
              = res_json 200 (ListBody [sampleUser "t1" "teacher" 3] (samplePage 1 1)))
    by (vm_compute; reflexivity).
  assert (Hz : Orm.integerParam (Js.Number "4") = Ok 4) by (vm_compute; reflexivity).
  assert (Hq : ({[ "role" := QString "teacher" ]} : gmap string qvalue) !! "role"
               = Some (QString "teacher")) by (vm_compute; reflexivity).
  assert (Hck : NoDup (class_id <$> classes sampleDb)).
  { apply NoDup_ListNoDup. simpl. repeat constructor; simpl; intuition lia. }
  assert (Huk : NoDup (user_id <$> user sampleDb)).
  { apply NoDup_ListNoDup. simpl. repeat constructor; simpl; intuition discriminate. }
  assert (Hc : sampleClass 4 2 "t1" ∈ classes sampleDb).
  { unfold sampleDb. simpl. do 3 (apply elem_of_cons; right). left. }
  destruct (class_lists_at_most_one_teacher sampleDb "4" _ _ _ 4 _ E Hz Hq Hck Huk Hc
              eq_refl) as (_ & H & _).
  exact H.
Defined.

(** X17.  When [page] does not coerce to a number, so that [+page] is NaN,
    [GET /users], [GET /subjects] and [GET /classes] answer as they answer
    the query without [page]: the same status and the same data, those of
    the first page, and the same limit, total and page count; only the
    [page] of the envelope is NaN where the first page says 1. *)
Theorem page_that_is_no_number_is_the_first_page (ilike : string → string → bool)
    (db : Db) (query : gmap string qvalue) :
  Js.isNaN (unaryPlus (query !! "page") 1) = true →
  asFirstPage (users_get ilike db) query
  ∧ asFirstPage (subjects_get ilike db) query
  ∧ asFirstPage (classes_get ilike db) query.
Proof.
  intros H. split; [|split]; revert H; unfold asFirstPage.
  - unfold users_get. first_page.
  - unfold subjects_get. first_page.
  - unfold classes_get. first_page.
Qed.

(** [page=abc] on the sample store. *)
Lemma page_that_is_no_number_is_the_first_page_witness :
  dataOf (users_get anyMatch sampleDb {[ "page" := QString "abc" ]})
  = dataOf (users_get anyMatch sampleDb (delete "page" {[ "page" := QString "abc" ]})).
Proof.
  destruct (page_that_is_no_number_is_the_first_page anyMatch sampleDb
              {[ "page" := QString "abc" ]}) as [(_ & H & _) _].
  - vm_compute; reflexivity.
  - exact H.
Defined.

(** X18.  A parameter given more than once reaches the handler as an array
    of two values or more, and unary plus on it is NaN whatever the values
    are and whatever the default is: the comma that joins them is no part
    of a numeric literal.  The page and the limit computed from it are
    NaN. *)
Theorem repeated_parameter_is_no_number (v1 v2 : qvalue) (vs : list qvalue) (dflt : Z) :
  unaryPlus (Some (QArray (v1 :: v2 :: vs))) dflt = Js.NaN
  ∧ currentPageOf (Some (QArray (v1 :: v2 :: vs))) = Js.NaN
  ∧ limitPerPageOf (Some (QArray (v1 :: v2 :: vs))) = Js.NaN.
Proof.
  assert (∀ d, unaryPlus (Some (QArray (v1 :: v2 :: vs))) d = Js.NaN) as H.
  { intros d. unfold unaryPlus. apply Number_comma, ToString_repeated. }
  unfold currentPageOf, limitPerPageOf. by rewrite !H.
Qed.
